(** * A message bus with workflows: handler registry, workflow registry,
      step dispatcher and workflow persistence

    Shallow embedding of
    - [packages/bus-core/src/handler/handler-registry.ts] (two revisions of
      [DefaultHandlerRegistry]: one that leaves the resolver wiring commented
      out, one that wires it),
    - [packages/bus-core/src/workflow/registry/workflow-registry.ts],
    - [packages/bus-core/src/workflow/persistence/in-memory-persistence.ts],
    - the Postgres persistence ([PostgresPersistence]).

    JavaScript objects are finite maps from property names to values:
    their own properties.  The two objects the code uses as maps from
    arbitrary names, the handler registry's [registry] and the in-memory
    persistence's [workflowState], are created by [{}], so a name that is
    not an own property may still be found on [Object.prototype]; reads of
    these two objects go through [readProperty].  Messages and workflow
    states are read under names of the code's own choosing ([$name],
    [$status], ...) and compared with scalars only.  Mutable receivers
    ([this]) are passed and returned explicitly; a call that throws still
    returns the receiver as the throw left it.  The workflow registry runs
    in a state-and-exception monad over the process-wide singletons it
    touches, and records its calls to the persistence, to the steps and to
    the logger in a trace; the logger calls of the handler registry change
    nothing that is modelled and are left out.  An asynchronous function
    is split at its [await]s where another task can run in between
    ([initialize], and the dispatches that [Promise.all] runs together);
    texts of [TypeError]s are those of V8. *)

From Stdlib Require Import ZArith List Bool Ascii String.
From stdpp Require Import base decidable option list strings gmap fin_maps pretty sorting.
Import ListNotations.

Local Open Scope string_scope.
Local Open Scope Z_scope.
Local Open Scope list_scope.

(** ** JavaScript values and objects *)

Module JS.

(** The scalars that occur in messages and workflow states.  Numbers are
    integers: the only number the code computes with is [$version]. *)
Inductive value : Type :=
| VUndefined
| VNull
| VBool (b : bool)
| VNum (n : Z)
| VStr (s : string).

#[global] Instance value_eq_dec : EqDecision value.
Proof. solve_decision. Defined.

(** [!!v] *)
Definition truthy (v : value) : bool :=
  match v with
  | VUndefined | VNull => false
  | VBool b => b
  | VNum n => negb (n =? 0)
  | VStr s => negb (String.eqb s "")
  end.

(** [a === b] on scalars *)
Definition strict_eq (a b : value) : bool := bool_decide (a = b).

(** The property key a value is converted to when it indexes an object. *)
Definition to_property_key (v : value) : string :=
  match v with
  | VUndefined => "undefined"
  | VNull => "null"
  | VBool true => "true"
  | VBool false => "false"
  | VNum n => pretty n
  | VStr s => s
  end.

(** The own enumerable properties of an object. *)
Abbreviation props := (gmap string value).

(** [o[k]]: a missing property reads as [undefined]. *)
Definition get (o : props) (k : string) : value := default VUndefined (o !! k).

(** [{...a, ...b}] and [Object.assign(a', b)] on the property maps: the
    later source wins (stdpp's union prefers its left operand). *)
Definition spread (a b : props) : props := b ∪ a.

(** [Object.assign(target, s1, s2)] *)
Definition assign3 (target s1 s2 : props) : props := spread (spread target s1) s2.

(** The property names an object created by [{}] inherits from
    [Object.prototype]: its methods and the accessor [__proto__]. *)
Definition objectPrototypeNames : list string :=
  ["constructor"; "__defineGetter__"; "__defineSetter__"; "hasOwnProperty";
   "__lookupGetter__"; "__lookupSetter__"; "isPrototypeOf"; "propertyIsEnumerable";
   "toString"; "valueOf"; "__proto__"; "toLocaleString"].

Definition inherited (k : string) : bool := bool_decide (k ∈ objectPrototypeNames).

(** What [o[k]] reads on an object used as a map from names to [V]s: the
    own property; else what [Object.prototype] holds under the name, a
    function (or, under [__proto__], [Object.prototype] itself), which is
    truthy and has none of the properties of a [V]; else [undefined]. *)
Inductive Property (V : Type) : Type :=
| Own (v : V)
| Inherited
| Missing.
Arguments Own {V} v.
Arguments Inherited {V}.
Arguments Missing {V}.

Definition readProperty {V} (o : gmap string V) (k : string) : Property V :=
  match o !! k with
  | Some v => Own v
  | None => if inherited k then Inherited else Missing
  end.

(** [k in o] *)
Definition hasProperty {V} (o : gmap string V) (k : string) : bool :=
  bool_decide (is_Some (o !! k)) || inherited k.

(** The [length] of what [Object.prototype] holds under an inherited
    name: the number of parameters of the function; [Object.prototype]
    itself, read under [__proto__], has no [length]. *)
Definition inheritedLength (k : string) : value :=
  if String.eqb k "__proto__" then VUndefined
  else if String.eqb k "__defineGetter__" || String.eqb k "__defineSetter__" then VNum 2
  else if String.eqb k "toString" || String.eqb k "valueOf" || String.eqb k "toLocaleString"
  then VNum 0
  else VNum 1.

(** The value of a decimal numeral. *)
Fixpoint digitsValue (s : string) (acc : N) : option N :=
  match s with
  | EmptyString => Some acc
  | String c rest =>
      let d := nat_of_ascii c in
      if ((48 <=? d) && (d <=? 57))%nat
      then digitsValue rest (acc * 10 + N.of_nat (d - 48))%N
      else None
  end.

(** An array index: the canonical numeral of an integer below 2^32 - 1. *)
Definition arrayIndex (k : string) : option N :=
  match k with
  | EmptyString => None
  | _ =>
      match digitsValue k 0%N with
      | Some n => if String.eqb (pretty n) k && (n <? 4294967295)%N then Some n else None
      | None => None
      end
  end.

Definition isArrayIndex (k : string) : bool :=
  match arrayIndex k with Some _ => true | None => false end.

(** [Object.keys(o)] from the names of [o]'s properties in the order they
    were created: the array indices first, in ascending order, then the
    other names in creation order. *)
Definition objectKeys (created : list string) : list string :=
  map pretty (merge_sort N.le (omap arrayIndex created))
  ++ List.filter (fun k => negb (isArrayIndex k)) created.

End JS.
Import JS.

(** ** Errors thrown by the code *)

Inductive exn : Type :=
| HandlerAlreadyRegistered (handlerName : string)
| WorkflowStateNotInitialized (description : string)
| WorkflowDataNotFound (workflowId : value) (tableName : string) (version : Z)
| PersistenceNotConfigured
| TypeError (description : string)
| DatabaseError (description : string)
| Error (description : string).

#[global] Instance exn_eq_dec : EqDecision exn.
Proof. solve_decision. Defined.

Inductive result (A : Type) : Type :=
| Ok (a : A)
| Throw (e : exn).
Arguments Ok {A} a.
Arguments Throw {A} e.

(** ** Messages, message constructors and handlers *)

(** A message received from the bus: [$name] is absent on external
    messages ([object | Message]). *)
Record Message : Type := mkMessage {
  msg_name : option string;
  msg_fields : props
}.

(** [ClassConstructor<Message>]: the constructor's identity and the [$name]
    of the instances it builds ([new messageType().$name]). *)
Record MessageType : Type := mkMessageType {
  ctor_ref : positive;
  ctor_name : string
}.

#[global] Instance MessageType_eq_dec : EqDecision MessageType.
Proof. solve_decision. Defined.

(** A handler is a function object, compared by identity ([===]); [name]
    is its [name] property. *)
Record Handler : Type := mkHandler {
  fn_ref : positive;
  fn_name : string
}.

#[global] Instance Handler_eq_dec : EqDecision Handler.
Proof. solve_decision. Defined.

(** [!messageName] is false exactly for a present, non-empty name. *)
Definition name_truthy (messageName : option string) : bool :=
  match messageName with
  | Some n => truthy (VStr n)
  | None => false
  end.

Record RegisteredHandlers : Type := mkRegisteredHandlers {
  messageType : MessageType;
  handlers : list Handler
}.

Record HandlerResolver : Type := mkHandlerResolver {
  hr_handler : Handler;
  hr_resolver : Message -> bool;
  hr_messageType : option MessageType;
  hr_topicIdentifier : option string
}.

(** The three private fields of [DefaultHandlerRegistry].  The object
    [registry] is its own properties and the order they were created in. *)
Record DefaultHandlerRegistry : Type := mkRegistry {
  registry : gmap string RegisteredHandlers;
  registryKeys : list string;
  unhandledMessages : list string;
  handlerResolvers : list HandlerResolver
}.

(** [new DefaultHandlerRegistry()] *)
Definition newRegistry : DefaultHandlerRegistry :=
  {| registry := ∅; registryKeys := []; unhandledMessages := []; handlerResolvers := [] |}.

(** The handlers kept under a name: those of its own entry, none when the
    name has no entry. *)
Definition handlersFor (this : DefaultHandlerRegistry) (messageName : string) : list Handler :=
  match registry this !! messageName with
  | Some entry => handlers entry
  | None => []
  end.

(** [handlers.some(registeredHandler => registeredHandler === handler)] *)
Definition someSame (handler : Handler) (hs : list Handler) : bool :=
  existsb (fun registeredHandler => bool_decide (registeredHandler = handler)) hs.

(** The part of [register] both revisions share, from
    [const messageName = new messageType().$name] on.  Under a name
    inherited from [Object.prototype] the test [!this.registry[messageName]]
    finds a function, no entry is created, and [.handlers] of it is
    [undefined]. *)
Definition registerByName (mt : MessageType) (handler : Handler)
    (this : DefaultHandlerRegistry) : DefaultHandlerRegistry * result unit :=
  let messageName := ctor_name mt in
  let this1 :=
    match readProperty (registry this) messageName with
    | Missing =>
        {| registry :=
             <[messageName := {| messageType := mt; handlers := [] |}]> (registry this);
           registryKeys := registryKeys this ++ [messageName];
           unhandledMessages := unhandledMessages this;
           handlerResolvers := handlerResolvers this |}
    | _ => this
    end in
  match readProperty (registry this1) messageName with
  | Own entry =>
      if someSame handler (handlers entry) then
        (this1, Throw (HandlerAlreadyRegistered (fn_name handler)))
      else
        ({| registry :=
              <[messageName := {| messageType := messageType entry;
                                  handlers := handlers entry ++ [handler] |}]>
                (registry this1);
            registryKeys := registryKeys this1;
            unhandledMessages := unhandledMessages this1;
            handlerResolvers := handlerResolvers this1 |},
         Ok tt)
  | Inherited =>
      (this1, Throw (TypeError "Cannot read properties of undefined (reading 'some')"))
  | Missing =>
      (this1, Throw (TypeError "Cannot read properties of undefined (reading 'handlers')"))
  end.

(** *** The revision without resolver wiring (handler-registry.ts) *)

Module HandlerRegistry.

(** [resolveWith] and [topicIdentifier] are accepted and ignored: the
    push onto [handlerResolvers] is commented out. *)
Definition register (mt : MessageType) (handler : Handler)
    (resolveWith : option (Message -> bool)) (topicIdentifier : option string)
    (this : DefaultHandlerRegistry) : DefaultHandlerRegistry * result unit :=
  registerByName mt handler this.

(** [get(messageName)] takes the name, not the message.  [None] is
    [undefined]: what [.handlers] reads on the function found under an
    inherited name, which [in] takes for a registration. *)
Definition get (messageName : string) (this : DefaultHandlerRegistry)
    : option (list Handler) * DefaultHandlerRegistry :=
  if negb (hasProperty (registry this) messageName) then
    if existsb (String.eqb messageName) (unhandledMessages this) then (Some [], this)
    else (Some [], {| registry := registry this;
                      registryKeys := registryKeys this;
                      unhandledMessages := unhandledMessages this ++ [messageName];
                      handlerResolvers := handlerResolvers this |})
  else
    match readProperty (registry this) messageName with
    | Own entry => (Some (handlers entry), this)
    | _ => (None, this)
    end.

(** [Object.keys(this.registry)] *)
Definition getMessageNames (this : DefaultHandlerRegistry) : list string :=
  objectKeys (registryKeys this).

(** [undefined] ([None]) also under an inherited name, where
    [.messageType] of the function found is [undefined]. *)
Definition getMessageConstructor (messageName : string) (this : DefaultHandlerRegistry)
    : option MessageType :=
  if negb (hasProperty (registry this) messageName) then None
  else
    match readProperty (registry this) messageName with
    | Own entry => Some (messageType entry)
    | _ => None
    end.

(** [this.registry = {}] *)
Definition reset (this : DefaultHandlerRegistry) : DefaultHandlerRegistry :=
  {| registry := ∅;
     registryKeys := [];
     unhandledMessages := unhandledMessages this;
     handlerResolvers := handlerResolvers this |}.

End HandlerRegistry.

(** *** The revision that wires resolvers *)

Module HandlerRegistryResolvers.

Definition register (mt : MessageType) (handler : Handler)
    (resolveWith : option (Message -> bool)) (topicIdentifier : option string)
    (this : DefaultHandlerRegistry) : DefaultHandlerRegistry * result unit :=
  let this1 :=
    match resolveWith with
    | Some p =>
        {| registry := registry this;
           registryKeys := registryKeys this;
           unhandledMessages := unhandledMessages this;
           handlerResolvers :=
             handlerResolvers this ++
               [{| hr_handler := handler; hr_resolver := p;
                   hr_messageType := Some mt;
                   hr_topicIdentifier := topicIdentifier |}] |}
    | None => this
    end in
  registerByName mt handler this1.

Definition resolveCustomHandlers (message : Message) (this : DefaultHandlerRegistry)
    : list Handler :=
  map hr_handler
    (List.filter (fun handlerResolver => hr_resolver handlerResolver message)
       (handlerResolvers this)).

(** [messageName in this.registry] *)
Definition nameInRegistry (messageName : option string) (this : DefaultHandlerRegistry) : bool :=
  match messageName with
  | Some n => hasProperty (registry this) n
  | None => false
  end.

(** [messageName && this.registry[messageName] ? this.registry[messageName].handlers : []];
    [None] is [undefined], read on the function found under an inherited
    name. *)
Definition messageHandlersOf (messageName : option string) (this : DefaultHandlerRegistry)
    : option (list Handler) :=
  match messageName with
  | Some n =>
      if name_truthy messageName then
        match readProperty (registry this) n with
        | Own entry => Some (handlers entry)
        | Inherited => None
        | Missing => Some []
        end
      else Some []
  | None => Some []
  end.

(** Spreading [undefined] into the array literal throws. *)
Definition get (message : Message) (this : DefaultHandlerRegistry)
    : result (list Handler) * DefaultHandlerRegistry :=
  let customHandlers := resolveCustomHandlers message this in
  let messageName := msg_name message in
  let noHandlersForMessage :=
    negb (negb (length customHandlers =? 0)%nat)
    && (negb (name_truthy messageName) || negb (nameInRegistry messageName this)) in
  if noHandlersForMessage then
    match messageName with
    | Some n =>
        if name_truthy messageName && negb (existsb (String.eqb n) (unhandledMessages this))
        then (Ok [], {| registry := registry this;
                        registryKeys := registryKeys this;
                        unhandledMessages := unhandledMessages this ++ [n];
                        handlerResolvers := handlerResolvers this |})
        else (Ok [], this)
    | None => (Ok [], this)
    end
  else
    match messageHandlersOf messageName this with
    | Some messageHandlers => (Ok (messageHandlers ++ customHandlers), this)
    | None => (Throw (TypeError "messageHandlers is not iterable"), this)
    end.

(** [Object.keys(this.registry)] *)
Definition getMessageNames (this : DefaultHandlerRegistry) : list string :=
  objectKeys (registryKeys this).

Definition getMessageConstructor (messageName : string) (this : DefaultHandlerRegistry)
    : option MessageType :=
  if negb (hasProperty (registry this) messageName) then None
  else
    match readProperty (registry this) messageName with
    | Own entry => Some (messageType entry)
    | _ => None
    end.

(** [this.registry = {}] *)
Definition reset (this : DefaultHandlerRegistry) : DefaultHandlerRegistry :=
  {| registry := ∅;
     registryKeys := [];
     unhandledMessages := unhandledMessages this;
     handlerResolvers := handlerResolvers this |}.

End HandlerRegistryResolvers.

(** ** Workflow states, mappings and state constructors *)

(** Modelled from the spec: the enum [WorkflowStatus] of workflow-state.ts
    (status is one of Running, Complete, Discard).  The members are the
    strings the SQL query compares [$status] with. *)
Definition Running : value := VStr "running".
Definition Complete : value := VStr "complete".
Definition Discard : value := VStr "discard".

Record MessageAttributes : Type := mkAttributes {
  correlationId : option string;
  attributes : props;
  stickyAttributes : props
}.

(** [MessageWorkflowMapping]: [lookup] computes the key from the message
    and its attributes, [mapsTo] names the state field to compare with. *)
Record MessageWorkflowMapping : Type := mkMapping {
  lookup : Message -> MessageAttributes -> value;
  mapsTo : string
}.

(** [ClassConstructor<WorkflowState>]: the class name and the instance
    [new stateType()] builds. *)
Record StateType : Type := mkStateType {
  className : string;
  newInstance : props
}.

(** [Serializer] (serializer.ts): the four conversions of the interface,
    on the property maps of the objects. *)
Record Serializer : Type := mkSerializer {
  serialize : props -> string;
  deserialize : string -> StateType -> props;
  toPlain : props -> props;
  toClass : props -> StateType -> props
}.

(** ** In-memory persistence (in-memory-persistence.ts) *)

Module InMemoryPersistence.

(** [WorkflowStorage]: rows by workflow state name. *)
Abbreviation WorkflowStorage := (gmap string (list props)).

(** [private workflowState: WorkflowStorage = {}] *)
Definition newStorage : WorkflowStorage := ∅.

(** [this.workflowState[name] = []].  Under the name [__proto__] the
    assignment runs the accessor of [Object.prototype] and makes the new
    array the prototype of the object; a read under [__proto__] then gives
    that array, as it does for an own property, so the array is kept under
    the key here too.  The names the object inherits from an array that is
    its prototype ([length], [push], ...) are not modelled: the properties
    about names that were never initialised ask for no entry under
    [__proto__]. *)
Definition initializeWorkflow (workflowStateConstructor : StateType)
    (mappings : list MessageWorkflowMapping) (this : WorkflowStorage)
    : WorkflowStorage * result unit :=
  let name := to_property_key (get (newInstance workflowStateConstructor) "$name") in
  (<[name := []]> this, Ok tt).

(** The predicate of the [filter] in [getWorkflowState]. *)
Definition matchesRow (includeCompleted : option bool) (messageMap : MessageWorkflowMapping)
    (filterValue : value) (data : props) : bool :=
  (default false includeCompleted || strict_eq (get data "$status") Running)
  && strict_eq (get data (mapsTo messageMap)) filterValue.

(** What is found under a name inherited from [Object.prototype] is
    truthy, so it passes the guard, and has no [filter]. *)
Definition getWorkflowState (workflowStateConstructor : StateType)
    (messageMap : MessageWorkflowMapping) (message : Message) (context : MessageAttributes)
    (includeCompleted : option bool) (this : WorkflowStorage) : result (list props) :=
  let filterValue := lookup messageMap message context in
  if negb (truthy filterValue) then Ok []
  else
    let workflowStateName :=
      to_property_key (get (newInstance workflowStateConstructor) "$name") in
    match readProperty this workflowStateName with
    | Missing => Throw (WorkflowStateNotInitialized "Workflow data not initialized")
    | Inherited => Throw (TypeError "workflowState.filter is not a function")
    | Own workflowState =>
        Ok (List.filter (matchesRow includeCompleted messageMap filterValue) workflowState)
    end.

(** [Object.assign(existingItem, workflowState)] on the first row that
    [find] selects; [None] when [find] selects no row. *)
Fixpoint assignToFirst (workflowState : props) (rows : list props) : option (list props) :=
  match rows with
  | [] => None
  | d :: rest =>
      if strict_eq (get d "$workflowId") (get workflowState "$workflowId")
      then Some (spread d workflowState :: rest)
      else cons d <$> assignToFirst workflowState rest
  end.

(** The rows are plain extensible objects, on which [Object.assign] does
    not throw, so the [catch] around it is never entered. *)
Definition saveWorkflowState (workflowState : props) (this : WorkflowStorage)
    : WorkflowStorage * result unit :=
  let workflowStateName := to_property_key (get workflowState "$name") in
  match readProperty this workflowStateName with
  | Missing => (this, Throw (TypeError "Cannot read properties of undefined (reading 'find')"))
  | Inherited => (this, Throw (TypeError "existingWorkflowState.find is not a function"))
  | Own existingWorkflowState =>
      match assignToFirst workflowState existingWorkflowState with
      | Some updated => (<[workflowStateName := updated]> this, Ok tt)
      | None =>
          (<[workflowStateName := existingWorkflowState ++ [workflowState]]> this, Ok tt)
      end
  end.

(** [length(workflowStateConstructor)] reads under the constructor's
    [name], not under the [$name] of its instances. *)
Definition length (workflowStateConstructor : StateType) (this : WorkflowStorage)
    : result value :=
  match readProperty this (className workflowStateConstructor) with
  | Missing => Throw (TypeError "Cannot read properties of undefined (reading 'length')")
  | Inherited => Ok (inheritedLength (className workflowStateConstructor))
  | Own rows => Ok (VNum (Z.of_nat (List.length rows)))
  end.

End InMemoryPersistence.

(** ** Postgres persistence *)

Module PostgresPersistence.

(** A row of a workflow table [id uuid not null primary key, version
    integer not null, data jsonb not null], without its id. *)
Record Row : Type := mkRow {
  row_version : Z;
  row_data : props
}.

(** A table: its rows by the value of their id.  The primary key makes
    the id determine the row, and a table keeps its rows in no order. *)
Abbreviation Table := (gmap N Row).

(** The tables of the database by qualified name. *)
Abbreviation Database := (gmap string Table).

(** [WorkflowData] as [saveWorkflowData] reads it: [$workflowId],
    [$name], [$version], and the object's own properties, which the
    serializer's [toPlain] is given. *)
Record WorkflowData : Type := mkWorkflowData {
  wd_workflowId : string;
  wd_name : string;
  wd_version : Z;
  wd_own : props
}.

Definition inRange (lo hi : nat) (c : ascii) : bool :=
  ((lo <=? nat_of_ascii c) && (nat_of_ascii c <=? hi))%nat.

(** The complement of [/[^0-9a-zA-Z_.-]/]. *)
Definition legalCharacter (c : ascii) : bool :=
  inRange 48 57 c || inRange 97 122 c || inRange 65 90 c
  || inRange 95 95 c || inRange 46 46 c || inRange 45 45 c.

Definition isUpper (c : ascii) : bool := inRange 65 90 c.

Definition lowerChar (c : ascii) : ascii :=
  if isUpper c then ascii_of_nat (nat_of_ascii c + 32) else c.

Fixpoint filterString (p : ascii -> bool) (s : string) : string :=
  match s with
  | EmptyString => EmptyString
  | String c rest => if p c then String c (filterString p rest) else filterString p rest
  end.

Fixpoint toLowerCase (s : string) : string :=
  match s with
  | EmptyString => EmptyString
  | String c rest => String (lowerChar c) (toLowerCase rest)
  end.

(** [value.replace(/([A-Z])/g, c => `_${c.toLowerCase()}`)] *)
Fixpoint toSnakeCase (s : string) : string :=
  match s with
  | EmptyString => EmptyString
  | String c rest =>
      if isUpper c then String "_"%char (String (lowerChar c) (toSnakeCase rest))
      else String c (toSnakeCase rest)
  end.

Definition quote : string := String (ascii_of_nat 34) EmptyString.

Definition resolveQualifiedTableName (tableName schemaName : string) : string :=
  let normalizedTableName := toLowerCase (filterString legalCharacter tableName) in
  let formattedTableName := toSnakeCase normalizedTableName in
  (quote ++ schemaName ++ quote ++ "." ++ quote ++ formattedTableName ++ quote)%string.

(** The value of a hexadecimal digit. *)
Definition hexValue (c : ascii) : option N :=
  let d := nat_of_ascii c in
  if inRange 48 57 c then Some (N.of_nat (d - 48))
  else if inRange 97 102 c then Some (N.of_nat (d - 87))
  else if inRange 65 70 c then Some (N.of_nat (d - 55))
  else None.

(** The bytes of a [uuid] literal from the byte of index [index] on: two
    hexadecimal digits each, and a hyphen may follow a byte of odd index
    other than the last. *)
Fixpoint uuidBytes (remaining index : nat) (s : string) (acc : N) : option (N * string) :=
  match remaining with
  | O => Some (acc, s)
  | Datatypes.S remaining' =>
      match s with
      | String c1 (String c2 rest) =>
          match hexValue c1, hexValue c2 with
          | Some high, Some low =>
              let rest' :=
                match rest with
                | String "-"%char after =>
                    if (Nat.odd index && (index <? 15))%nat then after else rest
                | _ => rest
                end in
              uuidBytes remaining' (Datatypes.S index) rest' (acc * 256 + high * 16 + low)%N
          | _, _ => None
          end
      | _ => None
      end
  end.

(** How the database reads a text bound to a [uuid] column: sixteen
    bytes, in braces or not; [None] when the text is no [uuid]. *)
Definition uuid_in (s : string) : option N :=
  match s with
  | String "{"%char body =>
      match uuidBytes 16 0 body 0%N with
      | Some (u, String "}"%char EmptyString) => Some u
      | _ => None
      end
  | _ =>
      match uuidBytes 16 0 s 0%N with
      | Some (u, EmptyString) => Some u
      | _ => None
      end
  end.

(** The range of the type [integer]. *)
Definition inInteger (n : Z) : bool := (-2147483648 <=? n) && (n <=? 2147483647).

(** The errors of the database. *)
Definition relationMissing : exn := DatabaseError "relation does not exist".
Definition invalidUuid (id : string) : exn :=
  DatabaseError ("invalid input syntax for type uuid: " ++ quote ++ id ++ quote).
Definition outOfRange (n : Z) : exn :=
  DatabaseError ("value " ++ quote ++ pretty n ++ quote ++ " is out of range for type integer").
Definition invalidJson : exn := DatabaseError "invalid input syntax for type json".
Definition duplicateKey : exn :=
  DatabaseError "duplicate key value violates unique constraint".

Section Queries.

(** [getSerializer()]: the configured serializer. *)
Variable serializer : Serializer.
(** How the database reads a text bound to a [jsonb] column: the object
    it stores, [None] when the text is no JSON. *)
Variable jsonb_in : string -> option props.
(** The order in which the database returns the rows of a table: a
    query without [order by] promises none. *)
Variable rowOrder : Table -> list (N * Row).

(** [insert into t (id, version, data) values ($1, $2, $3)].  The
    parameters are bound in order; the first one the database cannot read
    for the type of its column fails the statement. *)
Definition sqlInsert (tableName : string) (id : string) (version : Z) (data : string)
    (db : Database) : Database * result unit :=
  match db !! tableName with
  | None => (db, Throw relationMissing)
  | Some table =>
      match uuid_in id with
      | None => (db, Throw (invalidUuid id))
      | Some u =>
          if negb (inInteger version) then (db, Throw (outOfRange version))
          else
            match jsonb_in data with
            | None => (db, Throw invalidJson)
            | Some json =>
                match table !! u with
                | Some _ => (db, Throw duplicateKey)
                | None =>
                    (<[tableName :=
                         <[u := {| row_version := version; row_data := json |}]> table]> db,
                     Ok tt)
                end
            end
      end
  end.

(** [update t set version = $1, data = $2 where id = $3 and version = $4]:
    the new database and [rowCount]. *)
Definition sqlUpdate (tableName : string) (newVersion : Z) (data : string)
    (id : string) (oldVersion : Z) (db : Database) : Database * result nat :=
  match db !! tableName with
  | None => (db, Throw relationMissing)
  | Some table =>
      if negb (inInteger newVersion) then (db, Throw (outOfRange newVersion))
      else
        match jsonb_in data with
        | None => (db, Throw invalidJson)
        | Some json =>
            match uuid_in id with
            | None => (db, Throw (invalidUuid id))
            | Some u =>
                if negb (inInteger oldVersion) then (db, Throw (outOfRange oldVersion))
                else
                  match table !! u with
                  | Some row =>
                      if row_version row =? oldVersion then
                        (<[tableName :=
                             <[u := {| row_version := newVersion; row_data := json |}]> table]>
                           db,
                         Ok 1%nat)
                      else (db, Ok 0%nat)
                  | None => (db, Ok 0%nat)
                  end
            end
        end
  end.

Definition upsertWorkflowData (tableName : string) (workflowId : string)
    (plainWorkflowData : props) (oldVersion newVersion : Z) (db : Database)
    : Database * result unit :=
  if oldVersion =? 0 then
    sqlInsert tableName workflowId newVersion (serialize serializer plainWorkflowData) db
  else
    match sqlUpdate tableName newVersion (serialize serializer plainWorkflowData)
            workflowId oldVersion db with
    | (db', Throw e) => (db', Throw e)
    | (db', Ok rowCount) =>
        if (rowCount =? 0)%nat
        then (db', Throw (WorkflowDataNotFound (VStr workflowId) tableName oldVersion))
        else (db', Ok tt)
    end.

Definition saveWorkflowData (schemaName : string) (workflowData : WorkflowData)
    (db : Database) : Database * result unit :=
  let tableName := resolveQualifiedTableName (wd_name workflowData) schemaName in
  let oldVersion := wd_version workflowData in
  let newVersion := oldVersion + 1 in
  let plainWorkflowData :=
    <["$version" := VNum newVersion]> (toPlain serializer (wd_own workflowData)) in
  upsertWorkflowData tableName (wd_workflowId workflowData) plainWorkflowData
    oldVersion newVersion db.

(** The text of a JSON scalar, as [data->>'f'] gives it for a field and
    as a query parameter is bound: SQL [NULL] ([None]) for [null] and
    [undefined]. *)
Definition jsonText (v : value) : option string :=
  match v with
  | VUndefined | VNull => None
  | VBool true => Some "true"
  | VBool false => Some "false"
  | VNum n => Some (pretty n)
  | VStr s => Some s
  end.

(** [data->>'field']: [NULL] for a missing field as well. *)
Definition fieldText (data : props) (field : string) : option string :=
  data !! field ≫= jsonText.

(** The [where] clause; a comparison with [NULL] selects nothing. *)
Definition selected (includeCompleted : bool) (workflowDataProperty : string)
    (parameter : option string) (r : Row) : bool :=
  (includeCompleted || bool_decide (fieldText (row_data r) "$status" = Some "running"))
  && match fieldText (row_data r) workflowDataProperty, parameter with
     | Some t, Some p => String.eqb t p
     | _, _ => false
     end.

(** [lookupMessage] and [workflowDataProperty] are this revision's names
    for the mapping's [lookup] and [mapsTo].  The driver hands each
    [data] back as the object the database stores. *)
Definition getWorkflowData (schemaName : string) (workflowDataConstructor : StateType)
    (messageMap : MessageWorkflowMapping) (message : Message)
    (messageOptions : MessageAttributes) (includeCompleted : bool) (db : Database)
    : result (list props) :=
  match get (newInstance workflowDataConstructor) "$name" with
  | VStr workflowDataName =>
      let tableName := resolveQualifiedTableName workflowDataName schemaName in
      let matcherValue := lookup messageMap message messageOptions in
      match db !! tableName with
      | None => Throw relationMissing
      | Some table =>
          Ok (map (fun workflowData => toClass serializer workflowData workflowDataConstructor)
                (map row_data
                   (List.filter
                      (selected includeCompleted (mapsTo messageMap) (jsonText matcherValue))
                      (map snd (rowOrder table)))))
      end
  | VUndefined => Throw (TypeError "Cannot read properties of undefined (reading 'replace')")
  | VNull => Throw (TypeError "Cannot read properties of null (reading 'replace')")
  | _ => Throw (TypeError "tableName.replace is not a function")
  end.

End Queries.

(** The first [replace] of [resolveIndexName]: every double quote is
    removed. *)
Definition removeQuotes (s : string) : string :=
  filterString (fun c => negb (Ascii.eqb c (ascii_of_nat 34))) s.

(** [s.replace('.', '_')]: a string pattern replaces the first occurrence
    only. *)
Fixpoint replaceFirstDot (s : string) : string :=
  match s with
  | EmptyString => EmptyString
  | String c rest =>
      if Ascii.eqb c "."%char then String "_"%char rest
      else String c (replaceFirstDot rest)
  end.

(** [fields.join('_')] *)
Fixpoint joinFields (fields : list string) : string :=
  match fields with
  | [] => EmptyString
  | [f] => f
  | f :: rest => (f ++ "_" ++ joinFields rest)%string
  end.

Definition resolveIndexName (tableName : string) (fields : list string) : string :=
  let normalizedTableName := replaceFirstDot (removeQuotes tableName) in
  (quote ++ normalizedTableName ++ "_" ++ joinFields fields ++ "_idx" ++ quote)%string.

End PostgresPersistence.

(** ** The workflow registry (workflow-registry.ts) *)

(** A state as a step sees it: the copied properties and the frozen flag
    that [Object.freeze] sets. *)
Record Snapshot : Type := mkSnapshot {
  own : props;
  frozen : bool
}.

(** [Object.freeze({...o})] *)
Definition freezeCopy (o : props) : Snapshot := {| own := o; frozen := true |}.

(** [WhenHandler]: a step gets [{message, attributes, state}] and returns
    a delta, or nothing ([None]), or throws. *)
Definition WhenHandler : Type :=
  Message -> MessageAttributes -> Snapshot -> result (option props).

Record OnWhenHandler : Type := mkOnWhen {
  when_handler : WhenHandler;
  when_options : MessageWorkflowMapping
}.

(** [Workflow]: the two [Map]s are kept as lists in insertion order. *)
Record Workflow : Type := mkWorkflow {
  workflowName : string;
  stateType : StateType;
  onStartedBy : list (MessageType * WhenHandler);
  onWhen : list (MessageType * OnWhenHandler)
}.

(** Modelled from the spec: the [Persistence] interface of persistence.ts
    (section 4.4: optional [initialize], [initializeWorkflow],
    [getWorkflowState], [saveWorkflowState]) over the backend's storage. *)
Record Persistence (S : Type) : Type := mkPersistence {
  p_initialize : option (S -> S * result unit);
  p_initializeWorkflow : StateType -> list MessageWorkflowMapping -> S -> S * result unit;
  p_getWorkflowState :
    StateType -> MessageWorkflowMapping -> Message -> MessageAttributes -> option bool ->
    S -> S * result (list props);
  p_saveWorkflowState : props -> S -> S * result unit
}.
Arguments p_initialize {S} _.
Arguments p_initializeWorkflow {S} _ _ _ _.
Arguments p_getWorkflowState {S} _ _ _ _ _ _ _.
Arguments p_saveWorkflowState {S} _ _ _.

(** The in-memory backend behind the interface. *)
Definition inMemory : Persistence InMemoryPersistence.WorkflowStorage :=
  {| p_initialize := None;
     p_initializeWorkflow := InMemoryPersistence.initializeWorkflow;
     p_getWorkflowState := fun c mm m a ic s =>
       (s, InMemoryPersistence.getWorkflowState c mm m a ic s);
     p_saveWorkflowState := InMemoryPersistence.saveWorkflowState |}.

(** The function objects the workflow registry creates and hands to the
    handler registry. *)
Inductive Closure : Type :=
| StartedByFn (workflow : Workflow) (handler : WhenHandler)
| HandlesFn (workflow : Workflow) (messageMapping : MessageWorkflowMapping)
    (handler : WhenHandler).

Inductive LogLevel : Type := LTrace | LDebug | LInfo | LWarn | LError | LFatal.

(** What the workflow registry does to its collaborators, in order. *)
Inductive Event : Type :=
| Log (level : LogLevel) (text : string)
| InvokeStep (message : Message) (attrs : MessageAttributes) (state : Snapshot)
| CallInitialize
| CallInitializeWorkflow (stateType : StateType) (mappings : list MessageWorkflowMapping)
| CallGetWorkflowState (stateType : StateType) (mapping : MessageWorkflowMapping)
    (message : Message) (attrs : MessageAttributes) (includeCompleted : option bool)
| CallSaveWorkflowState (state : props).

(** The process-wide singletons the module works on: the handler
    registry, the function objects allocated so far, the persistence's
    storage, the number of UUIDs drawn, the private fields of
    [WorkflowRegistry], and the trace of events. *)
Record World (S : Type) : Type := mkWorld {
  handlerRegistry : DefaultHandlerRegistry;
  functions : gmap positive Closure;
  nextFunction : positive;
  storage : S;
  uuidsDrawn : nat;
  workflowRegistry : list Workflow;
  isInitialized : bool;
  isInitializing : bool;
  trace : list Event
}.
Arguments mkWorld {S} _ _ _ _ _ _ _ _ _.
Arguments handlerRegistry {S} _.
Arguments functions {S} _.
Arguments nextFunction {S} _.
Arguments storage {S} _.
Arguments uuidsDrawn {S} _.
Arguments workflowRegistry {S} _.
Arguments isInitialized {S} _.
Arguments isInitializing {S} _.
Arguments trace {S} _.

(** State and exceptions. *)
Definition M (S A : Type) : Type := World S -> World S * result A.

Definition ret {S A} (a : A) : M S A := fun w => (w, Ok a).

Definition bind {S A B} (m : M S A) (k : A -> M S B) : M S B :=
  fun w => match m w with
           | (w', Ok a) => k a w'
           | (w', Throw e) => (w', Throw e)
           end.

Definition throw {S A} (e : exn) : M S A := fun w => (w, Throw e).

(** [try { m } catch (err) { h err }] *)
Definition tryCatch {S A} (m : M S A) (h : exn -> M S A) : M S A :=
  fun w => match m w with
           | (w', Ok a) => (w', Ok a)
           | (w', Throw e) => h e w'
           end.

Declare Scope workflow_scope.
Delimit Scope workflow_scope with workflow.
Notation "x <- m ;; k" := (bind m (fun x => k))
  (at level 100, m at next level, right associativity) : workflow_scope.
Notation "m ;; k" := (bind m (fun _ => k))
  (at level 100, right associativity) : workflow_scope.
Local Open Scope workflow_scope.

Definition emit {S} (e : Event) : M S unit :=
  fun w => (mkWorld (handlerRegistry w) (functions w) (nextFunction w) (storage w)
              (uuidsDrawn w) (workflowRegistry w) (isInitialized w) (isInitializing w)
              (trace w ++ [e]), Ok tt).

Definition log {S} (level : LogLevel) (text : string) : M S unit := emit (Log level text).

(** A call into the persistence: recorded, then run on the storage. *)
Definition callPersistence {S A} (e : Event) (f : S -> S * result A) : M S A :=
  emit e ;;
  fun w => let (s', r) := f (storage w) in
           (mkWorld (handlerRegistry w) (functions w) (nextFunction w) s'
              (uuidsDrawn w) (workflowRegistry w) (isInitialized w) (isInitializing w)
              (trace w), r).

(** A call of [handlerRegistry.register]. *)
Definition callRegister {S} (mt : MessageType) (h : Handler) : M S unit :=
  fun w => let (r', res) := HandlerRegistry.register mt h None None (handlerRegistry w) in
           (mkWorld r' (functions w) (nextFunction w) (storage w)
              (uuidsDrawn w) (workflowRegistry w) (isInitialized w) (isInitializing w)
              (trace w), res).

(** Evaluating an arrow function expression: a new function object. *)
Definition newFunction {S} (c : Closure) : M S Handler :=
  fun w => (mkWorld (handlerRegistry w) (<[nextFunction w := c]> (functions w))
              (Pos.succ (nextFunction w)) (storage w)
              (uuidsDrawn w) (workflowRegistry w) (isInitialized w) (isInitializing w)
              (trace w),
            Ok {| fn_ref := nextFunction w; fn_name := "" |}).

(** The fields of [WorkflowRegistry]. *)
Definition setWorkflows {S} (ws : list Workflow) (initialized initializing : bool) : M S unit :=
  fun w => (mkWorld (handlerRegistry w) (functions w) (nextFunction w) (storage w)
              (uuidsDrawn w) ws initialized initializing (trace w), Ok tt).

Definition readWorld {S} : M S (World S) := fun w => (w, Ok w).

(** [array.forEach(f)] *)
Fixpoint forEach {S A} (f : A -> M S unit) (l : list A) : M S unit :=
  match l with
  | [] => ret tt
  | x :: rest => f x ;; forEach f rest
  end.

Module WorkflowRegistry.

Section WithPersistence.

Context {S : Type}.
(** [getPersistence()]: the configured persistence. *)
Variable persistence : Persistence S.
(** [uuid.v4()]: the n-th identifier the generator hands out. *)
Variable uuid_v4 : nat -> string.

Definition drawUuid : M S string :=
  fun w => (mkWorld (handlerRegistry w) (functions w) (nextFunction w) (storage w)
              (Datatypes.S (uuidsDrawn w)) (workflowRegistry w) (isInitialized w)
              (isInitializing w) (trace w),
            Ok (uuid_v4 (uuidsDrawn w))).

Definition createWorkflowState (workflowStateType : StateType) : M S props :=
  let data := newInstance workflowStateType in
  let data := <["$status" := Running]> data in
  id <- drawUuid ;;
  ret (<["$workflowId" := VStr id]> data).

(** [await handler({ message, attributes, state })] *)
Definition invoke (handler : WhenHandler) (message : Message) (attrs : MessageAttributes)
    (state : Snapshot) : M S (option props) :=
  emit (InvokeStep message attrs state) ;;
  match handler message attrs state with
  | Ok output => ret output
  | Throw e => throw e
  end.

Definition persist (data : props) : M S unit :=
  tryCatch
    (callPersistence (CallSaveWorkflowState data) (p_saveWorkflowState persistence data) ;;
     log LInfo "Saving workflow state")
    (fun err => log LError "Error persisting workflow state" ;; throw err).

Definition dispatchMessageToWorkflow (message : Message) (attrs : MessageAttributes)
    (workflowName : string) (workflowState : props) (workflowStateConstructor : StateType)
    (handler : WhenHandler) : M S unit :=
  let immutableWorkflowState := freezeCopy workflowState in
  workflowStateOutput <- invoke handler message attrs immutableWorkflowState ;;
  match workflowStateOutput with
  | Some output =>
      if strict_eq (get output "$status") Discard then
        log LDebug
          "Workflow step is discarding state changes. State changes will not be persisted"
      else
        log LDebug "Changes detected in workflow state and will be persisted." ;;
        let updatedWorkflowState :=
          assign3 (newInstance workflowStateConstructor) workflowState output in
        tryCatch (persist updatedWorkflowState)
          (fun error => log LWarn "Error persisting workflow state" ;; throw error)
  | None => log LTrace "No changes detected in workflow state."
  end.

(** The body of the function [registerFnStartedBy] registers. *)
Definition startedByFn (workflow : Workflow) (handler : WhenHandler)
    (message : Message) (attrs : MessageAttributes) : M S unit :=
  workflowState <- createWorkflowState (stateType workflow) ;;
  let immutableWorkflowState := freezeCopy workflowState in
  result <- invoke handler message attrs immutableWorkflowState ;;
  match result with
  | Some delta =>
      let merged := spread workflowState delta in
      callPersistence (CallSaveWorkflowState merged) (p_saveWorkflowState persistence merged)
  | None => ret tt
  end.

(** The dispatches that [registerFnHandles] starts for the rows found run
    together: [dispatchMessageToWorkflow] is asynchronous, so each call
    made by [workflowState.map] runs up to its first [await] and the rest
    of it runs when it is resumed.  A step's outcome is that of the
    promise it returns, a call of the persistence takes effect when it is
    made, and every promise is settled as soon as it can be. *)

(** A dispatch up to its first [await]: the step is called. *)
Definition dispatchCall (message : Message) (attrs : MessageAttributes)
    (workflowState : props) (handler : WhenHandler) : M S (result (option props)) :=
  let immutableWorkflowState := freezeCopy workflowState in
  emit (InvokeStep message attrs immutableWorkflowState) ;;
  ret (handler message attrs immutableWorkflowState).

(** Where a dispatch stands after it was resumed with the step's
    outcome: settled, or suspended in [persist] on the promise of
    [saveWorkflowState]. *)
Inductive Dispatch : Type :=
| Settled (outcome : result unit)
| AwaitSave (saved : result unit).

(** A dispatch from the step's outcome up to its next [await]. *)
Definition dispatchOutcome (workflowName : string) (workflowState : props)
    (workflowStateConstructor : StateType)
    (workflowStateOutput : result (option props)) : M S Dispatch :=
  match workflowStateOutput with
  | Throw e => ret (Settled (Throw e))
  | Ok (Some output) =>
      if strict_eq (get output "$status") Discard then
        log LDebug
          "Workflow step is discarding state changes. State changes will not be persisted" ;;
        ret (Settled (Ok tt))
      else
        log LDebug "Changes detected in workflow state and will be persisted." ;;
        let updatedWorkflowState :=
          assign3 (newInstance workflowStateConstructor) workflowState output in
        fun w =>
          match callPersistence (CallSaveWorkflowState updatedWorkflowState)
                  (p_saveWorkflowState persistence updatedWorkflowState) w with
          | (w', saved) => (w', Ok (AwaitSave saved))
          end
  | Ok None =>
      log LTrace "No changes detected in workflow state." ;;
      ret (Settled (Ok tt))
  end.

(** [persist] resumed with the outcome of [saveWorkflowState]. *)
Definition persistResume (d : Dispatch) : M S Dispatch :=
  match d with
  | AwaitSave (Ok _) => log LInfo "Saving workflow state" ;; ret d
  | AwaitSave (Throw _) => log LError "Error persisting workflow state" ;; ret d
  | Settled _ => ret d
  end.

(** A dispatch resumed with the outcome of [persist]. *)
Definition dispatchResume (d : Dispatch) : M S (result unit) :=
  match d with
  | AwaitSave (Ok _) => ret (Ok tt)
  | AwaitSave (Throw e) => log LWarn "Error persisting workflow state" ;; ret (Throw e)
  | Settled outcome => ret outcome
  end.

(** [array.map(f)] with an effectful [f]. *)
Fixpoint mapM {A B} (f : A -> M S B) (l : list A) : M S (list B) :=
  match l with
  | [] => ret []
  | x :: rest => y <- f x ;; ys <- mapM f rest ;; ret (y :: ys)
  end.

(** The first rejection among settled promises, in order. *)
Fixpoint firstRejection (outcomes : list (result unit)) : option exn :=
  match outcomes with
  | [] => None
  | Throw e :: _ => Some e
  | Ok _ :: rest => firstRejection rest
  end.

(** The outcome of a dispatch that settled without suspending in [persist]. *)
Definition settledEarly (d : Dispatch) : result unit :=
  match d with
  | Settled outcome => outcome
  | AwaitSave _ => Ok tt
  end.

(** [await Promise.all(workflowState.map(state => dispatchMessageToWorkflow(..)))]:
    the steps are called one after the other by [map]; the dispatches are
    then resumed in the order of the rows, each up to its call of
    [saveWorkflowState]; then [persist] is resumed in each, then the
    dispatch itself.  [Promise.all] rejects with the first rejection in
    time: that of a step, which settles its dispatch before any [persist]
    is resumed, else that of a save. *)
Definition dispatchAll (message : Message) (attrs : MessageAttributes)
    (workflowName : string) (workflowStateConstructor : StateType) (handler : WhenHandler)
    (states : list props) : M S unit :=
  outputs <- mapM (fun state => dispatchCall message attrs state handler) states ;;
  resumed <- mapM (fun '(state, output) =>
                     dispatchOutcome workflowName state workflowStateConstructor output)
                  (zip states outputs) ;;
  persisted <- mapM persistResume resumed ;;
  outcomes <- mapM dispatchResume persisted ;;
  match firstRejection (map settledEarly resumed) with
  | Some e => throw e
  | None =>
      match firstRejection outcomes with
      | Some e => throw e
      | None => ret tt
      end
  end.

(** The body of the function [registerFnHandles] registers. *)
Definition handlesFn (workflow : Workflow) (messageMapping : MessageWorkflowMapping)
    (handler : WhenHandler) (message : Message) (attrs : MessageAttributes) : M S unit :=
  workflowState <-
    callPersistence
      (CallGetWorkflowState (stateType workflow) messageMapping message attrs (Some false))
      (p_getWorkflowState persistence (stateType workflow) messageMapping message attrs
         (Some false)) ;;
  if (List.length workflowState =? 0)%nat then
    log LInfo "No existing workflow state found for message. Ignoring."
  else
    dispatchAll message attrs (workflowName workflow) (stateType workflow) handler
      workflowState.

(** Calling a function object of the workflow registry. *)
Definition runClosure (c : Closure) (message : Message) (attrs : MessageAttributes) : M S unit :=
  match c with
  | StartedByFn workflow handler => startedByFn workflow handler message attrs
  | HandlesFn workflow messageMapping handler =>
      handlesFn workflow messageMapping handler message attrs
  end.

Definition registerFnStartedBy (workflow : Workflow) : M S unit :=
  forEach
    (fun '(messageConstructor, handler) =>
       fn <- newFunction (StartedByFn workflow handler) ;;
       callRegister messageConstructor fn)
    (onStartedBy workflow).

Definition registerFnHandles (workflow : Workflow) : M S unit :=
  forEach
    (fun '(messageConstructor, handler) =>
       let messageMapping :=
         {| lookup := lookup (when_options handler);
            mapsTo := mapsTo (when_options handler) |} in
       fn <- newFunction (HandlesFn workflow messageMapping (when_handler handler)) ;;
       callRegister messageConstructor fn)
    (onWhen workflow).

(** [WorkflowRegistry.register] *)
Definition register (workflow : Workflow) : M S unit :=
  w <- readWorld ;;
  if isInitialized w then
    throw (Error ("Attempted to register workflow (" ++ workflowName workflow
                  ++ ") after workflows have been initialized"))
  else
    let duplicateWorkflowName :=
      existsb (fun r => String.eqb (workflowName r) (workflowName workflow))
        (workflowRegistry w) in
    if duplicateWorkflowName then
      throw (Error ("Attempted to register two workflows with the same name ("
                    ++ workflowName workflow ++ ")"))
    else
      setWorkflows (workflowRegistry w ++ [workflow]) (isInitialized w) (isInitializing w).

(** [initialize] is asynchronous: it runs up to an [await], and goes on
    when it is resumed.  The points it can be suspended at: *)
Inductive Suspension : Type :=
| AwaitInitializeWorkflow (index : nat)
| AwaitPersistenceInitialize.

(** Where a call of [initialize] stands: suspended, or returned. *)
Inductive Progress : Type :=
| Suspended (at_ : Suspension)
| Returned.

(** The last statements of [initialize]. *)
Definition initializeEnd : M S Progress :=
  w <- readWorld ;;
  setWorkflows (workflowRegistry w) true false ;;
  log LInfo "Workflows initialized" ;;
  ret Returned.

(** The [for ... of this.workflowRegistry] loop from the iterator's
    position [index] up to the next [await], and what follows the loop. *)
Definition initializeLoop (index : nat) : M S Progress :=
  w <- readWorld ;;
  match workflowRegistry w !! index with
  | Some workflow =>
      registerFnStartedBy workflow ;;
      registerFnHandles workflow ;;
      let messageWorkflowMappings := map (fun '(_, h) => when_options h) (onWhen workflow) in
      callPersistence (CallInitializeWorkflow (stateType workflow) messageWorkflowMappings)
        (p_initializeWorkflow persistence (stateType workflow) messageWorkflowMappings) ;;
      ret (Suspended (AwaitInitializeWorkflow index))
  | None =>
      setWorkflows [] (isInitialized w) (isInitializing w) ;;
      match p_initialize persistence with
      | Some init =>
          callPersistence CallInitialize init ;;
          ret (Suspended AwaitPersistenceInitialize)
      | None => initializeEnd
      end
  end.

(** A call of [initialize()], up to its first [await] or its return. *)
Definition initializeCall : M S Progress :=
  w <- readWorld ;;
  if (List.length (workflowRegistry w) =? 0)%nat then
    log LInfo "No workflows registered, skipping this step." ;;
    ret Returned
  else if isInitialized w || isInitializing w then
    throw (Error
      "Attempted to initialize workflow registry after it has already been initialized.")
  else
    setWorkflows (workflowRegistry w) (isInitialized w) true ;;
    log LInfo "Initializing workflows..." ;;
    initializeLoop 0.

(** Resuming a suspended call. *)
Definition initializeResume (at_ : Suspension) : M S Progress :=
  match at_ with
  | AwaitInitializeWorkflow index =>
      log LDebug "Workflow initialized" ;;
      initializeLoop (Datatypes.S index)
  | AwaitPersistenceInitialize => initializeEnd
  end.

(** A call run to its end with nothing else in between; [fuel] bounds the
    number of resumptions. *)
Fixpoint initializeRun (fuel : nat) (p : Progress) : M S (option unit) :=
  match p with
  | Returned => ret (Some tt)
  | Suspended at_ =>
      match fuel with
      | O => ret None
      | Datatypes.S fuel' => p' <- initializeResume at_ ;; initializeRun fuel' p'
      end
  end.

(** [await workflowRegistry.initialize()] with no other task interleaved;
    the loop suspends once per workflow and once more for the
    persistence's [initialize]. *)
Definition initialize : M S (option unit) :=
  w <- readWorld ;;
  p <- initializeCall ;;
  initializeRun (Datatypes.S (List.length (workflowRegistry w))) p.

End WithPersistence.

End WorkflowRegistry.

(** ** Definitions used to state the properties *)

(** The result the specification gives for [get]: the handlers keyed by
    the message's [$name], when that name is registered, followed by the
    handlers of the resolvers that accept the message. *)
Definition keyedHandlers (message : Message) (this : DefaultHandlerRegistry) : list Handler :=
  match msg_name message with
  | Some n => handlersFor this n
  | None => []
  end.

Definition acceptedHandlers (message : Message) (this : DefaultHandlerRegistry) : list Handler :=
  map hr_handler (List.filter (fun hr => hr_resolver hr message) (handlerResolvers this)).

Definition get_spec (message : Message) (this : DefaultHandlerRegistry) : list Handler :=
  keyedHandlers message this ++ acceptedHandlers message this.

(** Calls on a handler registry; [Q] is what [get] is asked with (the
    message in one revision, the message name in the other). *)
Inductive RegistryCall (Q : Type) : Type :=
| DoRegister (mt : MessageType) (handler : Handler)
    (resolveWith : option (Message -> bool)) (topicIdentifier : option string)
| DoGet (query : Q)
| DoReset.
Arguments DoRegister {Q} _ _ _ _.
Arguments DoGet {Q} _.
Arguments DoReset {Q}.

Definition applyCall (c : RegistryCall Message) (this : DefaultHandlerRegistry)
    : DefaultHandlerRegistry :=
  match c with
  | DoRegister mt h rw t => fst (HandlerRegistryResolvers.register mt h rw t this)
  | DoGet m => snd (HandlerRegistryResolvers.get m this)
  | DoReset => HandlerRegistryResolvers.reset this
  end.

Definition applyCallPlain (c : RegistryCall string) (this : DefaultHandlerRegistry)
    : DefaultHandlerRegistry :=
  match c with
  | DoRegister mt h rw t => fst (HandlerRegistry.register mt h rw t this)
  | DoGet n => snd (HandlerRegistry.get n this)
  | DoReset => HandlerRegistry.reset this
  end.

(** The registry after a sequence of calls, first call first. *)
Definition runCalls {Q} (apply : RegistryCall Q -> DefaultHandlerRegistry -> DefaultHandlerRegistry)
    (calls : list (RegistryCall Q)) (this : DefaultHandlerRegistry) : DefaultHandlerRegistry :=
  fold_left (fun r c => apply c r) calls this.

(** The resolver entries a sequence of calls registers, in call order. *)
Fixpoint resolversRegistered (calls : list (RegistryCall Message)) : list HandlerResolver :=
  match calls with
  | [] => []
  | DoRegister mt h (Some p) t :: rest =>
      {| hr_handler := h; hr_resolver := p; hr_messageType := Some mt;
         hr_topicIdentifier := t |} :: resolversRegistered rest
  | _ :: rest => resolversRegistered rest
  end.

(** The handlers registered under the name [n], in registration order:
    a registration adds the handler at the end unless it is there
    already, a reset forgets them. *)
Definition keyedStep {Q} (n : string) (acc : list Handler) (c : RegistryCall Q) : list Handler :=
  match c with
  | DoRegister mt h _ _ =>
      if decide (ctor_name mt = n) then
        if someSame h acc then acc else acc ++ [h]
      else acc
  | DoGet _ => acc
  | DoReset => []
  end.

Definition keyedRegistered {Q} (n : string) (calls : list (RegistryCall Q)) : list Handler :=
  fold_left (keyedStep n) calls [].

(** The name a state constructor's rows are stored under. *)
Definition stateName (workflowStateConstructor : StateType) : string :=
  to_property_key (get (newInstance workflowStateConstructor) "$name").

(** The rows the specification selects: the field named by [mapsTo]
    equals the key, and the status is Running unless completed rows are
    asked for. *)
Definition activeMatch (includeCompleted : option bool) (field : string) (key : value)
    (data : props) : Prop :=
  get data field = key
  /\ (get data "$status" = Running \/ includeCompleted = Some true).

#[global] Instance activeMatch_dec ic field key data : Decision (activeMatch ic field key data).
Proof. unfold activeMatch. apply _. Defined.

(** Calls that change the in-memory storage. *)
Inductive StorageCall : Type :=
| InitializeWorkflow (workflowStateConstructor : StateType)
    (mappings : list MessageWorkflowMapping)
| SaveWorkflowState (workflowState : props).

Definition applyStorageCall (c : StorageCall) (this : InMemoryPersistence.WorkflowStorage)
    : InMemoryPersistence.WorkflowStorage :=
  match c with
  | InitializeWorkflow ctor mappings =>
      fst (InMemoryPersistence.initializeWorkflow ctor mappings this)
  | SaveWorkflowState state => fst (InMemoryPersistence.saveWorkflowState state this)
  end.

Definition runStorageCalls (calls : list StorageCall)
    (this : InMemoryPersistence.WorkflowStorage) : InMemoryPersistence.WorkflowStorage :=
  fold_left (fun s c => applyStorageCall c s) calls this.

(** [initializeWorkflow] is among the calls for a constructor whose
    instances carry the name [n]. *)
Definition initializes (n : string) (c : StorageCall) : Prop :=
  match c with
  | InitializeWorkflow ctor _ => stateName ctor = n
  | SaveWorkflowState _ => False
  end.

(** The world with events added to its trace, with another storage, and
    with one more UUID drawn. *)
Definition addEvents {S} (events : list Event) (w : World S) : World S :=
  mkWorld (handlerRegistry w) (functions w) (nextFunction w) (storage w)
    (uuidsDrawn w) (workflowRegistry w) (isInitialized w) (isInitializing w)
    (trace w ++ events).

Definition setStorage {S} (s : S) (w : World S) : World S :=
  mkWorld (handlerRegistry w) (functions w) (nextFunction w) s
    (uuidsDrawn w) (workflowRegistry w) (isInitialized w) (isInitializing w)
    (trace w).

Definition uuidDrawn {S} (w : World S) : World S :=
  mkWorld (handlerRegistry w) (functions w) (nextFunction w) (storage w)
    (Datatypes.S (uuidsDrawn w)) (workflowRegistry w) (isInitialized w) (isInitializing w)
    (trace w).

(** The [$version] of [merge(fresh, old, delta)] as the dispatcher builds
    it: the delta's when it has one, else the old state's, else the fresh
    instance's. *)
Definition mergedVersion (fresh old delta : props) : value :=
  match delta !! "$version" with
  | Some v => v
  | None =>
      match old !! "$version" with
      | Some v => v
      | None => get fresh "$version"
      end
  end.

(** The events that follow the call of [saveWorkflowState] in the
    dispatcher, by the call's outcome. *)
Definition afterSave (r : result unit) : list Event :=
  match r with
  | Ok _ => [Log LInfo "Saving workflow state"]
  | Throw _ => [Log LError "Error persisting workflow state";
                Log LWarn "Error persisting workflow state"]
  end.

(** The calls of [saveWorkflowState] in a trace. *)
Definition savedStates (events : list Event) : list props :=
  omap (fun e => match e with CallSaveWorkflowState s => Some s | _ => None end) events.

(** The state [createWorkflowState] builds in the world [w]. *)
Definition createdState {S} (uuid_v4 : nat -> string) (ctor : StateType) (w : World S) : props :=
  <["$workflowId" := VStr (uuid_v4 (uuidsDrawn w))]>
    (<["$status" := Running]> (newInstance ctor)).

(** Every function object registered as a handler was allocated before
    the next one the workflow registry will create. *)
Definition refsBelow {S} (w : World S) : Prop :=
  forall n h, In h (handlersFor (handlerRegistry w) n) -> (fn_ref h < nextFunction w)%positive.

(** [w'] keeps the function objects and the registrations of [w]. *)
Definition extends {S} (w w' : World S) : Prop :=
  (nextFunction w <= nextFunction w')%positive
  /\ (forall k, (k < nextFunction w)%positive -> functions w' !! k = functions w !! k)
  /\ (forall n h, In h (handlersFor (handlerRegistry w) n) ->
                  In h (handlersFor (handlerRegistry w') n)).

(** A function object with the body [c] is registered under [mt]'s name. *)
Definition installed {S} (mt : MessageType) (c : Closure) (w : World S) : Prop :=
  exists h, In h (handlersFor (handlerRegistry w) (ctor_name mt))
            /\ (fn_ref h < nextFunction w)%positive
            /\ functions w !! fn_ref h = Some c.

(** [w'] differs from [w] at most in the handler registry and the
    function objects. *)
Definition sameOutsideRegistry {S} (w w' : World S) : Prop :=
  storage w' = storage w /\ trace w' = trace w
  /\ workflowRegistry w' = workflowRegistry w
  /\ isInitialized w' = isInitialized w /\ isInitializing w' = isInitializing w
  /\ uuidsDrawn w' = uuidsDrawn w.

(** The function objects of every [onStartedBy] pair of [workflow] are
    installed. *)
Definition startersInstalled {S} (workflow : Workflow) (w : World S) : Prop :=
  forall mt step, In (mt, step) (onStartedBy workflow) ->
    installed mt (StartedByFn workflow step) w.

(** [w'] has the handler registry and the function objects of [w]. *)
Definition sameRegistry {S} (w w' : World S) : Prop :=
  handlerRegistry w' = handlerRegistry w
  /\ functions w' = functions w
  /\ nextFunction w' = nextFunction w.

(** The error [e] is one that a call of the persistence's
    [initializeWorkflow] or [initialize] raises. *)
Definition persistenceThrows {S} (persistence : Persistence S) (e : exn) : Prop :=
  (exists ctor mappings s, (p_initializeWorkflow persistence ctor mappings s).2 = Throw e)
  \/ (exists init s, p_initialize persistence = Some init /\ (init s).2 = Throw e).

(** The constructor kept for the name [n]: the one of the first
    registration under [n] since the last reset. *)
Definition constructorStep {Q} (n : string) (acc : option MessageType) (c : RegistryCall Q)
    : option MessageType :=
  match c with
  | DoRegister mt _ _ _ =>
      match acc with
      | Some kept => Some kept
      | None => if decide (ctor_name mt = n) then Some mt else None
      end
  | DoGet _ => acc
  | DoReset => None
  end.

Definition constructorRegistered {Q} (n : string) (calls : list (RegistryCall Q))
    : option MessageType :=
  fold_left (constructorStep n) calls None.

(** The [$workflowId]s of stored rows. *)
Definition workflowIds (rows : list props) : list value :=
  map (fun d => get d "$workflowId") rows.

(** The steps invoked in a trace, with the state each was given. *)
Definition invokedSteps (events : list Event) : list (Message * MessageAttributes * Snapshot) :=
  omap (fun e => match e with InvokeStep m a s => Some (m, a, s) | _ => None end) events.

(** The state types [initializeWorkflow] was called for in a trace. *)
Definition initializedTypes (events : list Event) : list StateType :=
  omap (fun e => match e with CallInitializeWorkflow st _ => Some st | _ => None end) events.

(** The function objects of every [onWhen] pair of [workflow] are
    installed. *)
Definition handlersInstalled {S} (workflow : Workflow) (w : World S) : Prop :=
  forall mt h, In (mt, h) (onWhen workflow) ->
    installed mt
      (HandlesFn workflow
         {| lookup := lookup (when_options h); mapsTo := mapsTo (when_options h) |}
         (when_handler h)) w.

(** A string has no capital letter. *)
Fixpoint noUpper (s : string) : bool :=
  match s with
  | EmptyString => true
  | String c rest => negb (PostgresPersistence.isUpper c) && noUpper rest
  end.

(** The number of capital letters of a string. *)
Fixpoint countUpper (s : string) : nat :=
  match s with
  | EmptyString => 0%nat
  | String c rest =>
      ((if PostgresPersistence.isUpper c then 1 else 0) + countUpper rest)%nat
  end.

(** A string has neither a double quote nor a dot. *)
Fixpoint plainName (s : string) : bool :=
  match s with
  | EmptyString => true
  | String c rest =>
      negb (Ascii.eqb c (ascii_of_nat 34)) && negb (Ascii.eqb c "."%char) && plainName rest
  end.

(** Every entry of the registry holds at least one handler. *)
Definition entriesNonEmpty (r : DefaultHandlerRegistry) : Prop :=
  forall n e, registry r !! n = Some e -> handlers e <> [].

(** The singletons at program start, over a persistence storage. *)
Definition newWorld {S} (s : S) : World S :=
  mkWorld newRegistry ∅ 1%positive s 0%nat [] false false [].

(** The world after [WorkflowRegistry.register] was called for each
    workflow in turn, whatever each call's outcome. *)
Definition registerAll {S} (workflows : list Workflow) (w : World S) : World S :=
  fold_left (fun w workflow => fst (WorkflowRegistry.register workflow w)) workflows w.

(** The mappings [initialize] passes to [initializeWorkflow]. *)
Definition mappingsOf (workflow : Workflow) : list MessageWorkflowMapping :=
  map (fun '(_, h) => when_options h) (onWhen workflow).

(** The storage after [initializeWorkflow] was called for each workflow
    in turn. *)
Definition workflowsInitialized {S} (persistence : Persistence S) (workflows : list Workflow)
    (s : S) : S :=
  fold_left
    (fun s workflow =>
       fst (p_initializeWorkflow persistence (stateType workflow) (mappingsOf workflow) s))
    workflows s.

(** The storage after the persistence's own [initialize], when it has one. *)
Definition persistenceInitialized {S} (persistence : Persistence S) (s : S) : S :=
  match p_initialize persistence with
  | Some init => fst (init s)
  | None => s
  end.

(** No entry of the registry is kept under a name that objects inherit:
    [register] creates none. *)
Definition ownNotInherited (r : DefaultHandlerRegistry) : Prop :=
  forall n, inherited n = true -> registry r !! n = None.

(** The names of the registry's entries, in the order the entries were
    created. *)
Definition keysMatch (r : DefaultHandlerRegistry) : Prop :=
  NoDup (registryKeys r) /\ forall n, n ∈ registryKeys r <-> is_Some (registry r !! n).

(** For the examples: the JSON text of an object whose values are
    numbers, booleans, [null] and strings without characters to escape
    (a property whose value is [undefined] is left out), a serializer that
    writes it and leaves classes alone, and the database's reading of the
    texts of the objects of an example. *)
Definition jsonMember (member : string * value) : option string :=
  let name := (PostgresPersistence.quote ++ member.1 ++ PostgresPersistence.quote ++ ":")%string in
  match member.2 with
  | VUndefined => None
  | VNull => Some (name ++ "null")%string
  | VBool true => Some (name ++ "true")%string
  | VBool false => Some (name ++ "false")%string
  | VNum n => Some (name ++ pretty n)%string
  | VStr t =>
      Some (name ++ PostgresPersistence.quote ++ t ++ PostgresPersistence.quote)%string
  end.

Fixpoint joinMembers (members : list string) : string :=
  match members with
  | [] => EmptyString
  | [member] => member
  | member :: rest => (member ++ "," ++ joinMembers rest)%string
  end.

Definition jsonObject (o : props) : string :=
  ("{" ++ joinMembers (omap jsonMember (map_to_list o)) ++ "}")%string.

Definition plainSerializer : Serializer :=
  {| serialize := jsonObject;
     deserialize := fun _ workflowStateConstructor => newInstance workflowStateConstructor;
     toPlain := fun o => o;
     toClass := fun o _ => o |}.

Definition readObjects (known : list props) (text : string) : option props :=
  List.find (fun o => String.eqb (jsonObject o) text) known.

(** The error of [register] for a message type whose name objects
    inherit. *)
Definition inheritedNameError : exn :=
  TypeError "Cannot read properties of undefined (reading 'some')".

(** The message types a workflow subscribes to. *)
Definition messageTypes (workflow : Workflow) : list MessageType :=
  map fst (onStartedBy workflow) ++ map fst (onWhen workflow).

(** No message type of the workflow has a name that objects inherit. *)
Definition namesNotInherited (workflow : Workflow) : Prop :=
  Forall (fun mt => inherited (ctor_name mt) = false) (messageTypes workflow).

(** The error [e] is the one that [handlerRegistry.register] raises for a
    message type of a buffered workflow whose name objects inherit. *)
Definition registrationThrows {S} (w : World S) (e : exn) : Prop :=
  e = inheritedNameError
  /\ exists workflow, In workflow (workflowRegistry w) /\ ~ namesNotInherited workflow.

(** [w'] has the steps invoked in [w] and at most [k] more saved states. *)
Definition savesAtMost {S} (k : nat) (w w' : World S) : Prop :=
  invokedSteps (trace w') = invokedSteps (trace w)
  /\ (List.length (savedStates (trace w')) <= List.length (savedStates (trace w)) + k)%nat.

(** ** Handler registry: properties *)

Lemma readProperty_Some {V} (o : gmap string V) (k : string) (v : V) :
  o !! k = Some v -> readProperty o k = Own v.
Proof. unfold readProperty. by intros ->. Qed.

Lemma readProperty_None {V} (o : gmap string V) (k : string) :
  o !! k = None -> readProperty o k = if inherited k then Inherited else Missing.
Proof. unfold readProperty. by intros ->. Qed.

Lemma hasProperty_Some {V} (o : gmap string V) (k : string) (v : V) :
  o !! k = Some v -> hasProperty o k = true.
Proof.
  unfold hasProperty. intros ->. rewrite bool_decide_eq_true_2; [done|]. by eexists.
Qed.

Lemma hasProperty_None {V} (o : gmap string V) (k : string) :
  o !! k = None -> hasProperty o k = inherited k.
Proof.
  unfold hasProperty. intros ->. rewrite bool_decide_eq_false_2; [done|].
  by intros [v Hv].
Qed.

Lemma inherited_not_empty (n : string) : inherited n = true -> String.eqb n "" = false.
Proof.
  intros Hin. apply String.eqb_neq. intros ->. vm_compute in Hin. discriminate Hin.
Qed.

Lemma someSame_In (h : Handler) (hs : list Handler) :
  someSame h hs = true <-> In h hs.
Proof.
  unfold someSame. rewrite existsb_exists. split.
  - intros (x & Hx & Heq). apply bool_decide_eq_true in Heq. by subst.
  - intros Hin. exists h. split; [done|]. by apply bool_decide_eq_true.
Qed.

(** [register] by the entry found under the message name. *)
Lemma registerByName_eq (mt : MessageType) (h : Handler) (r : DefaultHandlerRegistry) :
  registerByName mt h r =
    match registry r !! ctor_name mt with
    | Some e =>
        if someSame h (handlers e) then (r, Throw (HandlerAlreadyRegistered (fn_name h)))
        else
          ({| registry :=
                <[ctor_name mt := {| messageType := messageType e;
                                     handlers := handlers e ++ [h] |}]> (registry r);
              registryKeys := registryKeys r;
              unhandledMessages := unhandledMessages r;
              handlerResolvers := handlerResolvers r |}, Ok tt)
    | None =>
        if inherited (ctor_name mt) then
          (r, Throw (TypeError "Cannot read properties of undefined (reading 'some')"))
        else
          ({| registry :=
                <[ctor_name mt := {| messageType := mt; handlers := [h] |}]> (registry r);
              registryKeys := registryKeys r ++ [ctor_name mt];
              unhandledMessages := unhandledMessages r;
              handlerResolvers := handlerResolvers r |}, Ok tt)
    end.
Proof.
  unfold registerByName, readProperty.
  destruct (registry r !! ctor_name mt) as [e|] eqn:He; cbn zeta iota.
  - rewrite He. by destruct (someSame h (handlers e)).
  - destruct (inherited (ctor_name mt)) eqn:Hin; cbn zeta iota.
    + by rewrite He.
    + cbn. rewrite lookup_insert_eq. cbn. by rewrite insert_insert_eq.
Qed.

Lemma registerByName_throws_iff (mt : MessageType) (h : Handler) (r : DefaultHandlerRegistry) :
  snd (registerByName mt h r) = Throw (HandlerAlreadyRegistered (fn_name h))
  <-> In h (handlersFor r (ctor_name mt)).
Proof.
  rewrite registerByName_eq. unfold handlersFor.
  destruct (registry r !! ctor_name mt) as [e|] eqn:He; simpl.
  - destruct (someSame h (handlers e)) eqn:Hs; simpl.
    + split; [intros _; by apply someSame_In | done].
    + split; [done|]. intros Hin. apply someSame_In in Hin. congruence.
  - destruct (inherited (ctor_name mt)); simpl; (split; [done | intros []]).
Qed.

(** The three outcomes of [register]; the [TypeError] is the one of a
    message name that is inherited and has no entry. *)
Lemma registerByName_outcome (mt : MessageType) (h : Handler) (r : DefaultHandlerRegistry) :
  snd (registerByName mt h r) = Ok tt
  \/ snd (registerByName mt h r) = Throw (HandlerAlreadyRegistered (fn_name h))
  \/ (snd (registerByName mt h r)
        = Throw (TypeError "Cannot read properties of undefined (reading 'some')")
      /\ fst (registerByName mt h r) = r
      /\ inherited (ctor_name mt) = true
      /\ registry r !! ctor_name mt = None).
Proof.
  rewrite registerByName_eq.
  destruct (registry r !! ctor_name mt) as [e|].
  - destruct (someSame h (handlers e)); simpl; auto.
  - destruct (inherited (ctor_name mt)); simpl; auto 6.
Qed.

Lemma registerByName_succeeds (mt : MessageType) (h : Handler) (r : DefaultHandlerRegistry) :
  inherited (ctor_name mt) = false ->
  ~ In h (handlersFor r (ctor_name mt)) ->
  snd (registerByName mt h r) = Ok tt.
Proof.
  intros Hname Hnew.
  destruct (registerByName_outcome mt h r) as [Hok|[Hdup|(_ & _ & Hin & _)]].
  - done.
  - by apply registerByName_throws_iff in Hdup.
  - congruence.
Qed.

(** What [register] does to the handlers kept under each name. *)
Lemma registerByName_handlersFor_any (mt : MessageType) (h : Handler)
    (r : DefaultHandlerRegistry) (n : string) :
  handlersFor (fst (registerByName mt h r)) n =
    if decide (ctor_name mt = n) then
      if someSame h (handlersFor r n) then handlersFor r n
      else if bool_decide (registry r !! n = None) && inherited n then handlersFor r n
      else handlersFor r n ++ [h]
    else handlersFor r n.
Proof.
  rewrite registerByName_eq. unfold handlersFor.
  destruct (decide (ctor_name mt = n)) as [<-|Hne].
  - destruct (registry r !! ctor_name mt) as [e|] eqn:He; simpl.
    + destruct (someSame h (handlers e)) eqn:Hs; simpl; [by rewrite He|].
      by rewrite lookup_insert_eq.
    + destruct (inherited (ctor_name mt)); simpl; [by rewrite He|].
      by rewrite lookup_insert_eq.
  - destruct (registry r !! ctor_name mt) as [e|] eqn:He; simpl.
    + destruct (someSame h (handlers e)); simpl; [done|]. by rewrite lookup_insert_ne.
    + destruct (inherited (ctor_name mt)); simpl; [done|]. by rewrite lookup_insert_ne.
Qed.

Lemma registerByName_handlersFor (mt : MessageType) (h : Handler)
    (r : DefaultHandlerRegistry) (n : string) :
  inherited n = false ->
  handlersFor (fst (registerByName mt h r)) n =
    if decide (ctor_name mt = n) then
      if someSame h (handlersFor r n) then handlersFor r n else handlersFor r n ++ [h]
    else handlersFor r n.
Proof.
  intros Hn. rewrite registerByName_handlersFor_any, Hn, andb_false_r. done.
Qed.

Lemma registerByName_resolvers (mt : MessageType) (h : Handler) (r : DefaultHandlerRegistry) :
  handlerResolvers (fst (registerByName mt h r)) = handlerResolvers r.
Proof.
  rewrite registerByName_eq.
  destruct (registry r !! ctor_name mt) as [e|].
  - by destruct (someSame h _).
  - by destruct (inherited _).
Qed.

Lemma registerByName_unhandled (mt : MessageType) (h : Handler) (r : DefaultHandlerRegistry) :
  unhandledMessages (fst (registerByName mt h r)) = unhandledMessages r.
Proof.
  rewrite registerByName_eq.
  destruct (registry r !! ctor_name mt) as [e|].
  - by destruct (someSame h _).
  - by destruct (inherited _).
Qed.

Lemma registerByName_NoDup (mt : MessageType) (h : Handler) (r : DefaultHandlerRegistry) :
  (forall n, List.NoDup (handlersFor r n)) ->
  forall n, List.NoDup (handlersFor (fst (registerByName mt h r)) n).
Proof.
  intros Hnd n. rewrite registerByName_handlersFor_any.
  destruct (decide _) as [_|_]; [|done].
  destruct (someSame h (handlersFor r n)) eqn:Hs; [done|].
  destruct (_ && _); [done|].
  apply NoDup_ListNoDup, NoDup_app. split_and!.
  - apply NoDup_ListNoDup, Hnd.
  - intros x Hx Hx'. apply list_elem_of_singleton in Hx'. subst x.
    apply list_elem_of_In, someSame_In in Hx. congruence.
  - apply NoDup_singleton.
Qed.

Lemma registerByName_ownNotInherited (mt : MessageType) (h : Handler)
    (r : DefaultHandlerRegistry) :
  ownNotInherited r -> ownNotInherited (fst (registerByName mt h r)).
Proof.
  intros Hr n Hn. rewrite registerByName_eq.
  destruct (registry r !! ctor_name mt) as [e|] eqn:He.
  - assert (ctor_name mt <> n) by (intros Heq; subst n; rewrite (Hr _ Hn) in He; done).
    destruct (someSame h _); simpl; [by apply Hr|].
    rewrite lookup_insert_ne by done. by apply Hr.
  - destruct (inherited (ctor_name mt)) eqn:Hin; simpl; [by apply Hr|].
    rewrite lookup_insert_ne by congruence. by apply Hr.
Qed.

Lemma reset_handlersFor (r : DefaultHandlerRegistry) (n : string) :
  handlersFor (HandlerRegistryResolvers.reset r) n = [].
Proof. unfold handlersFor. simpl. by rewrite lookup_empty. Qed.

(** [get] changes nothing but the list of unhandled messages. *)
Lemma get_registry (m : Message) (r : DefaultHandlerRegistry) :
  registry (snd (HandlerRegistryResolvers.get m r)) = registry r
  /\ registryKeys (snd (HandlerRegistryResolvers.get m r)) = registryKeys r
  /\ handlerResolvers (snd (HandlerRegistryResolvers.get m r)) = handlerResolvers r.
Proof.
  unfold HandlerRegistryResolvers.get.
  destruct (_ && _).
  - destruct (msg_name m); [|done]. by destruct (_ && _).
  - by destruct (HandlerRegistryResolvers.messageHandlersOf _ _).
Qed.

Lemma get_plain_registry (n : string) (r : DefaultHandlerRegistry) :
  registry (snd (HandlerRegistry.get n r)) = registry r
  /\ registryKeys (snd (HandlerRegistry.get n r)) = registryKeys r
  /\ handlerResolvers (snd (HandlerRegistry.get n r)) = handlerResolvers r.
Proof.
  unfold HandlerRegistry.get.
  destruct (negb _).
  - by destruct (existsb _ _).
  - by destruct (readProperty _ _).
Qed.

Lemma applyCall_NoDup (c : RegistryCall Message) (r : DefaultHandlerRegistry) :
  (forall n, List.NoDup (handlersFor r n)) ->
  forall n, List.NoDup (handlersFor (applyCall c r) n).
Proof.
  intros Hnd n. destruct c as [mt h rw t|m|]; simpl.
  - unfold HandlerRegistryResolvers.register.
    apply registerByName_NoDup. intros n'. destruct rw; apply Hnd.
  - unfold handlersFor. rewrite (proj1 (get_registry m r)). apply Hnd.
  - rewrite reset_handlersFor. constructor.
Qed.

Lemma applyCallPlain_NoDup (c : RegistryCall string) (r : DefaultHandlerRegistry) :
  (forall n, List.NoDup (handlersFor r n)) ->
  forall n, List.NoDup (handlersFor (applyCallPlain c r) n).
Proof.
  intros Hnd n. destruct c as [mt h rw t|m|]; simpl.
  - by apply registerByName_NoDup.
  - unfold handlersFor. rewrite (proj1 (get_plain_registry m r)). apply Hnd.
  - unfold handlersFor. simpl. rewrite lookup_empty. constructor.
Qed.

Lemma runCalls_invariant {Q} (P : DefaultHandlerRegistry -> Prop)
    (apply : RegistryCall Q -> DefaultHandlerRegistry -> DefaultHandlerRegistry)
    (calls : list (RegistryCall Q)) :
  (forall c r, P r -> P (apply c r)) ->
  forall r, P r -> P (runCalls apply calls r).
Proof.
  intros Hstep. induction calls as [|c calls IH]; intros r Hr; simpl; [done|].
  apply IH. by apply Hstep.
Qed.

Lemma runCalls_NoDup {Q} (apply : RegistryCall Q -> DefaultHandlerRegistry -> DefaultHandlerRegistry)
    (calls : list (RegistryCall Q)) :
  (forall c r, (forall n, List.NoDup (handlersFor r n)) ->
               forall n, List.NoDup (handlersFor (apply c r) n)) ->
  forall r, (forall n, List.NoDup (handlersFor r n)) ->
  forall n, List.NoDup (handlersFor (runCalls apply calls r) n).
Proof.
  intros Hstep r Hr.
  by apply (runCalls_invariant (fun r => forall n, List.NoDup (handlersFor r n))).
Qed.

Lemma newRegistry_NoDup (n : string) : List.NoDup (handlersFor newRegistry n).
Proof. unfold handlersFor, newRegistry. simpl. rewrite lookup_empty. constructor. Qed.

Lemma applyCall_ownNotInherited (c : RegistryCall Message) (r : DefaultHandlerRegistry) :
  ownNotInherited r -> ownNotInherited (applyCall c r).
Proof.
  intros Hr. destruct c as [mt h rw t|m|]; simpl.
  - unfold HandlerRegistryResolvers.register. apply registerByName_ownNotInherited.
    by destruct rw.
  - intros n Hn. rewrite (proj1 (get_registry m r)). by apply Hr.
  - intros n Hn. simpl. apply lookup_empty.
Qed.

Lemma applyCallPlain_ownNotInherited (c : RegistryCall string) (r : DefaultHandlerRegistry) :
  ownNotInherited r -> ownNotInherited (applyCallPlain c r).
Proof.
  intros Hr. destruct c as [mt h rw t|m|]; simpl.
  - by apply registerByName_ownNotInherited.
  - intros n Hn. rewrite (proj1 (get_plain_registry m r)). by apply Hr.
  - intros n Hn. simpl. apply lookup_empty.
Qed.

Lemma runCalls_ownNotInherited (calls : list (RegistryCall Message)) :
  ownNotInherited (runCalls applyCall calls newRegistry).
Proof.
  apply runCalls_invariant; [apply applyCall_ownNotInherited|].
  intros n _. apply lookup_empty.
Qed.

Lemma runCallsPlain_ownNotInherited (calls : list (RegistryCall string)) :
  ownNotInherited (runCalls applyCallPlain calls newRegistry).
Proof.
  apply runCalls_invariant; [apply applyCallPlain_ownNotInherited|].
  intros n _. apply lookup_empty.
Qed.

Lemma applyCall_handlersFor (c : RegistryCall Message) (r : DefaultHandlerRegistry) (n : string) :
  inherited n = false ->
  handlersFor (applyCall c r) n = keyedStep n (handlersFor r n) c.
Proof.
  intros Hn. destruct c as [mt h rw t|m|]; simpl.
  - unfold HandlerRegistryResolvers.register. rewrite registerByName_handlersFor by done.
    by destruct rw.
  - unfold handlersFor. by rewrite (proj1 (get_registry m r)).
  - apply reset_handlersFor.
Qed.

Lemma runCalls_handlersFor (calls : list (RegistryCall Message)) (r : DefaultHandlerRegistry)
    (n : string) :
  inherited n = false ->
  handlersFor (runCalls applyCall calls r) n = fold_left (keyedStep n) calls (handlersFor r n).
Proof.
  intros Hn. revert r. induction calls as [|c calls IH]; intros r; simpl; [done|].
  by rewrite IH, applyCall_handlersFor.
Qed.

Lemma applyCallPlain_handlersFor (c : RegistryCall string) (r : DefaultHandlerRegistry)
    (n : string) :
  inherited n = false ->
  handlersFor (applyCallPlain c r) n = keyedStep n (handlersFor r n) c.
Proof.
  intros Hn. destruct c as [mt h rw t|m|]; simpl.
  - by apply registerByName_handlersFor.
  - unfold handlersFor. by rewrite (proj1 (get_plain_registry m r)).
  - unfold handlersFor. simpl. by rewrite lookup_empty.
Qed.

Lemma runCallsPlain_handlersFor (calls : list (RegistryCall string))
    (r : DefaultHandlerRegistry) (n : string) :
  inherited n = false ->
  handlersFor (runCalls applyCallPlain calls r) n
  = fold_left (keyedStep n) calls (handlersFor r n).
Proof.
  intros Hn. revert r. induction calls as [|c calls IH]; intros r; simpl; [done|].
  by rewrite IH, applyCallPlain_handlersFor.
Qed.

(** [get(name)] of the revision without resolvers: the handlers kept
    under the name, and [undefined] under an inherited name without
    entry. *)
Lemma get_plain_result (n : string) (r : DefaultHandlerRegistry) :
  fst (HandlerRegistry.get n r) =
    if bool_decide (registry r !! n = None) && inherited n then None
    else Some (handlersFor r n).
Proof.
  unfold HandlerRegistry.get, handlersFor.
  destruct (registry r !! n) as [e|] eqn:He.
  - by rewrite (hasProperty_Some _ _ _ He), (readProperty_Some _ _ _ He).
  - rewrite (hasProperty_None _ _ He), (readProperty_None _ _ He). simpl.
    destruct (inherited n); simpl; [done|]. by destruct (existsb _ _).
Qed.

Lemma applyCall_resolvers (c : RegistryCall Message) (r : DefaultHandlerRegistry) :
  handlerResolvers (applyCall c r) = handlerResolvers r ++ resolversRegistered [c].
Proof.
  destruct c as [mt h rw t|m|]; simpl.
  - unfold HandlerRegistryResolvers.register. rewrite registerByName_resolvers.
    destruct rw; simpl; [done | by rewrite app_nil_r].
  - rewrite app_nil_r. apply get_registry.
  - by rewrite app_nil_r.
Qed.

Lemma resolversRegistered_cons (c : RegistryCall Message) (calls : list (RegistryCall Message)) :
  resolversRegistered (c :: calls) = resolversRegistered [c] ++ resolversRegistered calls.
Proof. destruct c as [mt h [p|] t| |]; done. Qed.

Lemma runCalls_resolvers (calls : list (RegistryCall Message)) (r : DefaultHandlerRegistry) :
  handlerResolvers (runCalls applyCall calls r) = handlerResolvers r ++ resolversRegistered calls.
Proof.
  revert r. induction calls as [|c calls IH]; intros r; simpl runCalls.
  - by rewrite app_nil_r.
  - rewrite (resolversRegistered_cons c calls), app_assoc, <- applyCall_resolvers.
    apply IH.
Qed.

(** [get] on any registry, for a message whose name is absent, or is
    neither the empty string nor a name that is inherited and has no
    entry. *)
Lemma get_is_get_spec (m : Message) (r : DefaultHandlerRegistry) :
  msg_name m <> Some "" ->
  (forall n, msg_name m = Some n -> inherited n = false \/ is_Some (registry r !! n)) ->
  fst (HandlerRegistryResolvers.get m r) = Ok (get_spec m r).
Proof.
  intros Hname Hown.
  unfold HandlerRegistryResolvers.get, get_spec, keyedHandlers, acceptedHandlers,
    HandlerRegistryResolvers.resolveCustomHandlers, HandlerRegistryResolvers.nameInRegistry,
    HandlerRegistryResolvers.messageHandlersOf, handlersFor, name_truthy.
  set (custom := map hr_handler _).
  destruct (msg_name m) as [n|] eqn:Hn; simpl.
  - assert (String.eqb n "" = false) as ->.
    { apply String.eqb_neq. congruence. }
    simpl. destruct (registry r !! n) as [e|] eqn:He.
    + rewrite (hasProperty_Some _ _ _ He), (readProperty_Some _ _ _ He). simpl.
      by rewrite andb_false_r.
    + rewrite (hasProperty_None _ _ He), (readProperty_None _ _ He).
      destruct (Hown n eq_refl) as [->|[? ?]]; [|congruence]. simpl.
      rewrite andb_true_r. destruct custom as [|c cs]; simpl; [|done].
      by destruct (negb _).
  - destruct custom; done.
Qed.

(** For a message whose name is the empty string, [get] looks up no
    entry: it returns the resolved handlers only. *)
Lemma get_empty_name (m : Message) (r : DefaultHandlerRegistry) :
  msg_name m = Some "" ->
  fst (HandlerRegistryResolvers.get m r) = Ok (acceptedHandlers m r).
Proof.
  intros Hname.
  unfold HandlerRegistryResolvers.get, acceptedHandlers,
    HandlerRegistryResolvers.resolveCustomHandlers,
    HandlerRegistryResolvers.messageHandlersOf, name_truthy.
  set (custom := map hr_handler _). rewrite Hname. simpl.
  destruct custom as [|c cs]; done.
Qed.

(** For a message whose name is inherited and has no entry, [get]
    throws. *)
Lemma get_inherited_name (m : Message) (r : DefaultHandlerRegistry) (n : string) :
  msg_name m = Some n -> inherited n = true -> registry r !! n = None ->
  HandlerRegistryResolvers.get m r = (Throw (TypeError "messageHandlers is not iterable"), r).
Proof.
  intros Hname Hin Hnone.
  unfold HandlerRegistryResolvers.get, HandlerRegistryResolvers.nameInRegistry,
    HandlerRegistryResolvers.messageHandlersOf, name_truthy.
  rewrite Hname. simpl.
  rewrite (inherited_not_empty n Hin), (hasProperty_None _ _ Hnone),
    (readProperty_None _ _ Hnone), Hin. simpl.
  by rewrite andb_false_r.
Qed.

(** C5 (the code at the failing inputs): [get] returns the handlers
    registered under the message's name, in registration order, followed
    by the handlers of the resolvers that accept the message, in
    registration order, as long as the name is absent or is neither the
    empty string nor a name that objects inherit.  For the empty string,
    which [get] tests as falsy, the handlers registered under it are left
    out, although [register] keeps them and the revision without resolvers
    returns them.  For an inherited name such as [toString], which [in]
    finds in the registry object, the revision with resolvers throws a
    [TypeError], whatever the resolvers accept, and the revision without
    resolvers returns [undefined]. *)
Theorem get_misses_empty_and_inherited_names
    (calls : list (RegistryCall Message)) (m : Message)
    (plainCalls : list (RegistryCall string)) (n : string) :
  let r := runCalls applyCall calls newRegistry in
  let q := runCalls applyCallPlain plainCalls newRegistry in
  let accepted :=
    map hr_handler (List.filter (fun hr => hr_resolver hr m) (resolversRegistered calls)) in
  (msg_name m = None -> fst (HandlerRegistryResolvers.get m r) = Ok accepted)
  /\ (forall name, msg_name m = Some name -> name <> "" -> inherited name = false ->
        fst (HandlerRegistryResolvers.get m r) = Ok (keyedRegistered name calls ++ accepted))
  /\ (inherited n = false ->
        fst (HandlerRegistry.get n q) = Some (keyedRegistered n plainCalls))
  /\ (msg_name m = Some "" -> fst (HandlerRegistryResolvers.get m r) = Ok accepted)
  /\ (forall name, msg_name m = Some name -> inherited name = true ->
        fst (HandlerRegistryResolvers.get m r)
        = Throw (TypeError "messageHandlers is not iterable"))
  /\ (inherited n = true -> fst (HandlerRegistry.get n q) = None)
  /\ (let h := {| fn_ref := 1; fn_name := "h" |} in
      let unnamed := {| ctor_ref := 1; ctor_name := "" |} in
      let received := {| msg_name := Some ""; msg_fields := ∅ |} in
      keyedRegistered "" [DoRegister unnamed h None None : RegistryCall Message] = [h]
      /\ fst (HandlerRegistryResolvers.get received
                (runCalls applyCall [DoRegister unnamed h None None] newRegistry)) = Ok []
      /\ fst (HandlerRegistry.get ""
                (runCalls applyCallPlain [DoRegister unnamed h None None] newRegistry))
         = Some [h])
  /\ (let k := {| fn_ref := 2; fn_name := "k" |} in
      let named := {| ctor_ref := 2; ctor_name := "N" |} in
      let received := {| msg_name := Some "toString"; msg_fields := ∅ |} in
      let registered :=
        runCalls applyCall [DoRegister named k (Some (fun _ => true)) None] newRegistry in
      acceptedHandlers received registered = [k]
      /\ fst (HandlerRegistryResolvers.get received registered)
         = Throw (TypeError "messageHandlers is not iterable")
      /\ fst (HandlerRegistry.get "toString" newRegistry) = None).
Proof.
  intros r q accepted.
  assert (Haccepted : acceptedHandlers m r = accepted).
  { unfold acceptedHandlers, r. by rewrite runCalls_resolvers. }
  split; [|split; [|split; [|split; [|split; [|split; [|split]]]]]].
  - intros Hname. rewrite get_is_get_spec; [|congruence|intros ?; congruence].
    unfold get_spec, keyedHandlers. by rewrite Hname, Haccepted.
  - intros name Hname Hne Hin.
    rewrite get_is_get_spec;
      [|congruence|intros n0 Hn0; rewrite Hname in Hn0; injection Hn0 as <-; by left].
    unfold get_spec, keyedHandlers. rewrite Hname, Haccepted. do 2 f_equal.
    unfold r, keyedRegistered. rewrite runCalls_handlersFor by done.
    unfold handlersFor, newRegistry. simpl. by rewrite lookup_empty.
  - intros Hin. rewrite get_plain_result, Hin, andb_false_r. f_equal.
    unfold q, keyedRegistered. rewrite runCallsPlain_handlersFor by done.
    unfold handlersFor, newRegistry. simpl. by rewrite lookup_empty.
  - intros Hname. by rewrite get_empty_name, Haccepted.
  - intros name Hname Hin.
    rewrite (get_inherited_name m r name Hname Hin); [done|].
    by apply runCalls_ownNotInherited.
  - intros Hin. rewrite get_plain_result, Hin.
    rewrite bool_decide_eq_true_2; [done|]. by apply runCallsPlain_ownNotInherited.
  - vm_compute. done.
  - vm_compute. done.
Qed.

(** C6: in both revisions, [register] raises [HandlerAlreadyRegistered]
    exactly when the same handler function is already registered under the
    message's name; its only other failure is the [TypeError] of a message
    name that objects inherit, under which nothing is ever registered; and
    after any sequence of calls no handler appears twice under one
    name. *)
Theorem register_rejects_exactly_duplicates :
  forall (mt : MessageType) (h : Handler) (rw : option (Message -> bool))
         (t : option string) (r : DefaultHandlerRegistry),
    (snd (HandlerRegistryResolvers.register mt h rw t r)
       = Throw (HandlerAlreadyRegistered (fn_name h))
     <-> In h (handlersFor r (ctor_name mt)))
    /\ (snd (HandlerRegistry.register mt h rw t r)
          = Throw (HandlerAlreadyRegistered (fn_name h))
        <-> In h (handlersFor r (ctor_name mt)))
    /\ (snd (HandlerRegistryResolvers.register mt h rw t r) = Ok tt
        \/ snd (HandlerRegistryResolvers.register mt h rw t r)
             = Throw (HandlerAlreadyRegistered (fn_name h))
        \/ (snd (HandlerRegistryResolvers.register mt h rw t r)
              = Throw (TypeError "Cannot read properties of undefined (reading 'some')")
            /\ inherited (ctor_name mt) = true
            /\ handlersFor r (ctor_name mt) = []))
    /\ (snd (HandlerRegistry.register mt h rw t r) = Ok tt
        \/ snd (HandlerRegistry.register mt h rw t r)
             = Throw (HandlerAlreadyRegistered (fn_name h))
        \/ (snd (HandlerRegistry.register mt h rw t r)
              = Throw (TypeError "Cannot read properties of undefined (reading 'some')")
            /\ inherited (ctor_name mt) = true
            /\ handlersFor r (ctor_name mt) = []))
    /\ (forall calls n, List.NoDup (handlersFor (runCalls applyCall calls newRegistry) n))
    /\ (forall calls n, List.NoDup (handlersFor (runCalls applyCallPlain calls newRegistry) n)).
Proof.
  intros mt h rw t r. split_and!.
  - unfold HandlerRegistryResolvers.register.
    rewrite registerByName_throws_iff. unfold handlersFor. by destruct rw.
  - apply registerByName_throws_iff.
  - unfold HandlerRegistryResolvers.register.
    set (r1 := match rw with Some _ => _ | None => r end).
    assert (Hreg : registry r1 = registry r) by (unfold r1; by destruct rw).
    destruct (registerByName_outcome mt h r1) as [Hok|[Hdup|(Herr & _ & Hin & Hnone)]];
      [by left | right; by left | right; right].
    split; [done|]. split; [done|]. unfold handlersFor. by rewrite <- Hreg, Hnone.
  - unfold HandlerRegistry.register.
    destruct (registerByName_outcome mt h r) as [Hok|[Hdup|(Herr & _ & Hin & Hnone)]];
      [by left | right; by left | right; right].
    split; [done|]. split; [done|]. unfold handlersFor. by rewrite Hnone.
  - intros calls n. apply runCalls_NoDup; [apply applyCall_NoDup | apply newRegistry_NoDup].
  - intros calls n. apply runCalls_NoDup; [apply applyCallPlain_NoDup | apply newRegistry_NoDup].
Qed.

(** C8 (the code at the failing input): [reset] empties the name-keyed
    registrations only.  The resolver list and the unhandled-messages
    list are kept, so after [register(M, h, accept-all); reset()] a [get]
    still returns [h], where a fresh registry returns nothing; and a name
    reported as unhandled before the reset is still listed after it. *)
Theorem reset_keeps_resolvers_and_unhandled :
  (forall r, registry (HandlerRegistryResolvers.reset r) = ∅
             /\ handlerResolvers (HandlerRegistryResolvers.reset r) = handlerResolvers r
             /\ unhandledMessages (HandlerRegistryResolvers.reset r) = unhandledMessages r)
  /\ (forall r, registry (HandlerRegistry.reset r) = ∅
                /\ handlerResolvers (HandlerRegistry.reset r) = handlerResolvers r
                /\ unhandledMessages (HandlerRegistry.reset r) = unhandledMessages r)
  /\ (let h := {| fn_ref := 1; fn_name := "h" |} in
      let mt := {| ctor_ref := 1; ctor_name := "M" |} in
      let m := {| msg_name := Some "M"; msg_fields := ∅ |} in
      let r := runCalls applyCall [DoRegister mt h (Some (fun _ => true)) None; DoReset]
                 newRegistry in
      fst (HandlerRegistryResolvers.get m r) = Ok [h]
      /\ fst (HandlerRegistryResolvers.get m newRegistry) = Ok []
      /\ List.length (handlerResolvers r) = 1%nat)
  /\ (let r := runCalls applyCallPlain [DoGet "Unknown"; DoReset] newRegistry in
      unhandledMessages r = ["Unknown"]
      /\ unhandledMessages newRegistry = []).
Proof. split_and!; try done; vm_compute; done. Qed.

(** C10 (the code, with the failing input): in the revision that wires
    resolvers, a [register] with a [resolveWith] predicate for a handler
    already registered under the message's name raises
    [HandlerAlreadyRegistered], yet the resolver entry has been appended
    and the keyed handlers are unchanged.  A later [get] on a message the
    predicate accepts returns the handler when the message's name is
    absent or is not a name that objects inherit; on an accepted message
    whose name is inherited and has no entry, such as [toString], [get]
    throws a [TypeError] and returns no handler. *)
Theorem register_duplicate_keeps_resolver
    (mt : MessageType) (h : Handler) (p : Message -> bool) (t : option string)
    (r : DefaultHandlerRegistry) :
  In h (handlersFor r (ctor_name mt)) ->
  let r' := fst (HandlerRegistryResolvers.register mt h (Some p) t r) in
  snd (HandlerRegistryResolvers.register mt h (Some p) t r)
    = Throw (HandlerAlreadyRegistered (fn_name h))
  /\ handlerResolvers r' =
       handlerResolvers r ++
         [{| hr_handler := h; hr_resolver := p; hr_messageType := Some mt;
             hr_topicIdentifier := t |}]
  /\ (forall n, handlersFor r' n = handlersFor r n)
  /\ (forall m, p m = true ->
        (forall n, msg_name m = Some n -> inherited n = false) ->
        exists hs, fst (HandlerRegistryResolvers.get m r') = Ok hs /\ In h hs)
  /\ (forall m n, p m = true -> msg_name m = Some n -> inherited n = true ->
        registry r !! n = None ->
        fst (HandlerRegistryResolvers.get m r')
        = Throw (TypeError "messageHandlers is not iterable")).
Proof.
  intros Hin r'.
  assert (Hres : handlerResolvers r' =
            handlerResolvers r ++
              [{| hr_handler := h; hr_resolver := p; hr_messageType := Some mt;
                  hr_topicIdentifier := t |}]).
  { unfold r', HandlerRegistryResolvers.register. by rewrite registerByName_resolvers. }
  assert (Hown : exists e, registry r !! ctor_name mt = Some e /\ In h (handlers e)).
  { unfold handlersFor in Hin. destruct (registry r !! ctor_name mt) as [e|]; [eauto|done]. }
  destruct Hown as (e & He & Hine).
  assert (Hreg : registry r' = registry r).
  { unfold r', HandlerRegistryResolvers.register. rewrite registerByName_eq. simpl.
    rewrite He. apply someSame_In in Hine. by rewrite Hine. }
  split; [|split; [|split; [|split]]].
  - unfold HandlerRegistryResolvers.register. by apply registerByName_throws_iff.
  - exact Hres.
  - intros n. unfold handlersFor. by rewrite Hreg.
  - intros m Hp Hname.
    assert (Hcustom : In h (HandlerRegistryResolvers.resolveCustomHandlers m r')).
    { unfold HandlerRegistryResolvers.resolveCustomHandlers. rewrite Hres.
      apply in_map_iff. eexists. split; [|apply filter_In; split;
        [apply in_app_iff; right; left; reflexivity|]]; done. }
    unfold HandlerRegistryResolvers.get.
    destruct (HandlerRegistryResolvers.resolveCustomHandlers m r') as [|c cs] eqn:Hc;
      [destruct Hcustom|].
    simpl.
    assert (Hsome : exists hs, HandlerRegistryResolvers.messageHandlersOf (msg_name m) r'
                               = Some hs).
    { unfold HandlerRegistryResolvers.messageHandlersOf, readProperty.
      destruct (msg_name m) as [n|]; [|eauto].
      destruct (name_truthy (Some n)); [|eauto].
      destruct (registry r' !! n); [eauto|]. rewrite (Hname n eq_refl). eauto. }
    destruct Hsome as [hs ->]. eexists. split; [reflexivity|].
    apply in_app_iff. by right.
  - intros m n Hp Hname Hinh Hnone.
    rewrite (get_inherited_name m r' n Hname Hinh); [done|]. by rewrite Hreg.
Qed.

Lemma register_duplicate_keeps_resolver_witness :
  let h := {| fn_ref := 1; fn_name := "h" |} in
  let mt := {| ctor_ref := 1; ctor_name := "M" |} in
  let r := runCalls applyCall [DoRegister mt h None None] newRegistry in
  let p := fun m : Message => true in
  let r' := fst (HandlerRegistryResolvers.register mt h (Some p) None r) in
  In h (handlersFor r "M")
  /\ snd (HandlerRegistryResolvers.register mt h (Some p) None r)
       = Throw (HandlerAlreadyRegistered "h")
  /\ (exists hs, fst (HandlerRegistryResolvers.get {| msg_name := None; msg_fields := ∅ |} r')
                 = Ok hs /\ In h hs)
  /\ fst (HandlerRegistryResolvers.get {| msg_name := Some "toString"; msg_fields := ∅ |} r')
     = Throw (TypeError "messageHandlers is not iterable").
Proof.
  intros h mt r p r'.
  assert (Hin : In h (handlersFor r (ctor_name mt))) by (left; reflexivity).
  pose proof (register_duplicate_keeps_resolver mt h p None r Hin)
    as (Hthrow & _ & _ & Hget & Hmiss).
  split; [exact Hin|]. split; [exact Hthrow|]. split.
  - apply Hget; [reflexivity|]. intros n Hn. discriminate Hn.
  - apply (Hmiss _ "toString"); reflexivity.
Defined.

(** ** In-memory persistence: properties *)

Lemma matchesRow_activeMatch (ic : option bool) (mm : MessageWorkflowMapping) (key : value)
    (data : props) :
  InMemoryPersistence.matchesRow ic mm key data = bool_decide (activeMatch ic (mapsTo mm) key data).
Proof.
  unfold InMemoryPersistence.matchesRow, activeMatch, strict_eq.
  destruct (decide (get data (mapsTo mm) = key)) as [Hk|Hk].
  - rewrite (bool_decide_eq_true_2 _ Hk), andb_true_r.
    destruct ic as [[|]|]; simpl.
    + symmetry. apply bool_decide_eq_true. auto.
    + destruct (decide (get data "$status" = Running)) as [Hs|Hs].
      * rewrite (bool_decide_eq_true_2 _ Hs). symmetry. apply bool_decide_eq_true. auto.
      * rewrite (bool_decide_eq_false_2 _ Hs). symmetry. apply bool_decide_eq_false.
        intros [_ [?|?]]; done.
    + destruct (decide (get data "$status" = Running)) as [Hs|Hs].
      * rewrite (bool_decide_eq_true_2 _ Hs). symmetry. apply bool_decide_eq_true. auto.
      * rewrite (bool_decide_eq_false_2 _ Hs). symmetry. apply bool_decide_eq_false.
        intros [_ [?|?]]; done.
  - rewrite (bool_decide_eq_false_2 _ Hk), andb_false_r.
    symmetry. apply bool_decide_eq_false. intros [? _]. done.
Qed.

Lemma filter_bool_decide {A} (P : A -> Prop) `{forall x, Decision (P x)} (l : list A) :
  List.filter (fun x => bool_decide (P x)) l = filter P l.
Proof.
  induction l as [|x l IH]; [done|]. simpl. rewrite filter_cons, IH.
  destruct (decide (P x)) as [Hp|Hp].
  - by rewrite (bool_decide_eq_true_2 _ Hp).
  - by rewrite (bool_decide_eq_false_2 _ Hp).
Qed.

(** A save creates no name: it fails, or files under a name that has
    rows already. *)
Lemma saveWorkflowState_lookup_None (state : props) (s : InMemoryPersistence.WorkflowStorage)
    (n : string) :
  s !! n = None -> fst (InMemoryPersistence.saveWorkflowState state s) !! n = None.
Proof.
  intros Hn. unfold InMemoryPersistence.saveWorkflowState, readProperty.
  destruct (s !! to_property_key (get state "$name")) as [rows|] eqn:Hrows.
  - assert (to_property_key (get state "$name") <> n) by congruence.
    destruct (InMemoryPersistence.assignToFirst state rows); simpl; by rewrite lookup_insert_ne.
  - by destruct (inherited _).
Qed.

Lemma runStorageCalls_lookup_None (calls : list StorageCall)
    (s : InMemoryPersistence.WorkflowStorage) (n : string) :
  Forall (fun c => ~ initializes n c) calls ->
  s !! n = None -> runStorageCalls calls s !! n = None.
Proof.
  revert s. induction calls as [|c calls IH]; intros s Hcalls Hn; [done|].
  apply Forall_cons in Hcalls as [Hc Hcalls]. simpl. apply IH; [done|].
  destruct c as [ctor mappings|state]; simpl.
  - simpl in Hc. unfold stateName in Hc. by rewrite lookup_insert_ne.
  - by apply saveWorkflowState_lookup_None.
Qed.

(** Under a name that objects inherit and that was not initialised,
    [getWorkflowState] with a truthy key finds a function, passes the
    guard and fails on [filter]. *)
Lemma getWorkflowState_inherited_name (ctor : StateType) (mm : MessageWorkflowMapping)
    (m : Message) (ctx : MessageAttributes) (ic : option bool)
    (s : InMemoryPersistence.WorkflowStorage) :
  truthy (lookup mm m ctx) = true -> s !! stateName ctor = None ->
  inherited (stateName ctor) = true ->
  InMemoryPersistence.getWorkflowState ctor mm m ctx ic s
  = Throw (TypeError "workflowState.filter is not a function").
Proof.
  intros Hkey Hnone Hin. unfold InMemoryPersistence.getWorkflowState, readProperty.
  unfold stateName in Hnone, Hin. by rewrite Hkey, Hnone, Hin.
Qed.

(** C9 (amended): in the in-memory persistence the storage is keyed by
    the [$name] of a state type's instances.  After any calls of
    [initializeWorkflow] and [saveWorkflowState] on a new persistence, none
    of which initialises a state type whose instances carry this [$name]
    or the name [__proto__] (which would give the storage object an array
    as its prototype), and for a [$name] that objects do not inherit,
    [getWorkflowState] with a truthy lookup key throws
    [WorkflowStateNotInitialized]; it does not return an empty list. *)
Theorem getWorkflowState_not_initialized
    (calls : list StorageCall) (ctor : StateType) (mm : MessageWorkflowMapping)
    (m : Message) (ctx : MessageAttributes) (ic : option bool) :
  Forall (fun c => ~ initializes (stateName ctor) c) calls ->
  Forall (fun c => ~ initializes "__proto__" c) calls ->
  inherited (stateName ctor) = false ->
  truthy (lookup mm m ctx) = true ->
  InMemoryPersistence.getWorkflowState ctor mm m ctx ic
    (runStorageCalls calls InMemoryPersistence.newStorage)
  = Throw (WorkflowStateNotInitialized "Workflow data not initialized").
Proof.
  intros Hcalls _ Hin Hkey. unfold InMemoryPersistence.getWorkflowState, readProperty.
  rewrite Hkey. simpl.
  pose proof (runStorageCalls_lookup_None calls InMemoryPersistence.newStorage
                (stateName ctor) Hcalls (lookup_empty _)) as Hnone.
  unfold stateName in Hnone, Hin. by rewrite Hnone, Hin.
Qed.

Lemma getWorkflowState_not_initialized_witness :
  let order := {| className := "Order"; newInstance := {[ "$name" := VStr "order" ]} |} in
  let invoice := {| className := "Invoice"; newInstance := {[ "$name" := VStr "invoice" ]} |} in
  let mm := {| lookup := fun m _ => get (msg_fields m) "orderId"; mapsTo := "orderId" |} in
  let m := {| msg_name := Some "Paid"; msg_fields := {[ "orderId" := VStr "X" ]} |} in
  let ctx := {| correlationId := None; attributes := ∅; stickyAttributes := ∅ |} in
  let calls := [InitializeWorkflow invoice [];
                SaveWorkflowState {[ "$name" := VStr "order" ]}] in
  InMemoryPersistence.getWorkflowState order mm m ctx None
    (runStorageCalls calls InMemoryPersistence.newStorage)
  = Throw (WorkflowStateNotInitialized "Workflow data not initialized").
Proof.
  intros order invoice mm m ctx calls.
  apply (getWorkflowState_not_initialized calls order mm m ctx None).
  - repeat constructor; vm_compute; [discriminate | tauto].
  - repeat constructor; vm_compute; [discriminate | tauto].
  - reflexivity.
  - reflexivity.
Defined.

(** C9 as stated fails for two state types whose instances carry the same
    [$name]: once [initializeWorkflow] was called for one of them,
    [getWorkflowState] for the other, for which it was never called,
    returns the empty list and does not throw. *)
Lemma getWorkflowState_shared_name_counterexample :
  let order := {| className := "Order"; newInstance := {[ "$name" := VStr "order" ]} |} in
  let legacy := {| className := "LegacyOrder"; newInstance := {[ "$name" := VStr "order" ]} |} in
  let mm := {| lookup := fun m _ => get (msg_fields m) "orderId"; mapsTo := "orderId" |} in
  let m := {| msg_name := Some "Paid"; msg_fields := {[ "orderId" := VStr "X" ]} |} in
  let ctx := {| correlationId := None; attributes := ∅; stickyAttributes := ∅ |} in
  let calls := [InitializeWorkflow order []] in
  legacy <> order
  /\ Forall (fun c => forall mappings, c <> InitializeWorkflow legacy mappings) calls
  /\ truthy (lookup mm m ctx) = true
  /\ InMemoryPersistence.getWorkflowState legacy mm m ctx None
       (runStorageCalls calls InMemoryPersistence.newStorage)
     = Ok [].
Proof.
  intros order legacy mm m ctx calls. split_and!.
  - intros Heq. discriminate Heq.
  - repeat constructor. intros mappings Heq. discriminate Heq.
  - reflexivity.
  - vm_compute. reflexivity.
Qed.

(** C7 (amended): [getWorkflowState] of the in-memory persistence returns
    the empty list when the lookup key is falsy; otherwise, when the state
    type has been initialised, exactly the stored rows (in stored order)
    whose [mapsTo] field equals the key and whose [$status] is Running,
    the status condition being dropped when [includeCompleted] is true;
    and it throws [WorkflowStateNotInitialized] when the key is truthy,
    nothing was initialised under the state type's [$name] nor under
    [__proto__], and the [$name] is not a name that objects inherit. *)
Theorem getWorkflowState_result
    (ctor : StateType) (mm : MessageWorkflowMapping) (m : Message) (ctx : MessageAttributes)
    (ic : option bool) (s : InMemoryPersistence.WorkflowStorage) :
  (truthy (lookup mm m ctx) = false ->
     InMemoryPersistence.getWorkflowState ctor mm m ctx ic s = Ok [])
  /\ (forall rows, truthy (lookup mm m ctx) = true -> s !! stateName ctor = Some rows ->
        InMemoryPersistence.getWorkflowState ctor mm m ctx ic s
        = Ok (filter (activeMatch ic (mapsTo mm) (lookup mm m ctx)) rows))
  /\ (truthy (lookup mm m ctx) = true -> s !! stateName ctor = None ->
        s !! "__proto__" = None -> inherited (stateName ctor) = false ->
        InMemoryPersistence.getWorkflowState ctor mm m ctx ic s
        = Throw (WorkflowStateNotInitialized "Workflow data not initialized")).
Proof.
  unfold InMemoryPersistence.getWorkflowState, stateName, readProperty. split_and!.
  - by intros ->.
  - intros rows -> ->. simpl. f_equal.
    rewrite <- filter_bool_decide. apply filter_ext. intros d.
    apply matchesRow_activeMatch.
  - by intros -> -> _ ->.
Qed.

Lemma getWorkflowState_result_witness :
  let order := {| className := "Order"; newInstance := {[ "$name" := VStr "order" ]} |} in
  let mm := {| lookup := fun m _ => get (msg_fields m) "orderId"; mapsTo := "orderId" |} in
  let m := {| msg_name := Some "Paid"; msg_fields := {[ "orderId" := VStr "X" ]} |} in
  let quiet := {| msg_name := Some "Paid"; msg_fields := ∅ |} in
  let ctx := {| correlationId := None; attributes := ∅; stickyAttributes := ∅ |} in
  let row (id key status : string) : props :=
    <[ "$workflowId" := VStr id ]> (<[ "orderId" := VStr key ]> {[ "$status" := VStr status ]}) in
  let rows := [row "1" "X" "running"; row "2" "X" "complete"; row "3" "Y" "running"] in
  let s : InMemoryPersistence.WorkflowStorage := {[ "order" := rows ]} in
  InMemoryPersistence.getWorkflowState order mm quiet ctx None s = Ok []
  /\ InMemoryPersistence.getWorkflowState order mm m ctx None s = Ok [row "1" "X" "running"]
  /\ InMemoryPersistence.getWorkflowState order mm m ctx (Some true) s
     = Ok [row "1" "X" "running"; row "2" "X" "complete"]
  /\ InMemoryPersistence.getWorkflowState order mm m ctx None ∅
     = Throw (WorkflowStateNotInitialized "Workflow data not initialized").
Proof.
  intros order mm m quiet ctx row rows s.
  split_and!.
  - apply (getWorkflowState_result order mm quiet ctx None s). reflexivity.
  - exact (proj1 (proj2 (getWorkflowState_result order mm m ctx None s))
             rows eq_refl eq_refl).
  - exact (proj1 (proj2 (getWorkflowState_result order mm m ctx (Some true) s))
             rows eq_refl eq_refl).
  - apply (getWorkflowState_result order mm m ctx None ∅); reflexivity.
Defined.

(** C7 as stated fails on a state type that was never initialised: with a
    truthy key the call throws, it returns no list at all. *)
Lemma getWorkflowState_counterexample :
  let order := {| className := "Order"; newInstance := {[ "$name" := VStr "order" ]} |} in
  let mm := {| lookup := fun m _ => get (msg_fields m) "orderId"; mapsTo := "orderId" |} in
  let m := {| msg_name := Some "Paid"; msg_fields := {[ "orderId" := VStr "X" ]} |} in
  let ctx := {| correlationId := None; attributes := ∅; stickyAttributes := ∅ |} in
  truthy (lookup mm m ctx) = true
  /\ forall rows,
       InMemoryPersistence.getWorkflowState order mm m ctx None InMemoryPersistence.newStorage
       <> Ok rows.
Proof.
  intros order mm m ctx. split; [reflexivity|].
  intros rows Heq. vm_compute in Heq. discriminate Heq.
Qed.


(** With the empty string as key, which is falsy, the SQL query still
    returns the running row whose field is the empty string. *)
Example getWorkflowData_empty_key :
  let order := {| className := "Order"; newInstance := {[ "$name" := VStr "order" ]} |} in
  let mm := {| lookup := fun _ _ => VStr ""; mapsTo := "orderId" |} in
  let m := {| msg_name := Some "Paid"; msg_fields := ∅ |} in
  let ctx := {| correlationId := None; attributes := ∅; stickyAttributes := ∅ |} in
  let data : props := <[ "orderId" := VStr "" ]> {[ "$status" := VStr "running" ]} in
  let plain :=
    {| serialize := fun _ => EmptyString; deserialize := fun _ _ => ∅;
       toPlain := fun o => o; toClass := fun o _ => o |} in
  let db : PostgresPersistence.Database :=
    {[ PostgresPersistence.resolveQualifiedTableName "order" "wf" :=
         {[ 1%N := {| PostgresPersistence.row_version := 1;
                      PostgresPersistence.row_data := data |} ]} ]} in
  truthy (lookup mm m ctx) = false
  /\ PostgresPersistence.getWorkflowData plain map_to_list "wf" order mm m ctx false db
     = Ok [data].
Proof. split; vm_compute; reflexivity. Qed.
(** ** Saving workflow state: properties *)

Section SaveWorkflowData.
Import PostgresPersistence.

Variable jsonb_in : string -> option props.

Lemma sqlInsert_new (tableName id : string) (version : Z) (data : string) (db : Database)
    (table : Table) (u : N) (json : props) :
  db !! tableName = Some table -> uuid_in id = Some u -> inInteger version = true ->
  jsonb_in data = Some json -> table !! u = None ->
  sqlInsert jsonb_in tableName id version data db
  = (<[tableName := <[u := {| row_version := version; row_data := json |}]> table]> db, Ok tt).
Proof.
  intros Hdb Hid Hversion Hjson Hnew. unfold sqlInsert.
  by rewrite Hdb, Hid, Hversion, Hjson, Hnew.
Qed.

Lemma sqlInsert_existing (tableName id : string) (version : Z) (data : string) (db : Database)
    (table : Table) (u : N) (json : props) (row : Row) :
  db !! tableName = Some table -> uuid_in id = Some u -> inInteger version = true ->
  jsonb_in data = Some json -> table !! u = Some row ->
  sqlInsert jsonb_in tableName id version data db = (db, Throw duplicateKey).
Proof.
  intros Hdb Hid Hversion Hjson Hrow. unfold sqlInsert.
  by rewrite Hdb, Hid, Hversion, Hjson, Hrow.
Qed.

Lemma sqlUpdate_match (tableName : string) (newVersion : Z) (data id : string) (oldVersion : Z)
    (db : Database) (table : Table) (u : N) (json : props) (row : Row) :
  db !! tableName = Some table -> inInteger newVersion = true -> jsonb_in data = Some json ->
  uuid_in id = Some u -> inInteger oldVersion = true ->
  table !! u = Some row -> row_version row = oldVersion ->
  sqlUpdate jsonb_in tableName newVersion data id oldVersion db
  = (<[tableName := <[u := {| row_version := newVersion; row_data := json |}]> table]> db,
     Ok 1%nat).
Proof.
  intros Hdb Hnew Hjson Hid Hold Hrow Hversion. unfold sqlUpdate.
  rewrite Hdb, Hnew, Hjson, Hid, Hold, Hrow. simpl.
  by rewrite Hversion, Z.eqb_refl.
Qed.

Lemma sqlUpdate_no_match (tableName : string) (newVersion : Z) (data id : string)
    (oldVersion : Z) (db : Database) (table : Table) (u : N) (json : props) :
  db !! tableName = Some table -> inInteger newVersion = true -> jsonb_in data = Some json ->
  uuid_in id = Some u -> inInteger oldVersion = true ->
  (forall row, table !! u = Some row -> row_version row <> oldVersion) ->
  sqlUpdate jsonb_in tableName newVersion data id oldVersion db = (db, Ok 0%nat).
Proof.
  intros Hdb Hnew Hjson Hid Hold Hrows. unfold sqlUpdate.
  rewrite Hdb, Hnew, Hjson, Hid, Hold. simpl.
  destruct (table !! u) as [row|] eqn:Hrow; [|done].
  assert ((row_version row =? oldVersion) = false) as ->; [|done].
  apply Z.eqb_neq. by apply Hrows.
Qed.

End SaveWorkflowData.

Lemma assignToFirst_stores (state : props) (rows updated : list props) :
  InMemoryPersistence.assignToFirst state rows = Some updated ->
  exists d, In d rows /\ In (spread d state) updated
            /\ get d "$workflowId" = get state "$workflowId".
Proof.
  revert updated. induction rows as [|d rows IH]; intros updated; simpl; [done|].
  destruct (strict_eq _ _) eqn:Hsame.
  - intros [= <-]. exists d. apply bool_decide_eq_true in Hsame. simpl. auto.
  - destruct (InMemoryPersistence.assignToFirst state rows) as [upd|]; [|done].
    intros [= <-]. destruct (IH upd eq_refl) as (d' & Hin & Hin' & Hid).
    exists d'. simpl. auto.
Qed.

(** [find] selects the first row with the state's id, and [Object.assign]
    overwrites that row where it stands. *)
Lemma assignToFirst_Some (state : props) (rows updated : list props) :
  InMemoryPersistence.assignToFirst state rows = Some updated ->
  exists before d after,
    rows = before ++ d :: after
    /\ Forall (fun d' => get d' "$workflowId" <> get state "$workflowId") before
    /\ get d "$workflowId" = get state "$workflowId"
    /\ updated = before ++ spread d state :: after.
Proof.
  revert updated. induction rows as [|d rows IH]; intros updated; simpl; [done|].
  destruct (strict_eq _ _) eqn:Hsame.
  - intros [= <-]. exists [], d, rows. apply bool_decide_eq_true in Hsame.
    split_and!; [done | apply List.Forall_nil | done | done].
  - destruct (InMemoryPersistence.assignToFirst state rows) as [upd|]; [|done].
    intros [= <-]. destruct (IH upd eq_refl) as (before & d' & after & -> & Hbefore & Hid & ->).
    exists (d :: before), d', after. apply bool_decide_eq_false in Hsame.
    split_and!; [done | by apply List.Forall_cons | done | done].
Qed.

Lemma assignToFirst_None (state : props) (rows : list props) :
  InMemoryPersistence.assignToFirst state rows = None ->
  Forall (fun d => get d "$workflowId" <> get state "$workflowId") rows.
Proof.
  induction rows as [|d rows IH]; simpl; [intros _; apply List.Forall_nil|].
  destruct (strict_eq _ _) eqn:Hsame; [done|].
  destruct (InMemoryPersistence.assignToFirst state rows) as [upd|]; [done|].
  intros _. apply bool_decide_eq_false in Hsame. apply List.Forall_cons; auto.
Qed.

Lemma get_spread (a b : props) (k : string) :
  get (spread a b) k = match b !! k with Some v => v | None => get a k end.
Proof.
  unfold get, spread. rewrite lookup_union.
  destruct (b !! k), (a !! k); done.
Qed.

(** C1 (amended): the SQL backend's save is an upsert with optimistic
    concurrency, on an existing table, for a state whose id the database
    reads as a [uuid] and whose serialised text it reads as JSON.  When
    [$version] is 0 and no row has the state's id, a row with version 1 is
    inserted.  Otherwise, with [$version] and [$version + 1] in the range
    of [integer], the row with the state's id is updated to version
    [$version + 1] when its version is [$version], and when there is no
    such row (zero affected rows) the save raises
    [WorkflowDataNotFound(id, table, $version)] and changes nothing; with
    [$version + 1] beyond the range the database rejects the statement.
    The in-memory backend compares no versions: on an initialised state
    type its save always succeeds, never raises [WorkflowDataNotFound],
    and overwrites the first row that has the state's [$workflowId] with
    the state's properties, [$version] included, or appends the state when
    no row has its id; the other rows stay as they are. *)
Theorem saveWorkflowData_upsert
    (serializer : Serializer) (jsonb_in : string -> option props)
    (schema : string) (wd : PostgresPersistence.WorkflowData)
    (db : PostgresPersistence.Database) (table : PostgresPersistence.Table)
    (u : N) (json : props)
    (state : props) (s : InMemoryPersistence.WorkflowStorage) (stored : list props) :
  let id := PostgresPersistence.wd_workflowId wd in
  let v := PostgresPersistence.wd_version wd in
  let tableName :=
    PostgresPersistence.resolveQualifiedTableName (PostgresPersistence.wd_name wd) schema in
  let plain := <["$version" := VNum (v + 1)]> (toPlain serializer (PostgresPersistence.wd_own wd)) in
  let newRow := {| PostgresPersistence.row_version := v + 1;
                   PostgresPersistence.row_data := json |} in
  let name := to_property_key (get state "$name") in
  let otherId := fun d : props => get d "$workflowId" <> get state "$workflowId" in
  db !! tableName = Some table ->
  PostgresPersistence.uuid_in id = Some u ->
  jsonb_in (serialize serializer plain) = Some json ->
  s !! name = Some stored ->
  (v = 0 -> table !! u = None ->
     PostgresPersistence.row_version newRow = 1
     /\ PostgresPersistence.saveWorkflowData serializer jsonb_in schema wd db
        = (<[tableName := <[u := newRow]> table]> db, Ok tt))
  /\ (v <> 0 -> PostgresPersistence.inInteger v = true ->
      PostgresPersistence.inInteger (v + 1) = true ->
      (forall row, table !! u = Some row -> PostgresPersistence.row_version row <> v) ->
      PostgresPersistence.saveWorkflowData serializer jsonb_in schema wd db
      = (db, Throw (WorkflowDataNotFound (VStr id) tableName v)))
  /\ (forall row, v <> 0 -> PostgresPersistence.inInteger v = true ->
      PostgresPersistence.inInteger (v + 1) = true ->
      table !! u = Some row -> PostgresPersistence.row_version row = v ->
      PostgresPersistence.saveWorkflowData serializer jsonb_in schema wd db
      = (<[tableName := <[u := newRow]> table]> db, Ok tt))
  /\ (PostgresPersistence.inInteger (v + 1) = false ->
      PostgresPersistence.saveWorkflowData serializer jsonb_in schema wd db
      = (db, Throw (PostgresPersistence.outOfRange (v + 1))))
  /\ (snd (InMemoryPersistence.saveWorkflowState state s) = Ok tt
      /\ ((exists before d after,
             stored = before ++ d :: after
             /\ Forall otherId before
             /\ get d "$workflowId" = get state "$workflowId"
             /\ fst (InMemoryPersistence.saveWorkflowState state s)
                = <[name := before ++ spread d state :: after]> s)
          \/ (Forall otherId stored
              /\ fst (InMemoryPersistence.saveWorkflowState state s)
                 = <[name := stored ++ [state]]> s))).
Proof.
  intros id v tableName plain newRow name otherId Hdb Hid Hjson Hs.
  split; [|split; [|split; [|split]]].
  - intros Hv Hfresh. split; [simpl; lia|].
    unfold PostgresPersistence.saveWorkflowData, PostgresPersistence.upsertWorkflowData.
    fold id v tableName plain. rewrite Hv. simpl.
    rewrite (sqlInsert_new jsonb_in tableName id 1 _ db table u json); try done.
    subst newRow. by rewrite Hv.
  - intros Hv Hold Hnew Hnone.
    unfold PostgresPersistence.saveWorkflowData, PostgresPersistence.upsertWorkflowData.
    fold id v tableName plain.
    assert ((v =? 0) = false) as -> by by apply Z.eqb_neq.
    by rewrite (sqlUpdate_no_match jsonb_in tableName (v + 1) _ id v db table u json).
  - intros row Hv Hold Hnew Hrow Hversion.
    unfold PostgresPersistence.saveWorkflowData, PostgresPersistence.upsertWorkflowData.
    fold id v tableName plain.
    assert ((v =? 0) = false) as -> by by apply Z.eqb_neq.
    by rewrite (sqlUpdate_match jsonb_in tableName (v + 1) _ id v db table u json row).
  - intros Hnew.
    unfold PostgresPersistence.saveWorkflowData, PostgresPersistence.upsertWorkflowData.
    fold id v tableName plain.
    assert ((v =? 0) = false) as ->.
    { apply Z.eqb_neq. intros Hv. rewrite Hv in Hnew. discriminate Hnew. }
    unfold PostgresPersistence.sqlUpdate. by rewrite Hdb, Hnew.
  - unfold InMemoryPersistence.saveWorkflowState. fold name.
    rewrite (readProperty_Some _ _ _ Hs).
    destruct (InMemoryPersistence.assignToFirst state stored) as [updated|] eqn:Hassign; simpl.
    + split; [done|]. left.
      destruct (assignToFirst_Some _ _ _ Hassign) as (before & d & after & ? & ? & ? & ->).
      by exists before, d, after.
    + split; [done|]. right. split; [|done]. by apply assignToFirst_None.
Qed.

Lemma saveWorkflowData_upsert_witness :
  let table := PostgresPersistence.resolveQualifiedTableName "Order" "wf" in
  let id := "a0eebc99-9c0b-4ef8-bb6d-6bb9bd380a11" in
  let u := 213916071241125512485712096724000442897%N in
  let data (v : Z) : props := {[ "$version" := VNum v ]} in
  let row (v : Z) := {| PostgresPersistence.row_version := v;
                        PostgresPersistence.row_data := data v |} in
  let wd (v : Z) := {| PostgresPersistence.wd_workflowId := id;
                       PostgresPersistence.wd_name := "Order";
                       PostgresPersistence.wd_version := v;
                       PostgresPersistence.wd_own := data v |} in
  let jsonb_in := readObjects [data 1; data 4; data 6] in
  let save (v : Z) := PostgresPersistence.saveWorkflowData plainSerializer jsonb_in "wf" (wd v) in
  let state : props := <[ "$name" := VStr "order" ]> {[ "$workflowId" := VStr id ]} in
  PostgresPersistence.uuid_in id = Some u
  /\ save 0 {[ table := ∅ ]} = ({[ table := {[ u := row 1 ]} ]}, Ok tt)
  /\ save 3 {[ table := {[ u := row 5 ]} ]}
     = ({[ table := {[ u := row 5 ]} ]}, Throw (WorkflowDataNotFound (VStr id) table 3))
  /\ save 5 {[ table := {[ u := row 5 ]} ]} = ({[ table := {[ u := row 6 ]} ]}, Ok tt)
  /\ InMemoryPersistence.saveWorkflowState state {[ "order" := [] ]}
     = ({[ "order" := [state] ]}, Ok tt).
Proof.
  intros table id u data row wd jsonb_in save state.
  assert (Hid : PostgresPersistence.uuid_in id = Some u) by (vm_compute; reflexivity).
  assert (Hs : ({[ "order" := [] ]} : InMemoryPersistence.WorkflowStorage)
                 !! to_property_key (get state "$name") = Some []) by reflexivity.
  split; [exact Hid|]. split_and!.
  - assert (Hdb : ({[ table := ∅ ]} : PostgresPersistence.Database)
                    !! PostgresPersistence.resolveQualifiedTableName
                         (PostgresPersistence.wd_name (wd 0)) "wf" = Some ∅)
      by reflexivity.
    assert (Hjson : jsonb_in (serialize plainSerializer
                      (<["$version" := VNum (0 + 1)]>
                         (toPlain plainSerializer (PostgresPersistence.wd_own (wd 0)))))
                    = Some (data 1)) by (vm_compute; reflexivity).
    pose proof (saveWorkflowData_upsert plainSerializer jsonb_in "wf" (wd 0) _ ∅ u (data 1)
                  state _ [] Hdb Hid Hjson Hs) as (H & _).
    destruct (H eq_refl (lookup_empty _)) as [_ Hsave].
    unfold save. rewrite Hsave. vm_compute. reflexivity.
  - assert (Hdb : ({[ table := {[ u := row 5 ]} ]} : PostgresPersistence.Database)
                    !! PostgresPersistence.resolveQualifiedTableName
                         (PostgresPersistence.wd_name (wd 3)) "wf" = Some {[ u := row 5 ]})
      by reflexivity.
    assert (Hjson : jsonb_in (serialize plainSerializer
                      (<["$version" := VNum (3 + 1)]>
                         (toPlain plainSerializer (PostgresPersistence.wd_own (wd 3)))))
                    = Some (data 4)) by (vm_compute; reflexivity).
    pose proof (saveWorkflowData_upsert plainSerializer jsonb_in "wf" (wd 3) _ _ u (data 4)
                  state _ [] Hdb Hid Hjson Hs) as (_ & H & _).
    unfold save. rewrite H; try reflexivity; [discriminate|].
    intros r Hr Hversion. vm_compute in Hr. injection Hr as <-. discriminate Hversion.
  - assert (Hdb : ({[ table := {[ u := row 5 ]} ]} : PostgresPersistence.Database)
                    !! PostgresPersistence.resolveQualifiedTableName
                         (PostgresPersistence.wd_name (wd 5)) "wf" = Some {[ u := row 5 ]})
      by reflexivity.
    assert (Hjson : jsonb_in (serialize plainSerializer
                      (<["$version" := VNum (5 + 1)]>
                         (toPlain plainSerializer (PostgresPersistence.wd_own (wd 5)))))
                    = Some (data 6)) by (vm_compute; reflexivity).
    pose proof (saveWorkflowData_upsert plainSerializer jsonb_in "wf" (wd 5) _ _ u (data 6)
                  state _ [] Hdb Hid Hjson Hs) as (_ & _ & H & _).
    unfold save. rewrite (H (row 5)); try reflexivity; discriminate.
  - vm_compute. reflexivity.
Defined.

(** C1 as stated fails on the in-memory backend: a save whose [$version]
    (3) differs from the stored row's (5) raises nothing and overwrites
    the row, and a new state with [$version] 0 is stored with version 0. *)
Lemma saveWorkflowState_counterexample :
  let item (v : Z) : props :=
    <[ "$name" := VStr "order" ]>
      (<[ "$workflowId" := VStr "a" ]> {[ "$version" := VNum v ]}) in
  get (item 5) "$version" <> get (item 3) "$version"
  /\ InMemoryPersistence.saveWorkflowState (item 3) {[ "order" := [item 5] ]}
     = ({[ "order" := [item 3] ]}, Ok tt)
  /\ InMemoryPersistence.saveWorkflowState (item 0) {[ "order" := [] ]}
     = ({[ "order" := [item 0] ]}, Ok tt)
  /\ get (item 0) "$version" = VNum 0.
Proof.
  intros item. split_and!; [discriminate | reflexivity | reflexivity | reflexivity].
Qed.

(** On the SQL backend a state with [$version] 0 is inserted without any
    comparison of versions: against a stored row of the same id the
    database's key error is raised, not [WorkflowDataNotFound].  A state
    whose [$version] is the largest [integer] cannot be saved: the version
    to store is out of the column's range. *)
Example saveWorkflowData_insert_existing :
  let table := PostgresPersistence.resolveQualifiedTableName "Order" "wf" in
  let id := "a0eebc99-9c0b-4ef8-bb6d-6bb9bd380a11" in
  let u := 213916071241125512485712096724000442897%N in
  let row (v : Z) := {| PostgresPersistence.row_version := v;
                        PostgresPersistence.row_data := ∅ |} in
  let wd (v : Z) := {| PostgresPersistence.wd_workflowId := id;
                       PostgresPersistence.wd_name := "Order";
                       PostgresPersistence.wd_version := v;
                       PostgresPersistence.wd_own := ∅ |} in
  let save (v : Z) :=
    PostgresPersistence.saveWorkflowData plainSerializer (fun _ => Some ∅) "wf" (wd v) in
  save 0 {[ table := {[ u := row 5 ]} ]}
  = ({[ table := {[ u := row 5 ]} ]}, Throw PostgresPersistence.duplicateKey)
  /\ save 2147483647 {[ table := {[ u := row 2147483647 ]} ]}
     = ({[ table := {[ u := row 2147483647 ]} ]},
        Throw (PostgresPersistence.outOfRange 2147483648)).
Proof. split; vm_compute; reflexivity. Qed.
(** ** Step dispatcher: properties *)

Lemma registerByName_ok_handlersFor (mt : MessageType) (h : Handler)
    (r : DefaultHandlerRegistry) :
  snd (registerByName mt h r) = Ok tt ->
  forall n, handlersFor (fst (registerByName mt h r)) n =
              if decide (ctor_name mt = n) then handlersFor r n ++ [h] else handlersFor r n.
Proof.
  rewrite registerByName_eq. unfold handlersFor. intros Hok n.
  destruct (registry r !! ctor_name mt) as [e|] eqn:He.
  - destruct (someSame h (handlers e)); [done|]. simpl.
    destruct (decide (ctor_name mt = n)) as [<-|Hne].
    + by rewrite lookup_insert_eq, He.
    + by rewrite lookup_insert_ne.
  - destruct (inherited (ctor_name mt)); [done|]. simpl.
    destruct (decide (ctor_name mt = n)) as [<-|Hne].
    + by rewrite lookup_insert_eq, He.
    + by rewrite lookup_insert_ne.
Qed.

Section Dispatcher.
Import WorkflowRegistry.
Context {S : Type} (persistence : Persistence S) (uuid_v4 : nat -> string).

Lemma addEvents_app (e1 e2 : list Event) (w : World S) :
  addEvents e2 (addEvents e1 w) = addEvents (e1 ++ e2) w.
Proof. unfold addEvents. simpl. by rewrite <- app_assoc. Qed.

Lemma emit_addEvents (e : Event) (w : World S) : emit e w = (addEvents [e] w, Ok tt).
Proof. done. Qed.

Lemma callPersistence_eq {A} (e : Event) (f : S -> S * result A) (w : World S) :
  callPersistence e f w = (setStorage (f (storage w)).1 (addEvents [e] w), (f (storage w)).2).
Proof.
  unfold callPersistence, bind. rewrite emit_addEvents. simpl.
  by destruct (f (storage w)).
Qed.

Lemma persist_eq (data : props) (w : World S) :
  let r := p_saveWorkflowState persistence data (storage w) in
  persist persistence data w =
    (addEvents match r.2 with
               | Ok _ => [Log LInfo "Saving workflow state"]
               | Throw _ => [Log LError "Error persisting workflow state"]
               end
       (setStorage r.1 (addEvents [CallSaveWorkflowState data] w)),
     r.2).
Proof.
  intros r. unfold persist, tryCatch, bind. rewrite callPersistence_eq. fold r.
  destruct r.2 as [[]|e]; done.
Qed.

Lemma get_assign3 (fresh old delta : props) (k : string) :
  get (assign3 fresh old delta) k =
    match delta !! k with
    | Some v => v
    | None => match old !! k with Some v => v | None => get fresh k end
    end.
Proof.
  unfold assign3. rewrite get_spread. destruct (delta !! k); [done|].
  apply get_spread.
Qed.

Lemma dispatch_discard
    (message : Message) (attrs : MessageAttributes) (workflowName : string)
    (old : props) (ctor : StateType) (step : WhenHandler) (w : World S) (delta : props) :
  step message attrs (freezeCopy old) = Ok (Some delta) ->
  get delta "$status" = Discard ->
  dispatchMessageToWorkflow persistence message attrs workflowName old ctor step w =
    (addEvents
       [InvokeStep message attrs (freezeCopy old);
        Log LDebug
          "Workflow step is discarding state changes. State changes will not be persisted"]
       w, Ok tt).
Proof.
  intros Hstep Hdiscard. unfold dispatchMessageToWorkflow, invoke, bind.
  rewrite emit_addEvents, Hstep. unfold ret, strict_eq.
  rewrite bool_decide_eq_true_2 by done. unfold log.
  by rewrite emit_addEvents, addEvents_app.
Qed.

Lemma dispatch_nothing
    (message : Message) (attrs : MessageAttributes) (workflowName : string)
    (old : props) (ctor : StateType) (step : WhenHandler) (w : World S) :
  step message attrs (freezeCopy old) = Ok None ->
  dispatchMessageToWorkflow persistence message attrs workflowName old ctor step w =
    (addEvents
       [InvokeStep message attrs (freezeCopy old);
        Log LTrace "No changes detected in workflow state."]
       w, Ok tt).
Proof.
  intros Hstep. unfold dispatchMessageToWorkflow, invoke, bind.
  rewrite emit_addEvents, Hstep. unfold ret, log.
  by rewrite emit_addEvents, addEvents_app.
Qed.

Lemma dispatch_save
    (message : Message) (attrs : MessageAttributes) (workflowName : string)
    (old : props) (ctor : StateType) (step : WhenHandler) (w : World S) (delta : props) :
  step message attrs (freezeCopy old) = Ok (Some delta) ->
  get delta "$status" <> Discard ->
  let merged := assign3 (newInstance ctor) old delta in
  let saved := p_saveWorkflowState persistence merged (storage w) in
  dispatchMessageToWorkflow persistence message attrs workflowName old ctor step w =
    (addEvents (afterSave saved.2)
       (setStorage saved.1
          (addEvents
             [InvokeStep message attrs (freezeCopy old);
              Log LDebug "Changes detected in workflow state and will be persisted.";
              CallSaveWorkflowState merged]
             w)),
     saved.2).
Proof.
  intros Hstep Hkeep merged saved. unfold dispatchMessageToWorkflow, invoke, bind.
  rewrite emit_addEvents, Hstep. unfold ret, strict_eq.
  rewrite bool_decide_eq_false_2 by done. unfold log.
  rewrite emit_addEvents, addEvents_app. unfold tryCatch. rewrite persist_eq.
  fold merged. simpl storage. fold saved.
  destruct saved.2 as [[]|e]; simpl; unfold addEvents, setStorage, throw; simpl;
    repeat rewrite <- app_assoc; done.
Qed.

Lemma savedStates_app (e1 e2 : list Event) :
  savedStates (e1 ++ e2) = savedStates e1 ++ savedStates e2.
Proof. apply omap_app. Qed.

(** C2 (amended): for every invocation of a step by the dispatcher, on
    the frozen copy of the old state: when the delta has [$status]
    Discard, no persistence call is made; when the step returns nothing,
    no persistence call is made; otherwise [saveWorkflowState] is called
    exactly once, with [merge(freshInstance(stateType), oldState, delta)].
    The dispatcher does not increment [$version]: the merge carries the
    delta's [$version] when the delta has one and the old state's
    otherwise, and what is stored for it is the backend's doing. *)
Theorem dispatch_persists_merge
    (message : Message) (attrs : MessageAttributes) (workflowName : string)
    (old : props) (ctor : StateType) (step : WhenHandler) (w : World S) :
  let snapshot := freezeCopy old in
  let run := dispatchMessageToWorkflow persistence message attrs workflowName old ctor step in
  own snapshot = old /\ frozen snapshot = true
  /\ (forall delta,
        step message attrs snapshot = Ok (Some delta) ->
        get delta "$status" = Discard ->
        run w =
          (addEvents
             [InvokeStep message attrs snapshot;
              Log LDebug
                "Workflow step is discarding state changes. State changes will not be persisted"]
             w, Ok tt)
        /\ savedStates (trace (run w).1) = savedStates (trace w)
        /\ storage (run w).1 = storage w)
  /\ (step message attrs snapshot = Ok None ->
      run w =
        (addEvents
           [InvokeStep message attrs snapshot;
            Log LTrace "No changes detected in workflow state."]
           w, Ok tt)
      /\ savedStates (trace (run w).1) = savedStates (trace w)
      /\ storage (run w).1 = storage w)
  /\ (forall delta,
        step message attrs snapshot = Ok (Some delta) ->
        get delta "$status" <> Discard ->
        let merged := assign3 (newInstance ctor) old delta in
        let saved := p_saveWorkflowState persistence merged (storage w) in
        run w =
          (addEvents (afterSave saved.2)
             (setStorage saved.1
                (addEvents
                   [InvokeStep message attrs snapshot;
                    Log LDebug "Changes detected in workflow state and will be persisted.";
                    CallSaveWorkflowState merged]
                   w)),
           saved.2)
        /\ savedStates (trace (run w).1) = savedStates (trace w) ++ [merged]
        /\ get merged "$version" = mergedVersion (newInstance ctor) old delta).
Proof.
  intros snapshot run. split; [done|]. split; [done|]. unfold run, snapshot.
  split; [|split].
  - intros delta Hstep Hdiscard. rewrite (dispatch_discard _ _ _ _ _ _ _ _ Hstep Hdiscard).
    simpl.
    split_and!; [done| |done]. rewrite savedStates_app. simpl. by rewrite app_nil_r.
  - intros Hstep. rewrite (dispatch_nothing _ _ _ _ _ _ _ Hstep). simpl.
    split_and!; [done| |done]. rewrite savedStates_app. simpl. by rewrite app_nil_r.
  - intros delta Hstep Hkeep.
    rewrite (dispatch_save _ _ _ _ _ _ _ _ Hstep Hkeep). simpl.
    split_and!; [done| |].
    + rewrite !savedStates_app. simpl.
      destruct (p_saveWorkflowState _ _ _).2; simpl; by rewrite app_nil_r.
    + unfold mergedVersion. apply get_assign3.
Qed.

Lemma extends_refl (w : World S) : extends w w.
Proof. unfold extends. split_and!; [lia | done | done]. Qed.

Lemma extends_trans (w1 w2 w3 : World S) : extends w1 w2 -> extends w2 w3 -> extends w1 w3.
Proof.
  intros (Hn & Hf & Hh) (Hn' & Hf' & Hh'). split_and!.
  - lia.
  - intros k Hk. rewrite Hf' by lia. by apply Hf.
  - intros n h Hin. by apply Hh', Hh.
Qed.

Lemma installed_extends (mt : MessageType) (c : Closure) (w w' : World S) :
  extends w w' -> installed mt c w -> installed mt c w'.
Proof.
  intros (Hn & Hf & Hh) (h & Hin & Hlt & Hc). exists h. split_and!.
  - by apply Hh.
  - lia.
  - by rewrite Hf.
Qed.

(** One registration by the workflow registry: a new function object is
    never registered yet, so the registration succeeds unless the message
    name is one that objects inherit. *)
Lemma register_new_function (mt : MessageType) (c : Closure) (w : World S) :
  refsBelow w ->
  exists w' r,
    bind (newFunction c) (fun fn => callRegister mt fn) w = (w', r)
    /\ refsBelow w' /\ extends w w' /\ sameOutsideRegistry w w'
    /\ (r = Ok tt /\ installed mt c w'
        \/ r = Throw inheritedNameError /\ inherited (ctor_name mt) = true).
Proof.
  intros Hbelow.
  set (h := {| fn_ref := nextFunction w; fn_name := "" |}).
  assert (Hfresh : ~ In h (handlersFor (handlerRegistry w) (ctor_name mt))).
  { intros Hin. apply Hbelow in Hin. simpl in Hin. lia. }
  unfold bind, newFunction, callRegister, HandlerRegistry.register. simpl. fold h.
  destruct (registerByName mt h (handlerRegistry w)) as [r' res] eqn:Hreg.
  eexists _, _. split; [reflexivity|].
  destruct (registerByName_outcome mt h (handlerRegistry w))
    as [Hok|[Hdup|(Herr & Hsame & Hin & _)]];
    [|by apply registerByName_throws_iff in Hdup|]; rewrite Hreg in *; simpl in *.
  - pose proof (registerByName_ok_handlersFor mt h (handlerRegistry w)) as Hhandlers.
    rewrite Hreg in Hhandlers. simpl in Hhandlers. specialize (Hhandlers Hok).
    split; [|split; [|split; [done|left; split; [done|]]]].
    + intros n k. simpl. rewrite Hhandlers. destruct (decide _).
      * rewrite in_app_iff. intros [Hin|[<-|[]]]; [apply Hbelow in Hin|simpl]; lia.
      * intros Hin. apply Hbelow in Hin. lia.
    + unfold extends. simpl. split_and!; [lia | |].
      * intros k Hk. apply lookup_insert_ne. lia.
      * intros n k Hin. rewrite Hhandlers. destruct (decide _); [|done].
        apply in_app_iff. by left.
    + exists h. simpl. rewrite Hhandlers, decide_True by done. split_and!.
      * apply in_app_iff. right. by left.
      * lia.
      * apply lookup_insert_eq.
  - subst r'. split; [|split; [|split; [done|right; done]]].
    + intros n k Hk. simpl. apply Hbelow in Hk. lia.
    + unfold extends. simpl. split_and!; [lia | | done].
      intros k Hk. apply lookup_insert_ne. lia.
Qed.

Lemma forEach_ext {A} (f g : A -> M S unit) (l : list A) :
  (forall x, f x = g x) -> forEach f l = forEach g l.
Proof. intros Hfg. induction l as [|x l IH]; [done|]. simpl. by rewrite Hfg, IH. Qed.

Lemma sameOutsideRegistry_refl (w : World S) : sameOutsideRegistry w w.
Proof. unfold sameOutsideRegistry. done. Qed.

Lemma sameOutsideRegistry_trans (w1 w2 w3 : World S) :
  sameOutsideRegistry w1 w2 -> sameOutsideRegistry w2 w3 -> sameOutsideRegistry w1 w3.
Proof.
  unfold sameOutsideRegistry. intros (?&?&?&?&?&?) (?&?&?&?&?&?).
  split_and!; congruence.
Qed.

Lemma forEach_register_new {A} (key : A -> MessageType) (mk : A -> Closure)
    (l : list A) (w : World S) :
  refsBelow w ->
  exists w' r,
    forEach (fun x => bind (newFunction (mk x)) (fun fn => callRegister (key x) fn)) l w
      = (w', r)
    /\ refsBelow w' /\ extends w w' /\ sameOutsideRegistry w w'
    /\ (r = Ok tt /\ (forall x, In x l -> installed (key x) (mk x) w')
        \/ r = Throw inheritedNameError
           /\ exists x, In x l /\ inherited (ctor_name (key x)) = true).
Proof.
  revert w. induction l as [|x l IH]; intros w Hbelow.
  - exists w, (Ok tt).
    split_and!; [done | done | apply extends_refl | apply sameOutsideRegistry_refl |].
    left. split; [done|]. intros ? [].
  - destruct (register_new_function (key x) (mk x) w Hbelow)
      as (w1 & r1 & Hstep & Hbelow1 & Hext1 & Hsame1 & Hout1).
    destruct Hout1 as [[-> Hinst1]|[-> Hname]].
    + destruct (IH w1 Hbelow1) as (w2 & r2 & Hrest & Hbelow2 & Hext2 & Hsame2 & Hout2).
      exists w2, r2. split_and!.
      * simpl. unfold bind at 1. rewrite Hstep. exact Hrest.
      * done.
      * by eapply extends_trans.
      * by eapply sameOutsideRegistry_trans.
      * destruct Hout2 as [[-> Hinst2]|[-> (y & Hy & Hname)]].
        -- left. split; [done|].
           intros y [<-|Hy]; [by eapply installed_extends | by apply Hinst2].
        -- right. split; [done|]. exists y. split; [by right | done].
    + exists w1, (Throw inheritedNameError). split_and!; try done.
      * simpl. unfold bind at 1. by rewrite Hstep.
      * right. split; [done|]. exists x. split; [by left | done].
Qed.

Lemma registerFnStartedBy_installs (workflow : Workflow) (w : World S) :
  refsBelow w ->
  exists w' r,
    registerFnStartedBy workflow w = (w', r)
    /\ refsBelow w' /\ extends w w' /\ sameOutsideRegistry w w'
    /\ (r = Ok tt /\ startersInstalled workflow w'
        \/ r = Throw inheritedNameError /\ ~ namesNotInherited workflow).
Proof.
  intros Hbelow.
  destruct (forEach_register_new fst (fun x => StartedByFn workflow (snd x))
              (onStartedBy workflow) w Hbelow)
    as (w' & r & Hrun & Hbelow' & Hext & Hsame & Hout).
  exists w', r. split_and!; try done.
  - unfold registerFnStartedBy. erewrite forEach_ext; [exact Hrun|].
    by intros [mt step].
  - destruct Hout as [[-> Hinst]|[-> (x & Hx & Hname)]]; [left | right]; split; try done.
    + intros mt step Hin. apply (Hinst (mt, step) Hin).
    + intros Hall. unfold namesNotInherited, messageTypes in Hall.
      apply Forall_app in Hall as [Hall _].
      rewrite Forall_forall in Hall. specialize (Hall (fst x)).
      rewrite Hall in Hname; [done|]. by apply list_elem_of_In, in_map.
Qed.

Lemma handlersInstalled_extends (workflow : Workflow) (w w' : World S) :
  extends w w' -> handlersInstalled workflow w -> handlersInstalled workflow w'.
Proof. intros Hext Hinst mt h Hin. eapply installed_extends; eauto. Qed.

Lemma registerFnHandles_installs (workflow : Workflow) (w : World S) :
  refsBelow w ->
  exists w' r,
    registerFnHandles workflow w = (w', r)
    /\ refsBelow w' /\ extends w w' /\ sameOutsideRegistry w w'
    /\ (r = Ok tt /\ handlersInstalled workflow w'
        \/ r = Throw inheritedNameError /\ ~ namesNotInherited workflow).
Proof.
  intros Hbelow.
  destruct (forEach_register_new fst
              (fun x : MessageType * OnWhenHandler =>
                 HandlesFn workflow
                   {| lookup := lookup (when_options (snd x));
                      mapsTo := mapsTo (when_options (snd x)) |}
                   (when_handler (snd x)))
              (onWhen workflow) w Hbelow)
    as (w' & r & Hrun & Hbelow' & Hext & Hsame & Hout).
  exists w', r. split_and!; try done.
  - unfold registerFnHandles. erewrite forEach_ext; [exact Hrun|].
    by intros [mt h].
  - destruct Hout as [[-> Hinst]|[-> (x & Hx & Hname)]]; [left | right]; split; try done.
    + intros mt h Hin. apply (Hinst (mt, h) Hin).
    + intros Hall. unfold namesNotInherited, messageTypes in Hall.
      apply Forall_app in Hall as [_ Hall].
      rewrite Forall_forall in Hall. specialize (Hall (fst x)).
      rewrite Hall in Hname; [done|]. by apply list_elem_of_In, in_map.
Qed.

Lemma bind_ok {A B} (m : M S A) (k : A -> M S B) (w w' : World S) (a : A) :
  m w = (w', Ok a) -> bind m k w = k a w'.
Proof. unfold bind. by intros ->. Qed.

Lemma bind_throw {A B} (m : M S A) (k : A -> M S B) (w w' : World S) (e : exn) :
  m w = (w', Throw e) -> bind m k w = (w', Throw e).
Proof. unfold bind. by intros ->. Qed.

Lemma startersInstalled_extends (workflow : Workflow) (w w' : World S) :
  extends w w' -> startersInstalled workflow w -> startersInstalled workflow w'.
Proof. intros Hext Hinst mt step Hin. eapply installed_extends; eauto. Qed.

(** One turn of the loop of [initialize], up to its [await]: both kinds
    of handlers are registered, then [initializeWorkflow] is called; or a
    registration throws, which ends the call. *)
Lemma initializeLoop_turn (index : nat) (workflow : Workflow) (w : World S) :
  refsBelow w ->
  workflowRegistry w !! index = Some workflow ->
  exists w1,
    refsBelow w1 /\ extends w w1 /\ sameOutsideRegistry w w1
    /\ (startersInstalled workflow w1 /\ handlersInstalled workflow w1
        /\ initializeLoop persistence index w =
             (setStorage
                (p_initializeWorkflow persistence (stateType workflow) (mappingsOf workflow)
                   (storage w1)).1
                (addEvents [CallInitializeWorkflow (stateType workflow) (mappingsOf workflow)]
                   w1),
              match (p_initializeWorkflow persistence (stateType workflow)
                       (mappingsOf workflow) (storage w1)).2 with
              | Ok _ => Ok (Suspended (AwaitInitializeWorkflow index))
              | Throw e => Throw e
              end)
        \/ initializeLoop persistence index w = (w1, Throw inheritedNameError)
           /\ ~ namesNotInherited workflow).
Proof.
  intros Hbelow Hlookup.
  destruct (registerFnStartedBy_installs workflow w Hbelow)
    as (wa & ra & Hrun_a & Hbelow_a & Hext_a & Hsame_a & Hout_a).
  destruct Hout_a as [[-> Hinst_a]|[-> Hname]].
  - destruct (registerFnHandles_installs workflow wa Hbelow_a)
      as (wb & rb & Hrun_b & Hbelow_b & Hext_b & Hsame_b & Hout_b).
    exists wb. split_and!.
    + done.
    + by eapply extends_trans.
    + by eapply sameOutsideRegistry_trans.
    + destruct Hout_b as [[-> Hinst_b]|[-> Hname]]; [left | right].
      * split; [by eapply startersInstalled_extends|]. split; [done|].
        unfold initializeLoop.
        unfold bind at 1. unfold readWorld at 1. rewrite Hlookup.
        rewrite (bind_ok _ _ _ _ _ Hrun_a), (bind_ok _ _ _ _ _ Hrun_b).
        unfold bind. rewrite callPersistence_eq. fold (mappingsOf workflow).
        by destruct (p_initializeWorkflow _ _ _ _).2 as [[]|e].
      * split; [|done]. unfold initializeLoop.
        unfold bind at 1. unfold readWorld at 1. rewrite Hlookup.
        by rewrite (bind_ok _ _ _ _ _ Hrun_a), (bind_throw _ _ _ _ _ Hrun_b).
  - exists wa. split_and!; try done. right. split; [|done].
    unfold initializeLoop.
    unfold bind at 1. unfold readWorld at 1. rewrite Hlookup.
    by rewrite (bind_throw _ _ _ _ _ Hrun_a).
Qed.

Lemma sameRegistry_refsBelow (w w' : World S) :
  sameRegistry w w' -> refsBelow w -> refsBelow w'.
Proof. intros (Hr & _ & Hn) Hbelow n h. rewrite Hr, Hn. apply Hbelow. Qed.

Lemma sameRegistry_extends (w w' : World S) : sameRegistry w w' -> extends w w'.
Proof.
  intros (Hr & Hf & Hn). unfold extends. rewrite Hr, Hf, Hn.
  split_and!; [lia | done | done].
Qed.

(** What follows the loop of [initialize]. *)
Lemma initializeLoop_exit (index : nat) (w : World S) :
  workflowRegistry w !! index = None ->
  let cleared :=
    mkWorld (handlerRegistry w) (functions w) (nextFunction w) (storage w)
      (uuidsDrawn w) [] (isInitialized w) (isInitializing w) (trace w) in
  initializeLoop persistence index w =
    match p_initialize persistence with
    | Some init =>
        (setStorage (init (storage w)).1 (addEvents [CallInitialize] cleared),
         match (init (storage w)).2 with
         | Ok _ => Ok (Suspended AwaitPersistenceInitialize)
         | Throw e => Throw e
         end)
    | None => initializeEnd cleared
    end.
Proof.
  intros Hlookup cleared. unfold initializeLoop.
  unfold bind at 1. unfold readWorld at 1. rewrite Hlookup.
  unfold bind at 1. unfold setWorkflows at 1. fold cleared.
  destruct (p_initialize persistence) as [init|]; [|done].
  unfold bind. rewrite callPersistence_eq. simpl storage.
  by destruct (init (storage w)).2 as [[]|e].
Qed.

Lemma initializeEnd_eq (w : World S) :
  initializeEnd w =
    (mkWorld (handlerRegistry w) (functions w) (nextFunction w) (storage w)
       (uuidsDrawn w) (workflowRegistry w) true false
       (trace w ++ [Log LInfo "Workflows initialized"]),
     Ok Returned).
Proof. done. Qed.

Lemma initializeRun_Returned (fuel : nat) (w : World S) :
  initializeRun persistence fuel Returned w = (w, Ok (Some tt)).
Proof. by destruct fuel. Qed.

Lemma initializedTypes_app (e1 e2 : list Event) :
  initializedTypes (e1 ++ e2) = initializedTypes e1 ++ initializedTypes e2.
Proof. apply omap_app. Qed.

Lemma initializeRun_resume_loop (fuel index : nat) (w : World S) :
  initializeRun persistence (Datatypes.S fuel) (Suspended (AwaitInitializeWorkflow index)) w
  = bind (initializeLoop persistence (Datatypes.S index)) (initializeRun persistence fuel)
      (addEvents [Log LDebug "Workflow initialized"] w).
Proof. done. Qed.

(** The errors of the loop of [initialize]: those of the persistence and
    the one of a registration under an inherited name. *)
Lemma initializeLoop_throw (index : nat) (w w1 : World S) (e : exn) :
  refsBelow w ->
  initializeLoop persistence index w = (w1, Throw e) ->
  persistenceThrows persistence e
  \/ e = inheritedNameError
     /\ exists workflow, workflowRegistry w !! index = Some workflow
                         /\ ~ namesNotInherited workflow.
Proof.
  intros Hbelow Hloop.
  destruct (workflowRegistry w !! index) as [workflow|] eqn:Hlookup.
  - destruct (initializeLoop_turn index workflow w Hbelow Hlookup)
      as (wb & _ & _ & _ & [(_ & _ & Hturn)|[Hturn Hname]]).
    + rewrite Hturn in Hloop.
      destruct (p_initializeWorkflow persistence _ _ (storage wb)).2 as [[]|e'] eqn:Hcall;
        [done|].
      injection Hloop as _ <-. left. left. eauto.
    + rewrite Hturn in Hloop. injection Hloop as _ <-. right. eauto.
  - rewrite (initializeLoop_exit index w Hlookup) in Hloop.
    destruct (p_initialize persistence) as [init|] eqn:Hinit; [|done].
    destruct (init (storage w)).2 as [[]|e'] eqn:Hcall; [done|].
    injection Hloop as _ <-. left. right. eauto.
Qed.

(** A call of [initialize] that has entered its loop runs to its end
    within the fuel given.  When it returns normally, every workflow from
    the iterator's position on has its handlers installed,
    [initializeWorkflow] was called once for each of them, in order, then
    the persistence's [initialize], the buffer is empty and the registry
    is marked initialised.  When it fails, the error is the persistence's
    or that of a registration, the flags are as they were on entry and
    the buffer is as it was or empty. *)
Lemma initializeRun_loop (n : nat) :
  forall (index : nat) (w : World S) (fuel : nat),
    (List.length (workflowRegistry w) - index <= n)%nat ->
    (n + 1 <= fuel)%nat ->
    refsBelow w ->
    forall w1 r1, initializeLoop persistence index w = (w1, r1) ->
    exists w' r,
      match r1 with
      | Ok p => initializeRun persistence fuel p w1
      | Throw e => (w1, Throw e)
      end = (w', r)
      /\ r <> Ok None
      /\ (r = Ok (Some tt) ->
          extends w w' /\ refsBelow w' /\ workflowRegistry w' = []
          /\ isInitialized w' = true /\ isInitializing w' = false
          /\ initializedTypes (trace w') =
               initializedTypes (trace w) ++ map stateType (drop index (workflowRegistry w))
          /\ storage w' =
               persistenceInitialized persistence
                 (workflowsInitialized persistence (drop index (workflowRegistry w))
                    (storage w))
          /\ forall j workflow, (index <= j)%nat ->
               workflowRegistry w !! j = Some workflow ->
               startersInstalled workflow w' /\ handlersInstalled workflow w')
      /\ (forall e, r = Throw e ->
            (persistenceThrows persistence e \/ registrationThrows w e)
            /\ isInitializing w' = isInitializing w /\ isInitialized w' = isInitialized w
            /\ (workflowRegistry w' = workflowRegistry w \/ workflowRegistry w' = [])).
Proof.
  induction n as [|n IH]; intros index w fuel Hlen Hfuel Hbelow w1 r1 Hloop.
  - (* the iterator is at the end of the buffer *)
    assert (Hnone : workflowRegistry w !! index = None).
    { apply lookup_ge_None. lia. }
    rewrite (initializeLoop_exit index w Hnone) in Hloop.
    rewrite drop_ge by lia. simpl. rewrite app_nil_r.
    unfold persistenceInitialized.
    destruct fuel as [|fuel]; [lia|].
    destruct (p_initialize persistence) as [init|] eqn:Hp.
    + destruct (init (storage w)).2 as [[]|e] eqn:Hinit; injection Hloop as <- <-.
      * simpl initializeRun. unfold initializeResume, bind.
        rewrite initializeEnd_eq, initializeRun_Returned.
        eexists _, _. split; [reflexivity|]. split; [done|]. split; [|done]. intros _.
        simpl.
        split; [by apply sameRegistry_extends|].
        split; [by eapply sameRegistry_refsBelow|].
        do 3 (split; [done|]). split; [|split; [done|]].
        -- rewrite !initializedTypes_app. simpl. by rewrite !app_nil_r.
        -- intros j workflow Hj Hsome. apply lookup_lt_Some in Hsome. lia.
      * eexists _, _. split; [reflexivity|]. split; [done|]. split; [done|].
        intros e' [= <-]. simpl. split; [|auto]. left. right. eauto.
    + rewrite initializeEnd_eq in Hloop. injection Hloop as <- <-.
      rewrite initializeRun_Returned.
      eexists _, _. split; [reflexivity|]. split; [done|]. split; [|done]. intros _.
      simpl.
      split; [by apply sameRegistry_extends|].
      split; [by eapply sameRegistry_refsBelow|].
      do 3 (split; [done|]). split; [|split; [done|]].
      * rewrite !initializedTypes_app. simpl. by rewrite !app_nil_r.
      * intros j workflow Hj Hsome. apply lookup_lt_Some in Hsome. lia.
  - destruct (workflowRegistry w !! index) as [workflow|] eqn:Hlookup.
    + destruct (initializeLoop_turn index workflow w Hbelow Hlookup)
        as (wb & Hbelow_b & Hext_b & Hsame_b & [(Hinst_a & Hinst_b & Hturn)|[Hturn Hname]]).
      * rewrite Hturn in Hloop.
        destruct Hsame_b as (Hst & Htr & Hws & Hi1 & Hi2 & _).
        rewrite (drop_S _ _ _ Hlookup). simpl.
        destruct (p_initializeWorkflow persistence (stateType workflow) (mappingsOf workflow)
                    (storage wb)) as [s2 [[]|e]] eqn:Hcall; simpl in Hloop;
          injection Hloop as <- <-.
        -- destruct fuel as [|fuel]; [lia|].
           rewrite initializeRun_resume_loop.
           set (w2 := setStorage s2 _) in *.
           set (w3 := addEvents [Log LDebug "Workflow initialized"] w2) in *.
           assert (Hreg3 : sameRegistry wb w3) by done.
           assert (Hws3 : workflowRegistry w3 = workflowRegistry w) by done.
           unfold bind.
           destruct (initializeLoop persistence (Datatypes.S index) w3) as [w4 r4] eqn:Hnext.
           destruct (IH (Datatypes.S index) w3 fuel) with (w1 := w4) (r1 := r4)
             as (w' & r & Hrun & Hfuel' & Hok & Hthrow); [rewrite Hws3; lia | lia | | done |].
           { by eapply sameRegistry_refsBelow. }
           exists w', r. split; [by destruct r4|]. split; [done|]. split.
           ++ intros Hr.
              destruct (Hok Hr) as (Hext & Hb & Hnil & Hf1 & Hf2 & Htypes & Hstorage & Hall).
              rewrite Hws3 in Htypes, Hstorage.
              assert (Hext3 : extends wb w').
              { eapply extends_trans; [apply sameRegistry_extends; exact Hreg3 | exact Hext]. }
              split; [by eapply extends_trans|]. do 4 (split; [done|]).
              split; [|split].
              ** rewrite Htypes. unfold w3, w2. simpl. rewrite Htr.
                 rewrite !initializedTypes_app. simpl. rewrite !app_nil_r.
                 by rewrite <- app_assoc.
              ** rewrite Hstorage. unfold w3, w2. simpl.
                 unfold workflowsInitialized at 2. simpl. by rewrite <- Hst, Hcall.
              ** intros j workflow' Hj Hsome.
                 destruct (decide (j = index)) as [->|Hne].
                 --- rewrite Hlookup in Hsome. injection Hsome as <-.
                     split.
                     +++ by eapply startersInstalled_extends.
                     +++ by eapply handlersInstalled_extends.
                 --- apply (Hall j workflow'); [lia | by rewrite Hws3].
           ++ intros e He. destruct (Hthrow e He) as (Horigin & H1 & H2 & H3).
              unfold w3, w2 in H1, H2, H3. simpl in H1, H2, H3.
              rewrite H1, H2. split; [|split; [done|split; [done|by rewrite <- Hws]]].
              destruct Horigin as [Hp|[-> (workflow' & Hin & Hname)]]; [by left|].
              right. split; [done|]. exists workflow'. by rewrite <- Hws3.
        -- eexists _, _. split; [reflexivity|]. split; [done|]. split; [done|].
           intros e' [= <-]. simpl. split; [|auto]. left. left.
           exists (stateType workflow), (mappingsOf workflow), (storage wb). by rewrite Hcall.
      * rewrite Hturn in Hloop. injection Hloop as <- <-.
        destruct Hsame_b as (Hst & Htr & Hws & Hi1 & Hi2 & _).
        eexists _, _. split; [reflexivity|]. split; [done|]. split; [done|].
        intros e' [= <-]. split; [|auto].
        right. split; [done|]. exists workflow. split; [|done].
        by eapply list_elem_of_In, list_elem_of_lookup_2.
    + apply (IH index w fuel) with (w1 := w1) (r1 := r1); [|lia|done|done].
      apply lookup_ge_None in Hlookup. lia.
Qed.

Lemma initializeCall_eq (w : World S) :
  initializeCall persistence w =
    if (List.length (workflowRegistry w) =? 0)%nat then
      (addEvents [Log LInfo "No workflows registered, skipping this step."] w, Ok Returned)
    else if isInitialized w || isInitializing w then
      (w, Throw (Error
         "Attempted to initialize workflow registry after it has already been initialized."))
    else
      initializeLoop persistence 0
        (addEvents [Log LInfo "Initializing workflows..."]
           (mkWorld (handlerRegistry w) (functions w) (nextFunction w) (storage w)
              (uuidsDrawn w) (workflowRegistry w) (isInitialized w) true (trace w))).
Proof.
  unfold initializeCall, bind, readWorld.
  destruct (List.length (workflowRegistry w) =? 0)%nat; [done|].
  destruct (isInitialized w || isInitializing w); [done|].
  simpl. by destruct (initializeLoop _ _ _) as [? []].
Qed.

Lemma initialize_eq (w : World S) :
  initialize persistence w =
    bind (initializeCall persistence)
      (initializeRun persistence (Datatypes.S (List.length (workflowRegistry w)))) w.
Proof. done. Qed.

Lemma initialize_enters_loop (w : World S) :
  workflowRegistry w <> [] ->
  isInitialized w || isInitializing w = false ->
  initialize persistence w =
    bind (initializeLoop persistence 0)
      (initializeRun persistence (Datatypes.S (List.length (workflowRegistry w))))
      (addEvents [Log LInfo "Initializing workflows..."]
         (mkWorld (handlerRegistry w) (functions w) (nextFunction w) (storage w)
            (uuidsDrawn w) (workflowRegistry w) (isInitialized w) true (trace w))).
Proof.
  intros Hne Hflags. rewrite initialize_eq. unfold bind. rewrite initializeCall_eq, Hflags.
  destruct (workflowRegistry w); done.
Qed.

(** [initialize] run to its end: the fuel suffices; an error can only
    come from the persistence, from a registration under an inherited
    name, or from the guard against a second call; and an uninterrupted
    first call installs the handlers of every buffered workflow, calls
    [initializeWorkflow] for each, empties the buffer and marks the
    registry initialised. *)
Lemma initialize_runs (w : World S) :
  refsBelow w ->
  exists w' r,
    initialize persistence w = (w', r)
    /\ r <> Ok None
    /\ (forall e, r = Throw e ->
          persistenceThrows persistence e
          \/ registrationThrows w e
          \/ (isInitialized w || isInitializing w = true /\ workflowRegistry w <> []))
    /\ (r = Ok (Some tt) ->
        workflowRegistry w' = []
        /\ (workflowRegistry w <> [] ->
            extends w w' /\ refsBelow w'
            /\ isInitialized w' = true /\ isInitializing w' = false
            /\ initializedTypes (trace w') =
                 initializedTypes (trace w) ++ map stateType (workflowRegistry w)
            /\ storage w' =
                 persistenceInitialized persistence
                   (workflowsInitialized persistence (workflowRegistry w) (storage w))
            /\ forall workflow, In workflow (workflowRegistry w) ->
                 startersInstalled workflow w' /\ handlersInstalled workflow w'))
    /\ (forall e, r = Throw e -> workflowRegistry w <> [] ->
        isInitialized w || isInitializing w = false ->
        isInitializing w' = true /\ isInitialized w' = isInitialized w
        /\ (workflowRegistry w' = workflowRegistry w \/ workflowRegistry w' = [])).
Proof.
  intros Hbelow. rewrite initialize_eq. unfold bind. rewrite initializeCall_eq.
  destruct (workflowRegistry w) as [|workflow0 rest] eqn:Hws.
  - simpl. eexists _, _. split; [reflexivity|].
    split; [done|]. split; [done|]. split; [|done]. intros _. simpl. by rewrite Hws.
  - simpl Nat.eqb. cbv iota.
    destruct (isInitialized w || isInitializing w) eqn:Hflags.
    + eexists _, _. split; [reflexivity|]. split; [done|]. split; [|split; [done|done]].
      intros e _. right. by right.
    + set (w2 := addEvents [Log LInfo "Initializing workflows..."] _).
      assert (Hbelow2 : refsBelow w2) by (by eapply sameRegistry_refsBelow).
      assert (Hws2 : workflowRegistry w2 = workflow0 :: rest) by done.
      destruct (initializeLoop persistence 0 w2) as [w1 r1] eqn:Hloop.
      destruct (initializeRun_loop (List.length (workflow0 :: rest)) 0 w2
                  (Datatypes.S (List.length (workflow0 :: rest))))
        with (w1 := w1) (r1 := r1)
        as (w' & r & Hrun & Hfuel & Hok & Hthrow);
        [rewrite Hws2; lia | lia | done | done |].
      exists w', r. split; [by destruct r1|].
      split; [done|]. split; [|split].
      * intros e He. destruct (Hthrow e He) as ([Hp|[-> Hreg]] & _); [by left|].
        right. left. split; [done|]. by rewrite Hws.
      * intros Hr.
        destruct (Hok Hr) as (Hext & Hb & Hnil & Hi1 & Hi2 & Htypes & Hstorage & Hall).
        split; [done|]. intros _.
        split; [eapply extends_trans; [apply sameRegistry_extends|exact Hext]; done|].
        do 3 (split; [done|]).
        rewrite Hws2, drop_0 in Htypes, Hstorage. split; [|split; [done|]].
        -- rewrite Htypes. unfold w2. simpl. rewrite initializedTypes_app. simpl.
           by rewrite app_nil_r.
        -- intros workflow Hin. apply list_elem_of_In, list_elem_of_lookup in Hin as [j Hj].
           apply (Hall j workflow); [lia | by rewrite Hws2].
      * intros e He _ _. destruct (Hthrow e He) as (_ & H1 & H2 & H3).
        simpl in H1, H2, H3. split; [done|]. split; [done|]. done.
Qed.

Lemma startedByFn_eq (workflow : Workflow) (step : WhenHandler) (message : Message)
    (attrs : MessageAttributes) (u : World S) :
  let state := createdState uuid_v4 (stateType workflow) u in
  let entered := addEvents [InvokeStep message attrs (freezeCopy state)] (uuidDrawn u) in
  startedByFn persistence uuid_v4 workflow step message attrs u =
    match step message attrs (freezeCopy state) with
    | Ok (Some delta) =>
        let saved := p_saveWorkflowState persistence (spread state delta) (storage u) in
        (setStorage saved.1 (addEvents [CallSaveWorkflowState (spread state delta)] entered),
         saved.2)
    | Ok None => (entered, Ok tt)
    | Throw e => (entered, Throw e)
    end.
Proof.
  intros state entered.
  unfold startedByFn, createWorkflowState, invoke, bind, drawUuid, ret. simpl.
  fold (createdState uuid_v4 (stateType workflow) u). fold state.
  destruct (step message attrs (freezeCopy state)) as [[delta|]|e]; [|done|done].
  unfold throw. rewrite callPersistence_eq. done.
Qed.

Lemma createdState_get (ctor : StateType) (u : World S) (k : string) :
  get (createdState uuid_v4 ctor u) k =
    if decide (k = "$workflowId") then VStr (uuid_v4 (uuidsDrawn u))
    else if decide (k = "$status") then Running
    else get (newInstance ctor) k.
Proof.
  unfold createdState, get.
  destruct (decide (k = "$workflowId")) as [->|Hid]; [by rewrite lookup_insert_eq|].
  rewrite lookup_insert_ne by done.
  destruct (decide (k = "$status")) as [->|Hst]; [by rewrite lookup_insert_eq|].
  by rewrite lookup_insert_ne.
Qed.

(** C3 (amended): for every buffered workflow and every one of its
    [onStartedBy(MsgType, step)] pairs, an [initialize] that returns has
    registered under the message's name a function object with the
    following behaviour.  It creates a state from a new instance of the
    state type with [$workflowId] the identifier drawn from the UUID
    generator and [$status] Running, its [$version] being the new
    instance's (0 for a workflow state); it invokes the step on a frozen
    copy of that state; and exactly when the step returns a delta it calls
    [saveWorkflowState], once, with [{...state, ...delta}].  The merge is
    given no [$version] of its own: it carries the delta's when the delta
    has one and the state's 0 otherwise. *)
Theorem startedBy_handler
    (w w' u : World S) (workflow : Workflow) (mt : MessageType) (step : WhenHandler)
    (message : Message) (attrs : MessageAttributes) :
  refsBelow w ->
  In workflow (workflowRegistry w) ->
  In (mt, step) (onStartedBy workflow) ->
  initialize persistence w = (w', Ok (Some tt)) ->
  let state := createdState uuid_v4 (stateType workflow) u in
  let snapshot := freezeCopy state in
  let entered := addEvents [InvokeStep message attrs snapshot] (uuidDrawn u) in
  let run := runClosure persistence uuid_v4 (StartedByFn workflow step) message attrs u in
  installed mt (StartedByFn workflow step) w'
  /\ get state "$workflowId" = VStr (uuid_v4 (uuidsDrawn u))
  /\ get state "$status" = Running
  /\ get state "$version" = get (newInstance (stateType workflow)) "$version"
  /\ own snapshot = state /\ frozen snapshot = true
  /\ (step message attrs snapshot = Ok None ->
      run = (entered, Ok tt) /\ savedStates (trace run.1) = savedStates (trace u))
  /\ (forall e, step message attrs snapshot = Throw e ->
      run = (entered, Throw e) /\ savedStates (trace run.1) = savedStates (trace u))
  /\ (forall delta, step message attrs snapshot = Ok (Some delta) ->
      let merged := spread state delta in
      let saved := p_saveWorkflowState persistence merged (storage u) in
      run = (setStorage saved.1 (addEvents [CallSaveWorkflowState merged] entered), saved.2)
      /\ savedStates (trace run.1) = savedStates (trace u) ++ [merged]
      /\ get merged "$version" =
           match delta !! "$version" with
           | Some v => v
           | None => get (newInstance (stateType workflow)) "$version"
           end).
Proof.
  intros Hbelow Hin Hpair Hinit state snapshot entered run.
  split.
  { destruct (initialize_runs w Hbelow) as (w'' & r & Hrun & _ & _ & Hok & _).
    rewrite Hinit in Hrun. injection Hrun as <- <-.
    destruct (Hok eq_refl) as [_ Hinstalled].
    destruct Hinstalled as (_ & _ & _ & _ & _ & _ & Hall).
    { intros Hnil. rewrite Hnil in Hin. destruct Hin. }
    by apply (Hall workflow Hin). }
  split; [unfold state; by rewrite createdState_get|].
  split; [unfold state; by rewrite createdState_get|].
  split; [unfold state; by rewrite createdState_get|].
  split; [done|]. split; [done|].
  assert (Hrun : run = _) by apply startedByFn_eq.
  fold state snapshot entered in Hrun.
  split; [|split].
  - intros Hstep. rewrite Hstep in Hrun. rewrite Hrun. split; [done|]. simpl.
    rewrite savedStates_app. simpl. by rewrite app_nil_r.
  - intros e Hstep. rewrite Hstep in Hrun. rewrite Hrun. split; [done|]. simpl.
    rewrite savedStates_app. simpl. by rewrite app_nil_r.
  - intros delta Hstep. rewrite Hstep in Hrun. rewrite Hrun. split; [done|]. simpl.
    split.
    + rewrite !savedStates_app. simpl. by rewrite app_nil_r.
    + rewrite get_spread. destruct (delta !! "$version"); [done|].
      unfold state. by rewrite createdState_get.
Qed.

End Dispatcher.

Lemma dispatch_persists_merge_witness :
  let ctor := {| className := "Order";
                 newInstance := <["$name" := VStr "order"]> {[ "$version" := VNum 0 ]} |} in
  let old : props :=
    <["$name" := VStr "order"]>
      (<["$workflowId" := VStr "a"]>
         (<["$status" := Running]> (<["$version" := VNum 3]> {[ "orderId" := VStr "X" ]}))) in
  let w : World InMemoryPersistence.WorkflowStorage :=
    mkWorld newRegistry ∅ 1%positive {[ "order" := [old] ]} 0%nat [] true false [] in
  let m := {| msg_name := Some "Paid"; msg_fields := {[ "orderId" := VStr "X" ]} |} in
  let a := {| correlationId := None; attributes := ∅; stickyAttributes := ∅ |} in
  let run step := WorkflowRegistry.dispatchMessageToWorkflow inMemory m a "orders" old ctor step w in
  let discard : WhenHandler := fun _ _ _ => Ok (Some {[ "$status" := Discard ]}) in
  let nothing : WhenHandler := fun _ _ _ => Ok None in
  let pay : WhenHandler := fun _ _ _ => Ok (Some {[ "paid" := VBool true ]}) in
  savedStates (trace (run discard).1) = []
  /\ savedStates (trace (run nothing).1) = []
  /\ savedStates (trace (run pay).1) = [<["paid" := VBool true]> old]
  /\ get (assign3 (newInstance ctor) old {[ "paid" := VBool true ]}) "$version" = VNum 3.
Proof.
  intros ctor old w m a run discard nothing pay.
  destruct (dispatch_persists_merge inMemory m a "orders" old ctor discard w)
    as (_ & _ & Hdiscard & _ & _).
  destruct (dispatch_persists_merge inMemory m a "orders" old ctor nothing w)
    as (_ & _ & _ & Hnothing & _).
  destruct (dispatch_persists_merge inMemory m a "orders" old ctor pay w)
    as (_ & _ & _ & _ & Hpay).
  destruct (Hdiscard {[ "$status" := Discard ]} eq_refl eq_refl) as (_ & Hd & _).
  destruct (Hnothing eq_refl) as (_ & Hn & _).
  assert (Hkeep : get ({[ "paid" := VBool true ]} : props) "$status" <> Discard)
    by discriminate.
  destruct (Hpay {[ "paid" := VBool true ]} eq_refl Hkeep) as (_ & Hs & Hv).
  split_and!; [exact Hd | exact Hn | | ].
  - etrans; [exact Hs|]. reflexivity.
  - etrans; [exact Hv|]. reflexivity.
Defined.

(** C2 as stated fails in its last part: a step that returns the delta
    [{paid: true}] on a state of version 3 has the state saved, and stored
    by the in-memory backend, with [$version] 3, not 4. *)
Lemma dispatch_version_counterexample :
  let ctor := {| className := "Order";
                 newInstance := <["$name" := VStr "order"]> {[ "$version" := VNum 0 ]} |} in
  let old : props :=
    <["$name" := VStr "order"]>
      (<["$workflowId" := VStr "a"]>
         (<["$status" := Running]> (<["$version" := VNum 3]> {[ "orderId" := VStr "X" ]}))) in
  let w : World InMemoryPersistence.WorkflowStorage :=
    mkWorld newRegistry ∅ 1%positive {[ "order" := [old] ]} 0%nat [] true false [] in
  let m := {| msg_name := Some "Paid"; msg_fields := {[ "orderId" := VStr "X" ]} |} in
  let a := {| correlationId := None; attributes := ∅; stickyAttributes := ∅ |} in
  let pay : WhenHandler := fun _ _ _ => Ok (Some {[ "paid" := VBool true ]}) in
  let out := WorkflowRegistry.dispatchMessageToWorkflow inMemory m a "orders" old ctor pay w in
  get old "$version" = VNum 3
  /\ out.2 = Ok tt
  /\ savedStates (trace out.1) = [<["paid" := VBool true]> old]
  /\ storage out.1 = {[ "order" := [<["paid" := VBool true]> old] ]}
  /\ get (<["paid" := VBool true]> old) "$version" = VNum 3
  /\ get (<["paid" := VBool true]> old) "$version" <> VNum (3 + 1).
Proof.
  intros ctor old w m a pay out.
  split_and!; [reflexivity | reflexivity | reflexivity | reflexivity | reflexivity |].
  discriminate.
Qed.

Lemma newRegistry_refsBelow {S} (functions : gmap positive Closure) (next : positive) (s : S)
    (ws : list Workflow) :
  refsBelow (mkWorld newRegistry functions next s 0%nat ws false false []).
Proof.
  intros n h Hin. unfold handlersFor in Hin. simpl in Hin.
  rewrite lookup_empty in Hin. destruct Hin.
Qed.

Lemma startedBy_handler_witness :
  let ctor := {| className := "Order";
                 newInstance := <["$name" := VStr "order"]> {[ "$version" := VNum 0 ]} |} in
  let placed := {| ctor_ref := 1; ctor_name := "Placed" |} in
  let start : WhenHandler :=
    fun m _ _ => Ok (Some {[ "orderId" := get (msg_fields m) "orderId" ]}) in
  let workflow := {| workflowName := "orders"; stateType := ctor;
                     onStartedBy := [(placed, start)]; onWhen := [] |} in
  let w : World InMemoryPersistence.WorkflowStorage :=
    mkWorld newRegistry ∅ 1%positive ∅ 0%nat [workflow] false false [] in
  let w' := (WorkflowRegistry.initialize inMemory w).1 in
  let m := {| msg_name := Some "Placed"; msg_fields := {[ "orderId" := VStr "X" ]} |} in
  let a := {| correlationId := None; attributes := ∅; stickyAttributes := ∅ |} in
  let uuid := fun n : nat => pretty n in
  let state := createdState uuid ctor w' in
  let run := WorkflowRegistry.runClosure inMemory uuid (StartedByFn workflow start) m a w' in
  WorkflowRegistry.initialize inMemory w = (w', Ok (Some tt))
  /\ installed placed (StartedByFn workflow start) w'
  /\ get state "$workflowId" = VStr "0"
  /\ get state "$status" = Running
  /\ get state "$version" = VNum 0
  /\ savedStates (trace run.1) = [<["orderId" := VStr "X"]> state].
Proof.
  intros ctor placed start workflow w w' m a uuid state run.
  assert (Hinit : WorkflowRegistry.initialize inMemory w = (w', Ok (Some tt)))
    by (vm_compute; reflexivity).
  pose proof (startedBy_handler inMemory uuid w w' w' workflow placed start m a
                (newRegistry_refsBelow _ _ _ _)
                (or_introl eq_refl) (or_introl eq_refl) Hinit)
    as (Hinstalled & Hid & Hstatus & Hversion & _ & _ & _ & _ & Hsave).
  destruct (Hsave {[ "orderId" := VStr "X" ]} eq_refl) as (_ & Hsaved & _).
  split_and!; [exact Hinit | exact Hinstalled | exact Hid | exact Hstatus | | ].
  - etrans; [exact Hversion|]. reflexivity.
  - etrans; [exact Hsaved|]. reflexivity.
Defined.

(** C3 as stated fails in its last part: the state the installed handler
    saves carries [$version] 0, not 1. *)
Lemma startedBy_version_counterexample :
  let ctor := {| className := "Order";
                 newInstance := <["$name" := VStr "order"]> {[ "$version" := VNum 0 ]} |} in
  let placed := {| ctor_ref := 1; ctor_name := "Placed" |} in
  let start : WhenHandler :=
    fun m _ _ => Ok (Some {[ "orderId" := get (msg_fields m) "orderId" ]}) in
  let workflow := {| workflowName := "orders"; stateType := ctor;
                     onStartedBy := [(placed, start)]; onWhen := [] |} in
  let w : World InMemoryPersistence.WorkflowStorage :=
    mkWorld newRegistry ∅ 1%positive ∅ 0%nat [workflow] false false [] in
  let w' := (WorkflowRegistry.initialize inMemory w).1 in
  let m := {| msg_name := Some "Placed"; msg_fields := {[ "orderId" := VStr "X" ]} |} in
  let a := {| correlationId := None; attributes := ∅; stickyAttributes := ∅ |} in
  let uuid := fun n : nat => pretty n in
  let handler := {| fn_ref := 1; fn_name := "" |} in
  let run c := WorkflowRegistry.runClosure inMemory uuid c m a w' in
  let merged : props :=
    <["orderId" := VStr "X"]>
      (<["$workflowId" := VStr "0"]> (<["$status" := Running]> (newInstance ctor))) in
  (HandlerRegistry.get "Placed" (handlerRegistry w')).1 = Some [handler]
  /\ functions w' !! fn_ref handler = Some (StartedByFn workflow start)
  /\ (run (StartedByFn workflow start)).2 = Ok tt
  /\ savedStates (trace (run (StartedByFn workflow start)).1) = [merged]
  /\ storage (run (StartedByFn workflow start)).1 = {[ "order" := [merged] ]}
  /\ get merged "$version" = VNum 0
  /\ get merged "$version" <> VNum 1.
Proof.
  intros ctor placed start workflow w w' m a uuid handler run merged.
  split_and!; [vm_compute; reflexivity..|].
  discriminate.
Qed.

(** ** Initialising the workflow registry twice *)

(** After an [initialize] that returned, the buffer is empty, so a second
    call takes the early return and does not reach the guard. *)
Lemma initialize_then_initializeCall {S} (persistence : Persistence S) (w w' : World S) :
  refsBelow w ->
  WorkflowRegistry.initialize persistence w = (w', Ok (Some tt)) ->
  WorkflowRegistry.initializeCall persistence w' =
    (addEvents [Log LInfo "No workflows registered, skipping this step."] w',
     Ok WorkflowRegistry.Returned).
Proof.
  intros Hbelow Hinit.
  destruct (initialize_runs persistence w Hbelow) as (w'' & r & Hrun & _ & _ & Hok & _).
  rewrite Hinit in Hrun. injection Hrun as <- <-.
  destruct (Hok eq_refl) as [Hnil _].
  rewrite initializeCall_eq, Hnil. done.
Qed.

(** With the in-memory persistence, which raises nothing on
    initialisation, a first [initialize] returns, as long as no buffered
    workflow subscribes to a message type whose name objects inherit. *)
Lemma initialize_inMemory_returns (w : World InMemoryPersistence.WorkflowStorage) :
  refsBelow w ->
  isInitialized w || isInitializing w = false ->
  Forall namesNotInherited (workflowRegistry w) ->
  exists w', WorkflowRegistry.initialize inMemory w = (w', Ok (Some tt)).
Proof.
  intros Hbelow Hflags Hnames.
  destruct (initialize_runs inMemory w Hbelow) as (w' & r & Hrun & Hfuel & Hthrow & _).
  exists w'. rewrite Hrun. f_equal.
  destruct r as [[[]|]|e]; [done | done |].
  destruct (Hthrow e eq_refl)
    as [[(ctor & mappings & s & Hcall)|(init & s & Hinit & _)]
       |[(_ & workflow & Hin & Hname)|[Hf _]]].
  - discriminate Hcall.
  - discriminate Hinit.
  - rewrite Forall_forall in Hnames. destruct Hname. by apply Hnames, list_elem_of_In.
  - congruence.
Qed.

(** While the buffer is not empty, a call of [initialize] on a registry
    that is initialising or initialised throws. *)
Lemma initializeCall_guard {S} (persistence : Persistence S) (w : World S) :
  workflowRegistry w <> [] ->
  isInitialized w || isInitializing w = true ->
  WorkflowRegistry.initializeCall persistence w =
    (w, Throw (Error
       "Attempted to initialize workflow registry after it has already been initialized.")).
Proof.
  intros Hne Hflags. rewrite initializeCall_eq, Hflags.
  destruct (workflowRegistry w); done.
Qed.

(** C4 (the code at the failing input): with one workflow registered, the
    first [initialize] returns and leaves the buffer empty; a second
    [initialize] then returns normally as well.  A call made while the
    first is suspended inside its loop throws; a call made while the first
    is suspended on the persistence's own [initialize], after the buffer
    has been emptied, returns normally. *)
Theorem initialize_again_returns :
  let ctor := {| className := "Order";
                 newInstance := <["$name" := VStr "order"]> {[ "$version" := VNum 0 ]} |} in
  let workflow := {| workflowName := "orders"; stateType := ctor;
                     onStartedBy := []; onWhen := [] |} in
  let w0 : World InMemoryPersistence.WorkflowStorage :=
    mkWorld newRegistry ∅ 1%positive ∅ 0%nat [] false false [] in
  let w1 := (WorkflowRegistry.register workflow w0).1 in
  let w2 := (WorkflowRegistry.initialize inMemory w1).1 in
  let withInitialize :=
    {| p_initialize := Some (fun s => (s, Ok tt));
       p_initializeWorkflow := p_initializeWorkflow inMemory;
       p_getWorkflowState := p_getWorkflowState inMemory;
       p_saveWorkflowState := p_saveWorkflowState inMemory |} in
  let inLoop := (WorkflowRegistry.initializeCall withInitialize w1).1 in
  let afterLoop :=
    (WorkflowRegistry.initializeResume withInitialize (WorkflowRegistry.AwaitInitializeWorkflow 0)
       inLoop).1 in
  (WorkflowRegistry.register workflow w0).2 = Ok tt
  /\ List.length (workflowRegistry w1) = 1%nat
  /\ (WorkflowRegistry.initialize inMemory w1).2 = Ok (Some tt)
  /\ isInitialized w2 = true
  /\ workflowRegistry w2 = []
  /\ WorkflowRegistry.initializeCall inMemory w2 =
       (addEvents [Log LInfo "No workflows registered, skipping this step."] w2,
        Ok WorkflowRegistry.Returned)
  /\ (WorkflowRegistry.initialize inMemory w2).2 = Ok (Some tt)
  /\ (WorkflowRegistry.initializeCall withInitialize w1).2
       = Ok (WorkflowRegistry.Suspended (WorkflowRegistry.AwaitInitializeWorkflow 0))
  /\ (WorkflowRegistry.initializeCall withInitialize inLoop).2
       = Throw (Error
           "Attempted to initialize workflow registry after it has already been initialized.")
  /\ (WorkflowRegistry.initializeResume withInitialize
        (WorkflowRegistry.AwaitInitializeWorkflow 0) inLoop).2
       = Ok (WorkflowRegistry.Suspended WorkflowRegistry.AwaitPersistenceInitialize)
  /\ isInitializing afterLoop = true
  /\ isInitialized afterLoop = false
  /\ (WorkflowRegistry.initializeCall withInitialize afterLoop).2
       = Ok WorkflowRegistry.Returned.
Proof.
  intros. split_and!; vm_compute; reflexivity.
Qed.

(** ** Handler registry: further properties *)

Lemma registerByName_In (mt : MessageType) (h : Handler) (r : DefaultHandlerRegistry) :
  inherited (ctor_name mt) = false ->
  In h (handlersFor (fst (registerByName mt h r)) (ctor_name mt)).
Proof.
  intros Hname. rewrite registerByName_handlersFor, decide_True by done.
  destruct (someSame h _) eqn:Hs.
  - by apply someSame_In.
  - apply in_app_iff. right. by left.
Qed.

(** X1: a handler that was registered for a message type whose name is
    not one that objects inherit, whether the call succeeded or reported
    a duplicate, is among the handlers [get] returns for a message
    carrying that type's name (not the empty string, in the revision that
    wires resolvers). *)
Theorem registered_handler_is_returned
    (mt : MessageType) (h : Handler) (rw : option (Message -> bool)) (t : option string)
    (r : DefaultHandlerRegistry) (fields : props) :
  inherited (ctor_name mt) = false ->
  (ctor_name mt <> "" ->
   exists hs,
     fst (HandlerRegistryResolvers.get
            {| msg_name := Some (ctor_name mt); msg_fields := fields |}
            (fst (HandlerRegistryResolvers.register mt h rw t r))) = Ok hs
     /\ In h hs)
  /\ (exists hs,
        fst (HandlerRegistry.get (ctor_name mt) (fst (HandlerRegistry.register mt h rw t r)))
        = Some hs
        /\ In h hs).
Proof.
  intros Hin. split.
  - intros Hname. eexists. split.
    + apply get_is_get_spec; simpl; [congruence|]. intros n [= <-]. by left.
    + unfold get_spec, keyedHandlers. simpl. apply in_app_iff. left.
      unfold HandlerRegistryResolvers.register. by apply registerByName_In.
  - eexists. split.
    + by rewrite get_plain_result, Hin, andb_false_r.
    + by apply registerByName_In.
Qed.

Lemma registered_handler_is_returned_witness :
  let h := {| fn_ref := 1; fn_name := "h" |} in
  let mt := {| ctor_ref := 1; ctor_name := "M" |} in
  exists hs,
    fst (HandlerRegistryResolvers.get
           {| msg_name := Some "M"; msg_fields := ∅ |}
           (fst (HandlerRegistryResolvers.register mt h None None newRegistry))) = Ok hs
    /\ In h hs.
Proof.
  intros h mt.
  assert (Hname : ctor_name mt <> "") by discriminate.
  exact (proj1 (registered_handler_is_returned mt h None None newRegistry ∅ eq_refl) Hname).
Defined.

(** What [register] does to the entries kept under the other names, and
    to the constructor kept under each name. *)
Lemma registerByName_lookup_ne (mt : MessageType) (h : Handler) (r : DefaultHandlerRegistry)
    (n : string) :
  ctor_name mt <> n -> registry (fst (registerByName mt h r)) !! n = registry r !! n.
Proof.
  intros Hne. rewrite registerByName_eq.
  destruct (registry r !! ctor_name mt) as [e|].
  - destruct (someSame h _); simpl; [done|]. by rewrite lookup_insert_ne.
  - destruct (inherited _); simpl; [done|]. by rewrite lookup_insert_ne.
Qed.

Lemma registerByName_messageType (mt : MessageType) (h : Handler)
    (r : DefaultHandlerRegistry) (n : string) :
  messageType <$> registry (fst (registerByName mt h r)) !! n =
    if decide (ctor_name mt = n) then
      match registry r !! n with
      | Some e => Some (messageType e)
      | None => if inherited n then None else Some mt
      end
    else messageType <$> registry r !! n.
Proof.
  destruct (decide (ctor_name mt = n)) as [<-|Hne];
    [|by rewrite registerByName_lookup_ne].
  rewrite registerByName_eq.
  destruct (registry r !! ctor_name mt) as [e|] eqn:He.
  - destruct (someSame h _); simpl; [by rewrite He|]. by rewrite lookup_insert_eq.
  - destruct (inherited _); simpl; [by rewrite He|]. by rewrite lookup_insert_eq.
Qed.

Lemma registerByName_entriesNonEmpty (mt : MessageType) (h : Handler)
    (r : DefaultHandlerRegistry) :
  entriesNonEmpty r -> entriesNonEmpty (fst (registerByName mt h r)).
Proof.
  intros Hr n e. destruct (decide (ctor_name mt = n)) as [<-|Hne];
    [|rewrite registerByName_lookup_ne by done; apply Hr].
  rewrite registerByName_eq.
  destruct (registry r !! ctor_name mt) as [e'|] eqn:He.
  - destruct (someSame h _); simpl.
    + rewrite He. intros [= <-]. by eapply Hr.
    + rewrite lookup_insert_eq. intros [= <-]. simpl. by destruct (handlers e').
  - destruct (inherited _); simpl; [by rewrite He|].
    rewrite lookup_insert_eq. by intros [= <-].
Qed.

Lemma applyCall_entriesNonEmpty (c : RegistryCall Message) (r : DefaultHandlerRegistry) :
  entriesNonEmpty r -> entriesNonEmpty (applyCall c r).
Proof.
  intros Hr. destruct c as [mt h rw t|m|]; simpl.
  - unfold HandlerRegistryResolvers.register. apply registerByName_entriesNonEmpty.
    by destruct rw.
  - intros n e. rewrite (proj1 (get_registry m r)). apply Hr.
  - intros n e. simpl. by rewrite lookup_empty.
Qed.

Lemma applyCallPlain_entriesNonEmpty (c : RegistryCall string) (r : DefaultHandlerRegistry) :
  entriesNonEmpty r -> entriesNonEmpty (applyCallPlain c r).
Proof.
  intros Hr. destruct c as [mt h rw t|m|]; simpl.
  - by apply registerByName_entriesNonEmpty.
  - intros n e. rewrite (proj1 (get_plain_registry m r)). apply Hr.
  - intros n e. simpl. by rewrite lookup_empty.
Qed.

(** The names of the registry's properties are recorded as the
    properties are created. *)
Lemma registerByName_keysMatch (mt : MessageType) (h : Handler) (r : DefaultHandlerRegistry) :
  keysMatch r -> keysMatch (fst (registerByName mt h r)).
Proof.
  intros [Hnd Hkeys]. rewrite registerByName_eq.
  destruct (registry r !! ctor_name mt) as [e|] eqn:He.
  - destruct (someSame h _); [done|]. split; [done|]. intros n. simpl. rewrite Hkeys.
    destruct (decide (ctor_name mt = n)) as [<-|Hne].
    + rewrite lookup_insert_eq, He. split; eauto.
    + by rewrite lookup_insert_ne.
  - destruct (inherited _); [done|]. split; simpl.
    + apply NoDup_app. split_and!; [done | | apply NoDup_singleton].
      intros x Hx Hx'. apply list_elem_of_singleton in Hx'. subst x.
      apply Hkeys in Hx as [e' He']. congruence.
    + intros n. rewrite elem_of_app, list_elem_of_singleton, Hkeys.
      destruct (decide (ctor_name mt = n)) as [<-|Hne].
      * rewrite lookup_insert_eq. split; eauto.
      * rewrite lookup_insert_ne by done. split; [intros [?|?]; [done|congruence] | auto].
Qed.

Lemma applyCall_keysMatch (c : RegistryCall Message) (r : DefaultHandlerRegistry) :
  keysMatch r -> keysMatch (applyCall c r).
Proof.
  intros Hr. destruct c as [mt h rw t|m|]; simpl.
  - unfold HandlerRegistryResolvers.register. apply registerByName_keysMatch.
    by destruct rw.
  - destruct (get_registry m r) as (Hreg & Hkeys & _). unfold keysMatch.
    by rewrite Hreg, Hkeys.
  - split; simpl; [apply NoDup_nil_2|]. intros n. rewrite lookup_empty, elem_of_nil.
    split; [done | by intros [? ?]].
Qed.

Lemma applyCallPlain_keysMatch (c : RegistryCall string) (r : DefaultHandlerRegistry) :
  keysMatch r -> keysMatch (applyCallPlain c r).
Proof.
  intros Hr. destruct c as [mt h rw t|m|]; simpl.
  - by apply registerByName_keysMatch.
  - destruct (get_plain_registry m r) as (Hreg & Hkeys & _). unfold keysMatch.
    by rewrite Hreg, Hkeys.
  - split; simpl; [apply NoDup_nil_2|]. intros n. rewrite lookup_empty, elem_of_nil.
    split; [done | by intros [? ?]].
Qed.

Lemma newRegistry_keysMatch : keysMatch newRegistry.
Proof.
  split; simpl; [apply NoDup_nil_2|]. intros n. rewrite lookup_empty, elem_of_nil.
  split; [done | by intros [? ?]].
Qed.

(** [Object.keys] lists every name once: it only moves the array indices
    to the front. *)
Lemma filter_complement_Permutation {A} (f : A -> bool) (l : list A) :
  List.filter f l ++ List.filter (fun x => negb (f x)) l ≡ₚ l.
Proof.
  induction l as [|x l IH]; [done|]. simpl. destruct (f x); simpl.
  - by rewrite IH.
  - by rewrite <- Permutation_middle, IH.
Qed.

Lemma arrayIndex_pretty (k : string) (n : N) : arrayIndex k = Some n -> pretty n = k.
Proof.
  unfold arrayIndex. destruct k as [|c k]; [done|].
  destruct (digitsValue (String c k) 0) as [m|]; [|done].
  destruct (String.eqb (pretty m) (String c k)) eqn:Heq; [|done].
  destruct (m <? 4294967295)%N; [|done]. simpl.
  intros [= <-]. by apply String.eqb_eq.
Qed.

Lemma pretty_arrayIndex (created : list string) :
  map pretty (omap arrayIndex created) = List.filter isArrayIndex created.
Proof.
  induction created as [|k created IH]; [done|].
  change (omap arrayIndex (k :: created))
    with (match arrayIndex k with
          | Some y => y :: omap arrayIndex created
          | None => omap arrayIndex created
          end).
  change (List.filter isArrayIndex (k :: created))
    with (if isArrayIndex k then k :: List.filter isArrayIndex created
          else List.filter isArrayIndex created).
  unfold isArrayIndex at 1.
  destruct (arrayIndex k) as [n|] eqn:Hk; [|done].
  change (map pretty (n :: omap arrayIndex created))
    with (pretty n :: map pretty (omap arrayIndex created)).
  by rewrite IH, (arrayIndex_pretty k n Hk).
Qed.

Lemma objectKeys_Permutation (created : list string) : objectKeys created ≡ₚ created.
Proof.
  unfold objectKeys. rewrite merge_sort_Permutation, pretty_arrayIndex.
  apply filter_complement_Permutation.
Qed.

Lemma getMessageNames_elem (r : DefaultHandlerRegistry) (n : string) :
  keysMatch r ->
  n ∈ HandlerRegistry.getMessageNames r <-> is_Some (registry r !! n).
Proof.
  intros [_ Hkeys]. unfold HandlerRegistry.getMessageNames.
  by rewrite objectKeys_Permutation.
Qed.

Lemma getMessageConstructor_eq (n : string) (r : DefaultHandlerRegistry) :
  HandlerRegistry.getMessageConstructor n r = messageType <$> registry r !! n.
Proof.
  unfold HandlerRegistry.getMessageConstructor.
  destruct (registry r !! n) as [e|] eqn:He.
  - by rewrite (hasProperty_Some _ _ _ He), (readProperty_Some _ _ _ He).
  - rewrite (hasProperty_None _ _ He), (readProperty_None _ _ He).
    by destruct (inherited n).
Qed.

Lemma names_listed_facts (r : DefaultHandlerRegistry) (n : string) :
  entriesNonEmpty r -> keysMatch r ->
  (n ∈ HandlerRegistry.getMessageNames r <-> handlersFor r n <> [])
  /\ (HandlerRegistry.getMessageConstructor n r = None <-> handlersFor r n = [])
  /\ NoDup (HandlerRegistry.getMessageNames r).
Proof.
  intros Hr Hkeys. rewrite getMessageNames_elem by done.
  rewrite getMessageConstructor_eq. unfold handlersFor. split_and!.
  - destruct (registry r !! n) as [e|] eqn:He.
    + split; [intros _; by eapply Hr | eauto].
    + split; [intros [? ?]; done | done].
  - destruct (registry r !! n) as [e|] eqn:He; simpl.
    + split; [done|]. intros Hnil. by apply Hr in He.
    + done.
  - unfold HandlerRegistry.getMessageNames. rewrite objectKeys_Permutation. apply Hkeys.
Qed.

(** X2: after any sequence of calls, in either revision, the message
    names [getMessageNames] lists are exactly those with at least one
    handler, each listed once, and [getMessageConstructor] is undefined
    exactly for the names that have no handler. *)
Theorem names_listed_iff_handled
    (calls : list (RegistryCall Message)) (plainCalls : list (RegistryCall string))
    (n : string) :
  let r := runCalls applyCall calls newRegistry in
  let q := runCalls applyCallPlain plainCalls newRegistry in
  (n ∈ HandlerRegistryResolvers.getMessageNames r <-> handlersFor r n <> [])
  /\ (HandlerRegistryResolvers.getMessageConstructor n r = None <-> handlersFor r n = [])
  /\ NoDup (HandlerRegistryResolvers.getMessageNames r)
  /\ (n ∈ HandlerRegistry.getMessageNames q <-> handlersFor q n <> [])
  /\ (HandlerRegistry.getMessageConstructor n q = None <-> handlersFor q n = [])
  /\ NoDup (HandlerRegistry.getMessageNames q).
Proof.
  intros r q.
  assert (Hr : entriesNonEmpty r).
  { apply runCalls_invariant; [apply applyCall_entriesNonEmpty|].
    intros n' e. simpl. by rewrite lookup_empty. }
  assert (Hq : entriesNonEmpty q).
  { apply runCalls_invariant; [apply applyCallPlain_entriesNonEmpty|].
    intros n' e. simpl. by rewrite lookup_empty. }
  assert (Hrk : keysMatch r).
  { apply runCalls_invariant; [apply applyCall_keysMatch | apply newRegistry_keysMatch]. }
  assert (Hqk : keysMatch q).
  { apply runCalls_invariant; [apply applyCallPlain_keysMatch | apply newRegistry_keysMatch]. }
  destruct (names_listed_facts r n Hr Hrk) as (H1 & H2 & H3).
  destruct (names_listed_facts q n Hq Hqk) as (H4 & H5 & H6).
  split_and!; done.
Qed.

Lemma applyCall_constructor (c : RegistryCall Message) (r : DefaultHandlerRegistry)
    (n : string) :
  inherited n = false ->
  HandlerRegistryResolvers.getMessageConstructor n (applyCall c r)
  = constructorStep n (HandlerRegistryResolvers.getMessageConstructor n r) c.
Proof.
  intros Hn.
  change HandlerRegistryResolvers.getMessageConstructor
    with HandlerRegistry.getMessageConstructor.
  rewrite !getMessageConstructor_eq.
  destruct c as [mt h rw t|m|]; simpl.
  - unfold HandlerRegistryResolvers.register. rewrite registerByName_messageType.
    assert (Hreg : registry match rw with
                            | Some p =>
                                {| registry := registry r;
                                   registryKeys := registryKeys r;
                                   unhandledMessages := unhandledMessages r;
                                   handlerResolvers :=
                                     handlerResolvers r ++
                                       [{| hr_handler := h; hr_resolver := p;
                                           hr_messageType := Some mt;
                                           hr_topicIdentifier := t |}] |}
                            | None => r
                            end = registry r) by by destruct rw.
    rewrite Hreg, Hn.
    destruct (decide (ctor_name mt = n)) as [<-|Hne];
      destruct (registry r !! _) as [e|]; simpl;
      rewrite ?decide_True by done; rewrite ?decide_False by done; done.
  - by rewrite (proj1 (get_registry m r)).
  - by rewrite lookup_empty.
Qed.

Lemma applyCallPlain_constructor (c : RegistryCall string) (r : DefaultHandlerRegistry)
    (n : string) :
  inherited n = false ->
  HandlerRegistry.getMessageConstructor n (applyCallPlain c r)
  = constructorStep n (HandlerRegistry.getMessageConstructor n r) c.
Proof.
  intros Hn. rewrite !getMessageConstructor_eq.
  destruct c as [mt h rw t|m|]; simpl.
  - unfold HandlerRegistry.register. rewrite registerByName_messageType, Hn.
    destruct (decide (ctor_name mt = n)) as [<-|Hne];
      destruct (registry r !! _) as [e|]; simpl;
      rewrite ?decide_True by done; rewrite ?decide_False by done; done.
  - by rewrite (proj1 (get_plain_registry m r)).
  - by rewrite lookup_empty.
Qed.

Lemma runCalls_constructor (calls : list (RegistryCall Message))
    (r : DefaultHandlerRegistry) (n : string) :
  inherited n = false ->
  HandlerRegistryResolvers.getMessageConstructor n (runCalls applyCall calls r)
  = fold_left (constructorStep n) calls (HandlerRegistryResolvers.getMessageConstructor n r).
Proof.
  intros Hn. revert r. induction calls as [|c calls IH]; intros r; simpl; [done|].
  by rewrite IH, applyCall_constructor.
Qed.

Lemma runCallsPlain_constructor (calls : list (RegistryCall string))
    (r : DefaultHandlerRegistry) (n : string) :
  inherited n = false ->
  HandlerRegistry.getMessageConstructor n (runCalls applyCallPlain calls r)
  = fold_left (constructorStep n) calls (HandlerRegistry.getMessageConstructor n r).
Proof.
  intros Hn. revert r. induction calls as [|c calls IH]; intros r; simpl; [done|].
  by rewrite IH, applyCallPlain_constructor.
Qed.

(** X3: for a name that objects do not inherit, the constructor
    [getMessageConstructor] gives is the one of the first registration
    under that name since the last reset; a later registration by another
    constructor whose instances carry the same [$name] does not replace
    it.  For a name that objects inherit it gives [undefined] whatever
    was registered: [register] throws under such a name and keeps
    nothing. *)
Theorem getMessageConstructor_first_registration
    (calls : list (RegistryCall Message)) (plainCalls : list (RegistryCall string))
    (n : string) :
  let r := runCalls applyCall calls newRegistry in
  let q := runCalls applyCallPlain plainCalls newRegistry in
  (inherited n = false ->
     HandlerRegistryResolvers.getMessageConstructor n r = constructorRegistered n calls
     /\ HandlerRegistry.getMessageConstructor n q = constructorRegistered n plainCalls)
  /\ (inherited n = true ->
        HandlerRegistryResolvers.getMessageConstructor n r = None
        /\ HandlerRegistry.getMessageConstructor n q = None).
Proof.
  intros r q. split; intros Hn.
  - unfold r, q. rewrite runCalls_constructor, runCallsPlain_constructor by done.
    change HandlerRegistryResolvers.getMessageConstructor
      with HandlerRegistry.getMessageConstructor.
    rewrite !getMessageConstructor_eq.
    unfold constructorRegistered. simpl. by rewrite lookup_empty.
  - change HandlerRegistryResolvers.getMessageConstructor
      with HandlerRegistry.getMessageConstructor.
    rewrite !getMessageConstructor_eq. unfold r, q.
    rewrite (runCalls_ownNotInherited calls n Hn).
    by rewrite (runCallsPlain_ownNotInherited plainCalls n Hn).
Qed.

Lemma existsb_eqb_In (n : string) (l : list string) :
  existsb (String.eqb n) l = true <-> In n l.
Proof.
  rewrite existsb_exists. split.
  - intros (x & Hx & Heq). apply String.eqb_eq in Heq. by subst.
  - intros Hin. exists n. split; [done|]. apply String.eqb_refl.
Qed.

Lemma push_unseen_NoDup (n : string) (l : list string) :
  List.NoDup l -> existsb (String.eqb n) l = false -> List.NoDup (l ++ [n]).
Proof.
  intros Hl Hn. apply NoDup_ListNoDup, NoDup_app. split_and!.
  - by apply NoDup_ListNoDup.
  - intros x Hx Hx'. apply list_elem_of_singleton in Hx'. subst x.
    apply list_elem_of_In, existsb_eqb_In in Hx. congruence.
  - apply NoDup_singleton.
Qed.

Lemma applyCall_unhandled_NoDup (c : RegistryCall Message) (r : DefaultHandlerRegistry) :
  List.NoDup (unhandledMessages r) -> List.NoDup (unhandledMessages (applyCall c r)).
Proof.
  intros Hr. destruct c as [mt h rw t|m|]; simpl; [| |done].
  - unfold HandlerRegistryResolvers.register. rewrite registerByName_unhandled.
    by destruct rw.
  - unfold HandlerRegistryResolvers.get.
    destruct (_ && _); [|by destruct (HandlerRegistryResolvers.messageHandlersOf _ _)].
    destruct (msg_name m) as [n|]; [|done].
    destruct (name_truthy (Some n)); simpl; [|done].
    destruct (existsb (String.eqb n) (unhandledMessages r)) eqn:Hseen; simpl; [done|].
    by apply push_unseen_NoDup.
Qed.

Lemma applyCallPlain_unhandled_NoDup (c : RegistryCall string) (r : DefaultHandlerRegistry) :
  List.NoDup (unhandledMessages r) -> List.NoDup (unhandledMessages (applyCallPlain c r)).
Proof.
  intros Hr. destruct c as [mt h rw t|n|]; simpl; [| |done].
  - unfold HandlerRegistry.register. by rewrite registerByName_unhandled.
  - unfold HandlerRegistry.get.
    destruct (negb _); [|by destruct (readProperty _ _)].
    destruct (existsb (String.eqb n) (unhandledMessages r)) eqn:Hseen; simpl; [done|].
    by apply push_unseen_NoDup.
Qed.

Lemma existsb_eqb_push (n : string) (l : list string) :
  existsb (String.eqb n) (l ++ [n]) = true.
Proof. apply existsb_eqb_In, in_app_iff. right. by left. Qed.

(** X4: a message name is put on the unhandled-messages list at most once,
    whatever the calls (so its missing-handler error is reported once); a
    [get] changes the registry only when it returns the empty list; asking
    again for the same message gives the same outcome and changes nothing
    more; and a [get] under a name that objects inherit and that has no
    entry records nothing: it throws in the revision that wires
    resolvers and returns [undefined] in the other. *)
Theorem unhandled_reported_once
    (calls : list (RegistryCall Message)) (plainCalls : list (RegistryCall string))
    (m : Message) (n : string) (r : DefaultHandlerRegistry) :
  List.NoDup (unhandledMessages (runCalls applyCall calls newRegistry))
  /\ List.NoDup (unhandledMessages (runCalls applyCallPlain plainCalls newRegistry))
  /\ (fst (HandlerRegistryResolvers.get m r) = Ok []
      \/ snd (HandlerRegistryResolvers.get m r) = r)
  /\ (fst (HandlerRegistry.get n r) = Some [] \/ snd (HandlerRegistry.get n r) = r)
  /\ HandlerRegistryResolvers.get m (snd (HandlerRegistryResolvers.get m r))
     = (fst (HandlerRegistryResolvers.get m r), snd (HandlerRegistryResolvers.get m r))
  /\ HandlerRegistry.get n (snd (HandlerRegistry.get n r))
     = (fst (HandlerRegistry.get n r), snd (HandlerRegistry.get n r))
  /\ (inherited n = true -> registry r !! n = None ->
      (msg_name m = Some n ->
       HandlerRegistryResolvers.get m r
       = (Throw (TypeError "messageHandlers is not iterable"), r))
      /\ HandlerRegistry.get n r = (None, r)).
Proof.
  split; [|split; [|split; [|split; [|split; [|split]]]]].
  - apply (runCalls_invariant (fun r => List.NoDup (unhandledMessages r)));
      [apply applyCall_unhandled_NoDup | constructor].
  - apply (runCalls_invariant (fun r => List.NoDup (unhandledMessages r)));
      [apply applyCallPlain_unhandled_NoDup | constructor].
  - unfold HandlerRegistryResolvers.get.
    destruct (_ && _);
      [|right; by destruct (HandlerRegistryResolvers.messageHandlersOf _ _)].
    destruct (msg_name m) as [n'|]; [|by left]. destruct (_ && _); by left.
  - unfold HandlerRegistry.get.
    destruct (negb _); [|right; by destruct (readProperty _ _)].
    destruct (existsb _ _); by left.
  - destruct (HandlerRegistryResolvers.get m r) as [hs r'] eqn:Hget. simpl.
    unfold HandlerRegistryResolvers.get in Hget.
    destruct (negb (negb _) && _) eqn:Hnone.
    + destruct (msg_name m) as [n'|] eqn:Hname.
      * destruct (name_truthy (Some n') && _) eqn:Hwarn; injection Hget as <- <-.
        -- unfold HandlerRegistryResolvers.get,
             HandlerRegistryResolvers.resolveCustomHandlers,
             HandlerRegistryResolvers.nameInRegistry in *.
           simpl. rewrite Hname. rewrite Hnone.
           apply andb_true_iff in Hwarn as [-> _]. simpl.
           by rewrite existsb_eqb_push.
        -- unfold HandlerRegistryResolvers.get. rewrite Hname, Hnone. by rewrite Hwarn.
      * injection Hget as <- <-.
        unfold HandlerRegistryResolvers.get. by rewrite Hname, Hnone.
    + assert (r' = r) as ->.
      { destruct (HandlerRegistryResolvers.messageHandlersOf _ _); by injection Hget. }
      unfold HandlerRegistryResolvers.get. rewrite Hnone.
      by destruct (HandlerRegistryResolvers.messageHandlersOf _ _); injection Hget as <-.
  - destruct (HandlerRegistry.get n r) as [hs r'] eqn:Hget. simpl.
    unfold HandlerRegistry.get in Hget.
    destruct (negb (hasProperty (registry r) n)) eqn:Hhas.
    + destruct (existsb _ _) eqn:Hseen; injection Hget as <- <-.
      * unfold HandlerRegistry.get. by rewrite Hhas, Hseen.
      * unfold HandlerRegistry.get. simpl. by rewrite Hhas, existsb_eqb_push.
    + assert (r' = r) as -> by (destruct (readProperty _ _); by injection Hget).
      unfold HandlerRegistry.get. rewrite Hhas.
      by destruct (readProperty _ _); injection Hget as <-.
  - intros Hn Hnone. split.
    + intros Hname. by apply (get_inherited_name m r n).
    + unfold HandlerRegistry.get.
      by rewrite (hasProperty_None _ _ Hnone), (readProperty_None _ _ Hnone), Hn.
Qed.

(** X5: in the revision that wires resolvers, a handler registered with a
    [resolveWith] predicate for a message type whose name is neither
    empty nor one that objects inherit is returned twice for a message
    that carries that name and that the predicate accepts: once as the
    keyed handler and once more as the resolved one. *)
Theorem resolved_handler_returned_twice
    (mt : MessageType) (h : Handler) (p : Message -> bool) (t : option string)
    (r : DefaultHandlerRegistry) (m : Message) :
  ctor_name mt <> "" ->
  inherited (ctor_name mt) = false ->
  msg_name m = Some (ctor_name mt) ->
  p m = true ->
  exists keyed resolved,
    fst (HandlerRegistryResolvers.get m
           (fst (HandlerRegistryResolvers.register mt h (Some p) t r)))
    = Ok (keyed ++ resolved)
    /\ In h keyed /\ In h resolved.
Proof.
  intros Hne Hin Hname Hp.
  set (r' := fst (HandlerRegistryResolvers.register mt h (Some p) t r)).
  exists (keyedHandlers m r'), (acceptedHandlers m r'). split_and!.
  - apply get_is_get_spec; [congruence|].
    intros n Hn. rewrite Hname in Hn. injection Hn as <-. by left.
  - unfold keyedHandlers. rewrite Hname.
    unfold r', HandlerRegistryResolvers.register. by apply registerByName_In.
  - unfold acceptedHandlers, r', HandlerRegistryResolvers.register.
    rewrite registerByName_resolvers. simpl.
    apply in_map_iff. eexists. split; [|apply filter_In; split;
      [apply in_app_iff; right; left; reflexivity|]]; done.
Qed.

Lemma resolved_handler_returned_twice_witness :
  let h := {| fn_ref := 1; fn_name := "h" |} in
  let mt := {| ctor_ref := 1; ctor_name := "M" |} in
  let m := {| msg_name := Some "M"; msg_fields := ∅ |} in
  exists keyed resolved,
    fst (HandlerRegistryResolvers.get m
           (fst (HandlerRegistryResolvers.register mt h (Some (fun _ => true)) None
                   newRegistry)))
    = Ok (keyed ++ resolved)
    /\ In h keyed /\ In h resolved.
Proof.
  intros h mt m.
  assert (Hne : ctor_name mt <> "") by discriminate.
  exact (resolved_handler_returned_twice mt h (fun _ => true) None newRegistry m
           Hne eq_refl eq_refl eq_refl).
Defined.
(** ** In-memory persistence: further properties *)

Lemma get_present (o : props) (k : string) (v : value) :
  get o k = v -> v <> VUndefined -> o !! k = Some v.
Proof. unfold get. destruct (o !! k); simpl; congruence. Qed.

Lemma get_subseteq (o d : props) (k : string) (v : value) :
  o ⊆ d -> o !! k = Some v -> get d k = v.
Proof.
  intros Hsub Hk. unfold get.
  by rewrite (lookup_weaken _ _ _ _ Hk Hsub).
Qed.

Lemma saveWorkflowState_stores (state : props) (s : InMemoryPersistence.WorkflowStorage)
    (stored : list props) :
  s !! to_property_key (get state "$name") = Some stored ->
  snd (InMemoryPersistence.saveWorkflowState state s) = Ok tt
  /\ exists stored' d,
       fst (InMemoryPersistence.saveWorkflowState state s)
         !! to_property_key (get state "$name") = Some stored'
       /\ In d stored' /\ state ⊆ d.
Proof.
  intros Hs. unfold InMemoryPersistence.saveWorkflowState.
  rewrite (readProperty_Some _ _ _ Hs).
  destruct (InMemoryPersistence.assignToFirst state stored) as [updated|] eqn:Hassign; simpl.
  - split; [done|].
    destruct (assignToFirst_stores _ _ _ Hassign) as (d & Hd & Hin & Hid).
    exists updated, (spread d state). rewrite lookup_insert_eq.
    split; [done|]. split; [done|]. unfold spread. apply map_union_subseteq_l.
  - split; [done|]. exists (stored ++ [state]), state. rewrite lookup_insert_eq.
    split; [done|]. split; [apply in_app_iff; right; by left | done].
Qed.

Lemma saveWorkflowState_then_get
    (ctor : StateType) (mm : MessageWorkflowMapping) (m : Message) (ctx : MessageAttributes)
    (ic : option bool) (state : props) (s : InMemoryPersistence.WorkflowStorage)
    (stored : list props) :
  to_property_key (get state "$name") = stateName ctor ->
  s !! stateName ctor = Some stored ->
  lookup mm m ctx = get state (mapsTo mm) ->
  truthy (lookup mm m ctx) = true ->
  get state "$status" = Running \/ ic = Some true ->
  exists found d,
    InMemoryPersistence.getWorkflowState ctor mm m ctx ic
      (fst (InMemoryPersistence.saveWorkflowState state s)) = Ok found
    /\ In d found /\ state ⊆ d.
Proof.
  intros Hname Hs Hkey Htruthy Hstatus.
  rewrite <- Hname in Hs.
  destruct (saveWorkflowState_stores state s stored Hs) as (_ & stored' & d & Hs' & Hin & Hsub).
  unfold InMemoryPersistence.getWorkflowState. rewrite Htruthy. simpl.
  fold (stateName ctor). rewrite <- Hname, (readProperty_Some _ _ _ Hs').
  eexists _, d. split; [reflexivity|]. split; [|done].
  apply filter_In. split; [done|].
  rewrite matchesRow_activeMatch. apply bool_decide_eq_true. split.
  - rewrite Hkey. eapply get_subseteq; [done|].
    apply get_present; [done|]. rewrite <- Hkey. by destruct (lookup mm m ctx).
  - destruct Hstatus as [Hrun|Hic]; [left | by right].
    eapply get_subseteq; [done|]. by apply get_present.
Qed.

(** X6: on an initialised state type, a state saved with [$status]
    Running (or looked up with completed rows included) is found again by
    [getWorkflowState] under the truthy value of its mapped field: the
    result holds a row with every property of the saved state. *)
Theorem saved_state_is_found
    (ctor : StateType) (mm : MessageWorkflowMapping) (m : Message) (ctx : MessageAttributes)
    (ic : option bool) (state : props) (s : InMemoryPersistence.WorkflowStorage)
    (stored : list props) :
  to_property_key (get state "$name") = stateName ctor ->
  s !! stateName ctor = Some stored ->
  lookup mm m ctx = get state (mapsTo mm) ->
  truthy (lookup mm m ctx) = true ->
  get state "$status" = Running \/ ic = Some true ->
  exists found d,
    InMemoryPersistence.getWorkflowState ctor mm m ctx ic
      (fst (InMemoryPersistence.saveWorkflowState state s)) = Ok found
    /\ In d found /\ state ⊆ d.
Proof. apply saveWorkflowState_then_get. Qed.

Lemma saved_state_is_found_witness :
  let ctor := {| className := "Order"; newInstance := {[ "$name" := VStr "order" ]} |} in
  let mm := {| lookup := fun m _ => get (msg_fields m) "orderId"; mapsTo := "orderId" |} in
  let m := {| msg_name := Some "Paid"; msg_fields := {[ "orderId" := VStr "X" ]} |} in
  let ctx := {| correlationId := None; attributes := ∅; stickyAttributes := ∅ |} in
  let state : props :=
    <["$name" := VStr "order"]>
      (<["$workflowId" := VStr "a"]>
         (<["$status" := Running]> {[ "orderId" := VStr "X" ]})) in
  exists found d,
    InMemoryPersistence.getWorkflowState ctor mm m ctx None
      (fst (InMemoryPersistence.saveWorkflowState state {[ "order" := [] ]})) = Ok found
    /\ In d found /\ state ⊆ d.
Proof.
  intros ctor mm m ctx state.
  apply (saved_state_is_found ctor mm m ctx None state {[ "order" := [] ]} []);
    [reflexivity | reflexivity | reflexivity | reflexivity | left; reflexivity].
Defined.

(** X7: [initializeWorkflow] of the in-memory persistence starts the state
    type over: whatever rows were stored under its name are gone, a lookup
    finds nothing, and the rows of other names are kept. *)
Theorem initializeWorkflow_discards_rows
    (ctor : StateType) (mappings : list MessageWorkflowMapping)
    (mm : MessageWorkflowMapping) (m : Message) (ctx : MessageAttributes)
    (ic : option bool) (s : InMemoryPersistence.WorkflowStorage) (n : string) :
  let s' := fst (InMemoryPersistence.initializeWorkflow ctor mappings s) in
  snd (InMemoryPersistence.initializeWorkflow ctor mappings s) = Ok tt
  /\ s' !! stateName ctor = Some []
  /\ InMemoryPersistence.getWorkflowState ctor mm m ctx ic s' = Ok []
  /\ (n = stateName ctor \/ s' !! n = s !! n).
Proof.
  intros s'. unfold s', InMemoryPersistence.initializeWorkflow, stateName. simpl.
  split; [done|]. split; [apply lookup_insert_eq|]. split.
  - unfold InMemoryPersistence.getWorkflowState.
    destruct (negb _); [done|]. simpl.
    by rewrite (readProperty_Some _ _ [] (lookup_insert_eq _ _ _)).
  - destruct (decide (n = to_property_key (get (newInstance ctor) "$name"))) as [->|Hne];
      [by left|right]. by rewrite lookup_insert_ne.
Qed.

Lemma spread_id_match (d state : props) :
  get d "$workflowId" = get state "$workflowId" ->
  get (spread d state) "$workflowId" = get state "$workflowId".
Proof.
  intros Hid. rewrite get_spread, Hid. unfold get.
  by destruct (state !! "$workflowId").
Qed.

Lemma spread_twice (d state : props) : spread (spread d state) state = spread d state.
Proof. unfold spread. by rewrite (map_union_assoc state), (map_union_idemp state). Qed.

Lemma assignToFirst_again (state : props) (rows updated : list props) :
  InMemoryPersistence.assignToFirst state rows = Some updated ->
  InMemoryPersistence.assignToFirst state updated = Some updated.
Proof.
  revert updated. induction rows as [|d rows IH]; intros updated; simpl; [done|].
  destruct (strict_eq (get d "$workflowId") _) eqn:Hsame.
  - intros [= <-]. simpl. apply bool_decide_eq_true in Hsame.
    unfold strict_eq. rewrite bool_decide_eq_true_2 by by apply spread_id_match.
    by rewrite spread_twice.
  - destruct (InMemoryPersistence.assignToFirst state rows) as [upd|]; [|done].
    intros [= <-]. simpl. rewrite Hsame. by rewrite (IH upd).
Qed.

Lemma assignToFirst_appended (state : props) (rows : list props) :
  InMemoryPersistence.assignToFirst state rows = None ->
  InMemoryPersistence.assignToFirst state (rows ++ [state]) = Some (rows ++ [state]).
Proof.
  induction rows as [|d rows IH]; simpl.
  - intros _. unfold strict_eq. rewrite bool_decide_eq_true_2 by done.
    unfold spread. by rewrite (map_union_idemp state).
  - destruct (strict_eq (get d "$workflowId") _); [done|].
    destruct (InMemoryPersistence.assignToFirst state rows); [done|].
    intros _. by rewrite IH.
Qed.

(** X8: saving the same state a second time changes nothing: the storage
    after two saves is the storage after one, and the second save succeeds
    whenever the first did (a message delivered twice stores its state
    once). *)
Theorem saveWorkflowState_twice (state : props) (s : InMemoryPersistence.WorkflowStorage) :
  let once := InMemoryPersistence.saveWorkflowState state s in
  InMemoryPersistence.saveWorkflowState state (fst once) = (fst once, snd once).
Proof.
  intros once. unfold once, InMemoryPersistence.saveWorkflowState.
  destruct (s !! to_property_key (get state "$name")) as [rows|] eqn:Hrows.
  - rewrite (readProperty_Some _ _ _ Hrows).
    destruct (InMemoryPersistence.assignToFirst state rows) as [updated|] eqn:Hassign; simpl.
    + rewrite (readProperty_Some _ _ updated (lookup_insert_eq _ _ _)),
        (assignToFirst_again _ _ _ Hassign).
      by rewrite insert_insert_eq.
    + rewrite (readProperty_Some _ _ (rows ++ [state]) (lookup_insert_eq _ _ _)),
        (assignToFirst_appended _ _ Hassign).
      by rewrite insert_insert_eq.
  - rewrite (readProperty_None _ _ Hrows).
    destruct (inherited _) eqn:Hin; simpl; by rewrite (readProperty_None _ _ Hrows), Hin.
Qed.

Lemma assignToFirst_ids (state : props) (rows : list props) :
  match InMemoryPersistence.assignToFirst state rows with
  | Some updated =>
      In (get state "$workflowId") (workflowIds rows)
      /\ workflowIds updated = workflowIds rows
      /\ List.length updated = List.length rows
  | None => ~ In (get state "$workflowId") (workflowIds rows)
  end.
Proof.
  induction rows as [|d rows IH]; simpl; [tauto|].
  destruct (strict_eq (get d "$workflowId") _) eqn:Hsame.
  - apply bool_decide_eq_true in Hsame. simpl.
    split; [by left|]. split; [|done]. f_equal.
    rewrite spread_id_match by done. done.
  - apply bool_decide_eq_false in Hsame.
    destruct (InMemoryPersistence.assignToFirst state rows) as [upd|]; simpl.
    + destruct IH as (Hin & Hids & Hlen). split; [by right|]. split; congruence.
    + intros [Heq|Hin]; [congruence | by apply IH].
Qed.

(** X9: a save keeps the [$workflowId]s of a state type's rows: when a row
    already has the state's id the ids and the number of rows are
    unchanged, otherwise the state's id is added at the end; so rows that
    had pairwise distinct ids still have. *)
Theorem saveWorkflowState_keeps_ids
    (state : props) (s : InMemoryPersistence.WorkflowStorage) (rows : list props) :
  s !! to_property_key (get state "$name") = Some rows ->
  exists rows',
    fst (InMemoryPersistence.saveWorkflowState state s)
      !! to_property_key (get state "$name") = Some rows'
    /\ workflowIds rows' =
         (if bool_decide (get state "$workflowId" ∈ workflowIds rows)
          then workflowIds rows
          else workflowIds rows ++ [get state "$workflowId"])
    /\ List.length rows' =
         (if bool_decide (get state "$workflowId" ∈ workflowIds rows)
          then List.length rows
          else Datatypes.S (List.length rows))
    /\ (List.NoDup (workflowIds rows) -> List.NoDup (workflowIds rows')).
Proof.
  intros Hs. unfold InMemoryPersistence.saveWorkflowState.
  rewrite (readProperty_Some _ _ _ Hs).
  pose proof (assignToFirst_ids state rows) as Hids.
  destruct (InMemoryPersistence.assignToFirst state rows) as [updated|]; simpl.
  - destruct Hids as (Hin & Hsame & Hlen).
    exists updated. rewrite lookup_insert_eq.
    rewrite bool_decide_eq_true_2 by by apply list_elem_of_In.
    split; [done|]. split; [done|]. split; [done|]. by rewrite Hsame.
  - exists (rows ++ [state]). rewrite lookup_insert_eq.
    rewrite bool_decide_eq_false_2 by by rewrite list_elem_of_In.
    split; [done|]. unfold workflowIds at 1. rewrite map_app. simpl.
    split; [done|]. split; [rewrite length_app; simpl; lia|].
    intros Hnd. unfold workflowIds at 1. rewrite map_app. simpl.
    apply NoDup_ListNoDup, NoDup_app. split_and!.
    + by apply NoDup_ListNoDup.
    + intros x Hx Hx'. apply list_elem_of_singleton in Hx'. subst x.
      by apply list_elem_of_In in Hx.
    + apply NoDup_singleton.
Qed.

Lemma saveWorkflowState_keeps_ids_witness :
  let item (id : string) : props :=
    <["$name" := VStr "order"]> {[ "$workflowId" := VStr id ]} in
  exists rows',
    fst (InMemoryPersistence.saveWorkflowState (item "b") {[ "order" := [item "a"] ]})
      !! "order" = Some rows'
    /\ workflowIds rows' = [VStr "a"; VStr "b"]
    /\ List.length rows' = 2%nat.
Proof.
  intros item.
  assert (Hs : ({[ "order" := [item "a"] ]} : InMemoryPersistence.WorkflowStorage)
                 !! to_property_key (get (item "b") "$name") = Some [item "a"])
    by reflexivity.
  destruct (saveWorkflowState_keeps_ids (item "b") _ [item "a"] Hs)
    as (rows' & Hrows & Hids & Hlen & _).
  exists rows'. split; [exact Hrows|]. split; [exact Hids | exact Hlen].
Defined.


(** X11: a save on an initialised state type succeeds.  A save for a
    state type that was never initialised throws a [TypeError] and stores
    nothing: that of calling [find], which is no function, on what is
    found under a [$name] that objects inherit, and otherwise (with
    nothing initialised under [__proto__] either) that of reading [find]
    of [undefined].  And a save never touches the rows filed under
    another name. *)
Theorem saveWorkflowState_frame
    (state : props) (s : InMemoryPersistence.WorkflowStorage) (n : string) :
  let name := to_property_key (get state "$name") in
  (is_Some (s !! name) -> snd (InMemoryPersistence.saveWorkflowState state s) = Ok tt)
  /\ (s !! name = None -> inherited name = true ->
      InMemoryPersistence.saveWorkflowState state s
      = (s, Throw (TypeError "existingWorkflowState.find is not a function")))
  /\ (s !! name = None -> inherited name = false -> s !! "__proto__" = None ->
      InMemoryPersistence.saveWorkflowState state s
      = (s, Throw (TypeError "Cannot read properties of undefined (reading 'find')")))
  /\ (n = name \/ fst (InMemoryPersistence.saveWorkflowState state s) !! n = s !! n).
Proof.
  intros name. unfold InMemoryPersistence.saveWorkflowState, readProperty. fold name.
  split_and!.
  - intros [rows ->]. by destruct (InMemoryPersistence.assignToFirst _ _).
  - by intros -> ->.
  - by intros -> -> _.
  - destruct (s !! name) as [rows|] eqn:Hrows.
    + destruct (decide (n = name)) as [->|Hne]; [by left|right].
      destruct (InMemoryPersistence.assignToFirst _ _); simpl; by rewrite lookup_insert_ne.
    + right. by destruct (inherited name).
Qed.

(** ** Workflow registry: further properties *)

Section WorkflowRegistryFacts.
Import WorkflowRegistry.
Context {S : Type} (persistence : Persistence S) (uuid_v4 : nat -> string).

Lemma register_eq (workflow : Workflow) (w : World S) :
  register workflow w =
    if isInitialized w then
      (w, Throw (Error ("Attempted to register workflow (" ++ workflowName workflow
                        ++ ") after workflows have been initialized")))
    else if existsb (fun r => String.eqb (workflowName r) (workflowName workflow))
              (workflowRegistry w) then
      (w, Throw (Error ("Attempted to register two workflows with the same name ("
                        ++ workflowName workflow ++ ")")))
    else
      (mkWorld (handlerRegistry w) (functions w) (nextFunction w) (storage w)
         (uuidsDrawn w) (workflowRegistry w ++ [workflow]) (isInitialized w)
         (isInitializing w) (trace w), Ok tt).
Proof.
  unfold register, bind, readWorld.
  destruct (isInitialized w); [done|]. by destruct (existsb _ _).
Qed.

Lemma existsb_name_In (n : string) (ws : list Workflow) :
  existsb (fun r => String.eqb (workflowName r) n) ws = true
  <-> In n (map workflowName ws).
Proof.
  rewrite existsb_exists, in_map_iff. split.
  - intros (x & Hx & Heq). apply String.eqb_eq in Heq. eauto.
  - intros (x & Heq & Hx). exists x. split; [done|]. by apply String.eqb_eq.
Qed.

Lemma register_names_NoDup (workflow : Workflow) (w : World S) :
  List.NoDup (map workflowName (workflowRegistry w)) ->
  List.NoDup (map workflowName (workflowRegistry (fst (register workflow w)))).
Proof.
  intros Hnd. rewrite register_eq.
  destruct (isInitialized w); [done|].
  destruct (existsb _ _) eqn:Hdup; [done|]. simpl.
  rewrite map_app. simpl. apply NoDup_ListNoDup, NoDup_app. split_and!.
  - by apply NoDup_ListNoDup.
  - intros x Hx Hx'. apply list_elem_of_singleton in Hx'. subst x.
    apply list_elem_of_In, existsb_name_In in Hx. congruence.
  - apply NoDup_singleton.
Qed.

(** X12: registering a workflow succeeds exactly when the registry is not
    initialised and no buffered workflow has its name; a call that fails
    changes nothing, one that succeeds adds the workflow at the end of the
    buffer and changes nothing else; and however many workflows are
    registered from program start the buffered names stay pairwise
    distinct. *)
Theorem register_keeps_names_distinct
    (workflow : Workflow) (w : World S) (workflows : list Workflow) (s : S) :
  (snd (register workflow w) = Ok tt
   <-> isInitialized w = false
       /\ ~ In (workflowName workflow) (map workflowName (workflowRegistry w)))
  /\ (snd (register workflow w) = Ok tt
      /\ workflowRegistry (fst (register workflow w)) = workflowRegistry w ++ [workflow]
      /\ sameRegistry w (fst (register workflow w))
      /\ storage (fst (register workflow w)) = storage w
      \/ (exists text, snd (register workflow w) = Throw (Error text))
         /\ fst (register workflow w) = w)
  /\ List.NoDup (map workflowName (workflowRegistry (registerAll workflows (newWorld s)))).
Proof.
  split; [|split].
  - rewrite register_eq. destruct (isInitialized w).
    { split; [done | intros [? _]; done]. }
    destruct (existsb _ _) eqn:Hdup; simpl.
    + apply existsb_name_In in Hdup. split; [done | intros [_ ?]; done].
    + split; [|done]. intros _. split; [done|]. intros Hin.
      apply existsb_name_In in Hin. congruence.
  - rewrite register_eq. destruct (isInitialized w); [right; eauto|].
    destruct (existsb _ _); [right; eauto|]. left. done.
  - unfold registerAll.
    assert (Hgen : forall w0 : World S,
              List.NoDup (map workflowName (workflowRegistry w0)) ->
              List.NoDup (map workflowName (workflowRegistry
                (fold_left (fun w1 wf => fst (register wf w1)) workflows w0)))).
    { induction workflows as [|wf wfs IH]; intros w0 Hw0; simpl; [done|].
      apply IH. by apply register_names_NoDup. }
    apply Hgen. constructor.
Qed.

(** X13: with no workflow registered, [initialize] returns at once: it
    leaves the registry neither initialising nor initialised, registers no
    handler, and calls the persistence not at all; so a workflow can still
    be registered afterwards. *)
Theorem initialize_without_workflows (w : World S) (workflow : Workflow) :
  workflowRegistry w = [] ->
  isInitialized w = false ->
  initialize persistence w =
    (addEvents [Log LInfo "No workflows registered, skipping this step."] w, Ok (Some tt))
  /\ snd (register workflow (fst (initialize persistence w))) = Ok tt.
Proof.
  intros Hnil Hflag. rewrite initialize_eq. unfold bind.
  rewrite initializeCall_eq, Hnil. simpl. split; [done|].
  rewrite register_eq. simpl. by rewrite Hflag, Hnil.
Qed.

(** X14: after an [initialize] that ran over at least one workflow and
    returned, [register] throws the error that names the workflow and
    changes nothing. *)
Theorem register_after_initialize (w w' : World S) (workflow : Workflow) :
  refsBelow w ->
  workflowRegistry w <> [] ->
  initialize persistence w = (w', Ok (Some tt)) ->
  register workflow w' =
    (w', Throw (Error ("Attempted to register workflow (" ++ workflowName workflow
                       ++ ") after workflows have been initialized"))).
Proof.
  intros Hbelow Hne Hinit.
  destruct (initialize_runs persistence w Hbelow) as (w'' & r & Hrun & _ & _ & Hok & _).
  rewrite Hinit in Hrun. injection Hrun as <- <-.
  destruct (Hok eq_refl) as [_ Hdone]. destruct (Hdone Hne) as (_ & _ & Hflag & _).
  by rewrite register_eq, Hflag.
Qed.

(** X15: an [initialize] that runs over a non-empty buffer and returns has
    registered, for every buffered workflow and every one of its [onWhen]
    pairs, a function object that looks up the running states and
    dispatches them to the pair's step; it has called the persistence's
    [initializeWorkflow] exactly once per buffered workflow, in buffer
    order, each with the workflow's state type and mappings, and then the
    persistence's own [initialize]. *)
Theorem initialize_wires_every_workflow (w w' : World S) :
  refsBelow w ->
  workflowRegistry w <> [] ->
  initialize persistence w = (w', Ok (Some tt)) ->
  (forall workflow, In workflow (workflowRegistry w) -> handlersInstalled workflow w')
  /\ initializedTypes (trace w') =
       initializedTypes (trace w) ++ map stateType (workflowRegistry w)
  /\ storage w' =
       persistenceInitialized persistence
         (workflowsInitialized persistence (workflowRegistry w) (storage w)).
Proof.
  intros Hbelow Hne Hinit.
  destruct (initialize_runs persistence w Hbelow) as (w'' & r & Hrun & _ & _ & Hok & _).
  rewrite Hinit in Hrun. injection Hrun as <- <-.
  destruct (Hok eq_refl) as [_ Hdone].
  destruct (Hdone Hne) as (_ & _ & _ & _ & Htypes & Hstorage & Hall).
  split; [|done]. intros workflow Hin. by apply Hall.
Qed.

(** X16: when an [initialize] that entered its loop fails, because a call
    of the persistence throws, the registry is left initialising and not
    initialised.  No later call of [initialize] runs the loop again: it
    throws the already-initialised error, or returns at once when the
    buffer has been emptied. *)
Theorem initialize_failure_is_final (w w' : World S) (e : exn) :
  refsBelow w ->
  workflowRegistry w <> [] ->
  isInitialized w || isInitializing w = false ->
  initialize persistence w = (w', Throw e) ->
  isInitializing w' = true /\ isInitialized w' = false
  /\ (initializeCall persistence w' =
        (w', Throw (Error
           "Attempted to initialize workflow registry after it has already been initialized."))
      \/ initializeCall persistence w' =
           (addEvents [Log LInfo "No workflows registered, skipping this step."] w',
            Ok Returned)).
Proof.
  intros Hbelow Hne Hflags Hinit.
  destruct (initialize_runs persistence w Hbelow) as (w'' & r & Hrun & _ & _ & _ & Hthrow).
  rewrite Hinit in Hrun. injection Hrun as <- <-.
  destruct (Hthrow e eq_refl Hne Hflags) as (Hi1 & Hi2 & Hws).
  apply orb_false_iff in Hflags as [Hf1 _].
  split; [done|]. split; [congruence|].
  rewrite initializeCall_eq, Hi1, Hi2, Hf1. simpl.
  destruct (workflowRegistry w'); [by right | by left].
Qed.

Lemma dispatch_throw
    (message : Message) (attrs : MessageAttributes) (workflowName : string)
    (old : props) (ctor : StateType) (step : WhenHandler) (w : World S) (e : exn) :
  step message attrs (freezeCopy old) = Throw e ->
  dispatchMessageToWorkflow persistence message attrs workflowName old ctor step w =
    (addEvents [InvokeStep message attrs (freezeCopy old)] w, Throw e).
Proof.
  intros Hstep. unfold dispatchMessageToWorkflow, invoke, bind.
  by rewrite emit_addEvents, Hstep.
Qed.

(** X17: when the step throws, the dispatcher makes no persistence call:
    the error is passed on, and nothing but the invocation is recorded. *)
Theorem dispatch_step_failure
    (message : Message) (attrs : MessageAttributes) (workflowName : string)
    (old : props) (ctor : StateType) (step : WhenHandler) (w : World S) (e : exn) :
  step message attrs (freezeCopy old) = Throw e ->
  let run := dispatchMessageToWorkflow persistence message attrs workflowName old ctor step w in
  run = (addEvents [InvokeStep message attrs (freezeCopy old)] w, Throw e)
  /\ savedStates (trace run.1) = savedStates (trace w)
  /\ storage run.1 = storage w.
Proof.
  intros Hstep run. unfold run. rewrite (dispatch_throw _ _ _ _ _ _ _ _ Hstep). simpl.
  split; [done|]. split; [|done]. rewrite savedStates_app. simpl. by rewrite app_nil_r.
Qed.

Lemma invokedSteps_app (e1 e2 : list Event) :
  invokedSteps (e1 ++ e2) = invokedSteps e1 ++ invokedSteps e2.
Proof. apply omap_app. Qed.

Lemma dispatch_invokes_once
    (message : Message) (attrs : MessageAttributes) (workflowName : string)
    (old : props) (ctor : StateType) (step : WhenHandler) (w : World S) :
  invokedSteps
    (trace (dispatchMessageToWorkflow persistence message attrs workflowName old ctor step w).1)
  = invokedSteps (trace w) ++ [(message, attrs, freezeCopy old)]
  /\ (List.length (savedStates (trace
        (dispatchMessageToWorkflow persistence message attrs workflowName old ctor step w).1))
      <= Datatypes.S (List.length (savedStates (trace w))))%nat.
Proof.
  destruct (step message attrs (freezeCopy old)) as [[delta|]|e] eqn:Hstep.
  - destruct (decide (get delta "$status" = Discard)) as [Hd|Hd].
    + rewrite (dispatch_discard _ _ _ _ _ _ _ _ _ Hstep Hd). simpl.
      rewrite invokedSteps_app, savedStates_app. simpl. rewrite app_nil_r. split; [done|lia].
    + rewrite (dispatch_save _ _ _ _ _ _ _ _ _ Hstep Hd). simpl.
      rewrite !invokedSteps_app, !savedStates_app. simpl.
      destruct (p_saveWorkflowState _ _ _).2; simpl;
        rewrite !app_nil_r, ?length_app; simpl; split; try done; lia.
  - rewrite (dispatch_nothing _ _ _ _ _ _ _ _ Hstep). simpl.
    rewrite invokedSteps_app, savedStates_app. simpl. rewrite app_nil_r. split; [done|lia].
  - rewrite (dispatch_throw _ _ _ _ _ _ _ _ Hstep). simpl.
    rewrite invokedSteps_app, savedStates_app. simpl. rewrite app_nil_r. split; [done|lia].
Qed.

Lemma savesAtMost_refl (w : World S) : savesAtMost 0 w w.
Proof. split; [done|lia]. Qed.

Lemma savesAtMost_trans (j k : nat) (w1 w2 w3 : World S) :
  savesAtMost j w1 w2 -> savesAtMost k w2 w3 -> savesAtMost (j + k) w1 w3.
Proof. intros [H1 H2] [H3 H4]. split; [congruence|lia]. Qed.

Lemma savesAtMost_weaken (j k : nat) (w w' : World S) :
  (j <= k)%nat -> savesAtMost j w w' -> savesAtMost k w w'.
Proof. intros Hjk [H1 H2]. split; [done|lia]. Qed.

Lemma log_savesAtMost (level : LogLevel) (text : string) (w : World S) :
  savesAtMost 0 w (addEvents [Log level text] w).
Proof.
  split; simpl; rewrite ?invokedSteps_app, ?savedStates_app; simpl;
    rewrite app_nil_r; [done|lia].
Qed.

(** The steps are all called when [map] runs, in the order of the rows. *)
Lemma mapM_dispatchCall (message : Message) (attrs : MessageAttributes) (step : WhenHandler)
    (rows : list props) (w : World S) :
  mapM (fun state => dispatchCall message attrs state step) rows w =
    (addEvents (map (fun state => InvokeStep message attrs (freezeCopy state)) rows) w,
     Ok (map (fun state => step message attrs (freezeCopy state)) rows)).
Proof.
  revert w. induction rows as [|state rows IH]; intros w.
  - unfold addEvents. simpl. rewrite app_nil_r. by destruct w.
  - simpl. unfold bind at 1. unfold dispatchCall at 1. unfold bind at 1.
    rewrite emit_addEvents. unfold ret at 1. unfold bind. rewrite IH.
    by rewrite addEvents_app.
Qed.

Lemma dispatchOutcome_total (workflowName : string) (state : props) (ctor : StateType)
    (output : result (option props)) (w : World S) :
  exists w' d,
    dispatchOutcome persistence workflowName state ctor output w = (w', Ok d)
    /\ savesAtMost 1 w w'.
Proof.
  unfold dispatchOutcome. destruct output as [[delta|]|e].
  - destruct (strict_eq _ _).
    + eexists _, _. split; [reflexivity|].
      apply (savesAtMost_weaken 0); [lia|]. apply log_savesAtMost.
    + unfold bind, log. rewrite emit_addEvents, callPersistence_eq.
      eexists _, _. split; [reflexivity|]. split; simpl.
      * rewrite !invokedSteps_app. simpl. by rewrite !app_nil_r.
      * rewrite !savedStates_app, !length_app. simpl. lia.
  - eexists _, _. split; [reflexivity|].
    apply (savesAtMost_weaken 0); [lia|]. apply log_savesAtMost.
  - eexists _, _. split; [reflexivity|].
    apply (savesAtMost_weaken 0); [lia|]. apply savesAtMost_refl.
Qed.

Lemma persistResume_total (d : Dispatch) (w : World S) :
  exists w' d', persistResume d w = (w', Ok d') /\ savesAtMost 0 w w'.
Proof.
  destruct d as [outcome|[[]|e]]; eexists _, _; (split; [reflexivity|]);
    [apply savesAtMost_refl | apply log_savesAtMost | apply log_savesAtMost].
Qed.

Lemma dispatchResume_total (d : Dispatch) (w : World S) :
  exists w' r, dispatchResume d w = (w', Ok r) /\ savesAtMost 0 w w'.
Proof.
  destruct d as [outcome|[[]|e]]; eexists _, _; (split; [reflexivity|]);
    [apply savesAtMost_refl | apply savesAtMost_refl | apply log_savesAtMost].
Qed.

Lemma mapM_savesAtMost {A B} (f : A -> M S B) (k : nat) (l : list A) :
  (forall x w, exists w' y, f x w = (w', Ok y) /\ savesAtMost k w w') ->
  forall w, exists w' ys,
    mapM f l w = (w', Ok ys) /\ savesAtMost (k * List.length l) w w'.
Proof.
  intros Hf. induction l as [|x l IH]; intros w.
  - exists w, []. split; [done|]. rewrite Nat.mul_0_r. apply savesAtMost_refl.
  - destruct (Hf x w) as (w1 & y & Hx & Hs1).
    destruct (IH w1) as (w2 & ys & Hl & Hs2).
    exists w2, (y :: ys). split.
    + simpl. unfold bind at 1. rewrite Hx. unfold bind at 1. by rewrite Hl.
    + simpl List.length. rewrite Nat.mul_succ_r, Nat.add_comm.
      by eapply savesAtMost_trans.
Qed.

(** The dispatches that run together: every step is called first, and
    what follows invokes nothing more and saves at most one state per
    row. *)
Lemma dispatchAll_phases
    (message : Message) (attrs : MessageAttributes) (workflowName : string)
    (ctor : StateType) (step : WhenHandler) (rows : list props) (w : World S) :
  exists w' r,
    dispatchAll persistence message attrs workflowName ctor step rows w = (w', r)
    /\ savesAtMost (List.length rows)
         (addEvents (map (fun state => InvokeStep message attrs (freezeCopy state)) rows) w)
         w'.
Proof.
  unfold dispatchAll.
  unfold bind at 1. rewrite mapM_dispatchCall.
  set (w1 := addEvents _ w).
  set (outputs := map (fun state => step message attrs (freezeCopy state)) rows).
  destruct (mapM_savesAtMost
              (fun '(state, output) =>
                 dispatchOutcome persistence workflowName state ctor output)
              1 (zip rows outputs)) with (w := w1) as (w2 & resumed & Hphase2 & Hs2).
  { intros [state output] w0. apply dispatchOutcome_total. }
  unfold bind at 1. rewrite Hphase2.
  destruct (mapM_savesAtMost persistResume 0 resumed persistResume_total w2)
    as (w3 & persisted & Hphase3 & Hs3).
  unfold bind at 1. rewrite Hphase3.
  destruct (mapM_savesAtMost dispatchResume 0 persisted dispatchResume_total w3)
    as (w4 & outcomes & Hphase4 & Hs4).
  unfold bind at 1. rewrite Hphase4.
  assert (Hend : savesAtMost (List.length rows) w1 w4).
  { pose proof (savesAtMost_trans _ _ _ _ _ Hs2 (savesAtMost_trans _ _ _ _ _ Hs3 Hs4))
      as Hall.
    eapply savesAtMost_weaken; [|exact Hall].
    rewrite length_zip. unfold outputs. rewrite length_map. lia. }
  destruct (firstRejection (map settledEarly resumed)) as [e|];
    [|destruct (firstRejection outcomes) as [e|]];
    eexists _, _; (split; [reflexivity | exact Hend]).
Qed.

Lemma dispatchAll_invokes_each
    (message : Message) (attrs : MessageAttributes) (workflowName : string)
    (ctor : StateType) (step : WhenHandler) (rows : list props) (w : World S) :
  let run := dispatchAll persistence message attrs workflowName ctor step rows w in
  invokedSteps (trace run.1)
  = invokedSteps (trace w) ++ map (fun state => (message, attrs, freezeCopy state)) rows
  /\ (List.length (savedStates (trace run.1))
      <= List.length (savedStates (trace w)) + List.length rows)%nat.
Proof.
  intros run. unfold run.
  destruct (dispatchAll_phases message attrs workflowName ctor step rows w)
    as (w' & r & -> & Hinv & Hsaved).
  simpl in *. rewrite invokedSteps_app in Hinv. rewrite savedStates_app in Hsaved.
  assert (Hsteps : invokedSteps
                     (map (fun state => InvokeStep message attrs (freezeCopy state)) rows)
                   = map (fun state => (message, attrs, freezeCopy state)) rows).
  { clear. induction rows as [|state rows IH]; [done|]. simpl. by rewrite IH. }
  assert (Hnone : savedStates
                    (map (fun state => InvokeStep message attrs (freezeCopy state)) rows)
                  = []).
  { clear. induction rows as [|state rows IH]; [done|]. simpl. by rewrite IH. }
  rewrite Hsteps in Hinv. rewrite Hnone, app_nil_r in Hsaved. done.
Qed.

(** With one row the dispatches that run together are the one dispatch. *)
Lemma dispatchAll_single
    (message : Message) (attrs : MessageAttributes) (workflowName : string)
    (ctor : StateType) (step : WhenHandler) (state : props) (w : World S) :
  dispatchAll persistence message attrs workflowName ctor step [state] w
  = dispatchMessageToWorkflow persistence message attrs workflowName state ctor step w.
Proof.
  unfold dispatchAll. unfold bind at 1. rewrite mapM_dispatchCall.
  cbn [map zip zip_with mapM].
  destruct (step message attrs (freezeCopy state)) as [[delta|]|e] eqn:Hstep.
  - destruct (decide (get delta "$status" = Discard)) as [Hd|Hd].
    + rewrite (dispatch_discard _ _ _ _ _ _ _ _ _ Hstep Hd).
      unfold dispatchOutcome, strict_eq. rewrite bool_decide_eq_true_2 by done.
      unfold log, bind, ret. rewrite emit_addEvents. cbn. by rewrite addEvents_app.
    + rewrite (dispatch_save _ _ _ _ _ _ _ _ _ Hstep Hd).
      unfold dispatchOutcome, strict_eq. rewrite bool_decide_eq_false_2 by done.
      unfold log, bind, ret. rewrite emit_addEvents, callPersistence_eq. cbn.
      destruct (p_saveWorkflowState persistence _ _) as [s' [[]|e]]; cbn;
        unfold addEvents, setStorage, throw; cbn; repeat rewrite <- app_assoc; done.
  - rewrite (dispatch_nothing _ _ _ _ _ _ _ _ Hstep).
    unfold dispatchOutcome, log, bind, ret. rewrite emit_addEvents. cbn.
    by rewrite addEvents_app.
  - rewrite (dispatch_throw _ _ _ _ _ _ _ _ Hstep).
    unfold dispatchOutcome, bind, ret. cbn. done.
Qed.

Lemma handlesFn_eq (workflow : Workflow) (mm : MessageWorkflowMapping) (step : WhenHandler)
    (message : Message) (attrs : MessageAttributes) (w : World S) :
  let got := p_getWorkflowState persistence (stateType workflow) mm message attrs
               (Some false) (storage w) in
  let w1 := setStorage got.1
              (addEvents [CallGetWorkflowState (stateType workflow) mm message attrs
                            (Some false)] w) in
  handlesFn persistence workflow mm step message attrs w =
    match got.2 with
    | Throw e => (w1, Throw e)
    | Ok rows =>
        if (List.length rows =? 0)%nat then
          (addEvents [Log LInfo "No existing workflow state found for message. Ignoring."] w1,
           Ok tt)
        else
          dispatchAll persistence message attrs (workflowName workflow) (stateType workflow)
            step rows w1
    end.
Proof.
  intros got w1. unfold handlesFn, bind. rewrite callPersistence_eq. fold got w1.
  destruct got.2 as [rows|e]; [|done]. by destruct (List.length rows =? 0)%nat.
Qed.

(** X18: the handler registered for an [onWhen] pair asks the persistence
    for the running states (completed ones excluded) and then invokes the
    step once for each state returned, in the order returned, each on a
    frozen copy of the state, whether or not earlier steps or saves
    failed; it saves at most one state per row.  When the lookup returns
    no state, no step is invoked and nothing is saved; when the lookup
    throws, its error is passed on and no step is invoked. *)
Theorem onWhen_handler_invokes_each_state
    (workflow : Workflow) (mm : MessageWorkflowMapping) (step : WhenHandler)
    (message : Message) (attrs : MessageAttributes) (w : World S) :
  let got := p_getWorkflowState persistence (stateType workflow) mm message attrs
               (Some false) (storage w) in
  let w1 := setStorage got.1
              (addEvents [CallGetWorkflowState (stateType workflow) mm message attrs
                            (Some false)] w) in
  let run := runClosure persistence uuid_v4 (HandlesFn workflow mm step) message attrs w in
  (forall rows, got.2 = Ok rows ->
     invokedSteps (trace run.1)
     = invokedSteps (trace w) ++ map (fun state => (message, attrs, freezeCopy state)) rows
     /\ (List.length (savedStates (trace run.1))
         <= List.length (savedStates (trace w)) + List.length rows)%nat)
  /\ (got.2 = Ok [] ->
      run = (addEvents [Log LInfo "No existing workflow state found for message. Ignoring."]
               w1, Ok tt))
  /\ (forall e, got.2 = Throw e -> run = (w1, Throw e)).
Proof.
  intros got w1 run. unfold run. simpl runClosure. rewrite handlesFn_eq. fold got w1.
  split; [|split].
  - intros rows ->. destruct (List.length rows =? 0)%nat eqn:Hlen.
    + apply Nat.eqb_eq, nil_length_inv in Hlen. subst rows. simpl.
      rewrite !invokedSteps_app, !savedStates_app. simpl. rewrite !app_nil_r.
      split; [done|lia].
    + destruct (dispatchAll_invokes_each message attrs (workflowName workflow)
                  (stateType workflow) step rows w1) as [Hinv Hsav].
      simpl in Hinv, Hsav. rewrite Hinv. split.
      * unfold w1. simpl. rewrite invokedSteps_app. simpl. by rewrite app_nil_r.
      * unfold w1 in Hsav. simpl in Hsav. rewrite savedStates_app in Hsav.
        simpl in Hsav. rewrite app_nil_r in Hsav. exact Hsav.
  - by intros ->.
  - by intros e ->.
Qed.

Lemma startedByFn_draws (workflow : Workflow) (step : WhenHandler) (message : Message)
    (attrs : MessageAttributes) (u : World S) :
  uuidsDrawn (startedByFn persistence uuid_v4 workflow step message attrs u).1
  = Datatypes.S (uuidsDrawn u).
Proof.
  rewrite startedByFn_eq.
  by destruct (step message attrs _) as [[delta|]|e].
Qed.

(** X19: every run of a starting handler draws one identifier from the
    UUID generator, so a workflow started after another gets the
    generator's next identifier: with a generator that never repeats, the
    two [$workflowId]s differ. *)
Theorem started_workflows_get_distinct_ids
    (first next : Workflow) (step : WhenHandler) (message : Message)
    (attrs : MessageAttributes) (u : World S) :
  (forall i j, uuid_v4 i = uuid_v4 j -> i = j) ->
  let u' := (runClosure persistence uuid_v4 (StartedByFn first step) message attrs u).1 in
  uuidsDrawn u' = Datatypes.S (uuidsDrawn u)
  /\ get (createdState uuid_v4 (stateType next) u') "$workflowId"
     <> get (createdState uuid_v4 (stateType first) u) "$workflowId".
Proof.
  intros Hinj u'. unfold u'. simpl runClosure.
  split; [apply startedByFn_draws|].
  rewrite !createdState_get, !decide_True by done. rewrite startedByFn_draws.
  intros [= Heq]. apply Hinj in Heq. lia.
Qed.

End WorkflowRegistryFacts.

Lemma initialize_without_workflows_witness :
  let w : World InMemoryPersistence.WorkflowStorage := newWorld ∅ in
  let workflow := {| workflowName := "orders";
                     stateType := {| className := "Order"; newInstance := ∅ |};
                     onStartedBy := []; onWhen := [] |} in
  isInitialized (WorkflowRegistry.initialize inMemory w).1 = false
  /\ snd (WorkflowRegistry.register workflow (WorkflowRegistry.initialize inMemory w).1)
     = Ok tt.
Proof.
  intros w workflow.
  destruct (initialize_without_workflows inMemory w workflow eq_refl eq_refl) as [Hinit Hreg].
  split; [by rewrite Hinit | exact Hreg].
Defined.

Lemma register_after_initialize_witness :
  let ctor := {| className := "Order"; newInstance := {[ "$name" := VStr "order" ]} |} in
  let workflow := {| workflowName := "orders"; stateType := ctor;
                     onStartedBy := []; onWhen := [] |} in
  let w : World InMemoryPersistence.WorkflowStorage :=
    registerAll [workflow] (newWorld ∅) in
  let w' := (WorkflowRegistry.initialize inMemory w).1 in
  WorkflowRegistry.register workflow w' =
    (w', Throw (Error
       "Attempted to register workflow (orders) after workflows have been initialized")).
Proof.
  intros ctor workflow w w'.
  assert (Hne : workflowRegistry w <> []) by discriminate.
  assert (Hinit : WorkflowRegistry.initialize inMemory w = (w', Ok (Some tt)))
    by (vm_compute; reflexivity).
  exact (register_after_initialize inMemory w w' workflow
           (newRegistry_refsBelow _ _ _ _) Hne Hinit).
Defined.

Lemma initialize_wires_every_workflow_witness :
  let ctor := {| className := "Order"; newInstance := {[ "$name" := VStr "order" ]} |} in
  let paid := {| ctor_ref := 2; ctor_name := "Paid" |} in
  let mm := {| lookup := fun m _ => get (msg_fields m) "orderId"; mapsTo := "orderId" |} in
  let onPaid := {| when_handler := fun _ _ _ => Ok None; when_options := mm |} in
  let workflow := {| workflowName := "orders"; stateType := ctor;
                     onStartedBy := []; onWhen := [(paid, onPaid)] |} in
  let w : World InMemoryPersistence.WorkflowStorage :=
    registerAll [workflow] (newWorld ∅) in
  let w' := (WorkflowRegistry.initialize inMemory w).1 in
  handlersInstalled workflow w'
  /\ initializedTypes (trace w') = [ctor]
  /\ storage w' = {[ "order" := [] ]}.
Proof.
  intros ctor paid mm onPaid workflow w w'.
  assert (Hne : workflowRegistry w <> []) by discriminate.
  assert (Hinit : WorkflowRegistry.initialize inMemory w = (w', Ok (Some tt)))
    by (vm_compute; reflexivity).
  destruct (initialize_wires_every_workflow inMemory w w'
              (newRegistry_refsBelow _ _ _ _) Hne Hinit) as (Hall & Htypes & Hstorage).
  split; [apply Hall; left; reflexivity|].
  split; [exact Htypes|]. etrans; [exact Hstorage|]. reflexivity.
Defined.

Lemma initialize_failure_is_final_witness :
  let failing : Persistence unit :=
    {| p_initialize := None;
       p_initializeWorkflow := fun _ _ s => (s, Throw (DatabaseError "connection refused"));
       p_getWorkflowState := fun _ _ _ _ _ s => (s, Ok []);
       p_saveWorkflowState := fun _ s => (s, Ok tt) |} in
  let workflow := {| workflowName := "orders";
                     stateType := {| className := "Order"; newInstance := ∅ |};
                     onStartedBy := []; onWhen := [] |} in
  let w : World unit := registerAll [workflow] (newWorld tt) in
  let w' := (WorkflowRegistry.initialize failing w).1 in
  (WorkflowRegistry.initialize failing w).2 = Throw (DatabaseError "connection refused")
  /\ isInitializing w' = true /\ isInitialized w' = false
  /\ (WorkflowRegistry.initialize failing w').2 = Throw (Error
        "Attempted to initialize workflow registry after it has already been initialized.").
Proof.
  intros failing workflow w w'.
  assert (Hne : workflowRegistry w <> []) by discriminate.
  assert (Hinit : WorkflowRegistry.initialize failing w
                  = (w', Throw (DatabaseError "connection refused")))
    by (vm_compute; reflexivity).
  destruct (initialize_failure_is_final failing w w' _
              (newRegistry_refsBelow _ _ _ _) Hne eq_refl Hinit) as (H1 & H2 & _).
  split; [by rewrite Hinit|]. split; [exact H1|]. split; [exact H2|].
  vm_compute. reflexivity.
Defined.

Lemma dispatch_step_failure_witness :
  let ctor := {| className := "Order"; newInstance := {[ "$name" := VStr "order" ]} |} in
  let old : props := <["$name" := VStr "order"]> {[ "$workflowId" := VStr "a" ]} in
  let w : World InMemoryPersistence.WorkflowStorage :=
    mkWorld newRegistry ∅ 1%positive {[ "order" := [old] ]} 0%nat [] true false [] in
  let m := {| msg_name := Some "Paid"; msg_fields := ∅ |} in
  let a := {| correlationId := None; attributes := ∅; stickyAttributes := ∅ |} in
  let failing : WhenHandler := fun _ _ _ => Throw (Error "step failed") in
  let run := WorkflowRegistry.dispatchMessageToWorkflow inMemory m a "orders" old ctor
               failing w in
  run.2 = Throw (Error "step failed")
  /\ savedStates (trace run.1) = []
  /\ storage run.1 = {[ "order" := [old] ]}.
Proof.
  intros ctor old w m a failing run.
  destruct (dispatch_step_failure inMemory m a "orders" old ctor failing w
              (Error "step failed") eq_refl) as (Hrun & Hsaved & Hstorage).
  split; [unfold run; by rewrite Hrun|]. split; [exact Hsaved | exact Hstorage].
Defined.

Lemma onWhen_handler_invokes_each_state_witness :
  let ctor := {| className := "Order"; newInstance := {[ "$name" := VStr "order" ]} |} in
  let row (id key : string) : props :=
    <["$name" := VStr "order"]>
      (<["$workflowId" := VStr id]>
         (<["$status" := Running]> {[ "orderId" := VStr key ]})) in
  let mm := {| lookup := fun m _ => get (msg_fields m) "orderId"; mapsTo := "orderId" |} in
  let workflow := {| workflowName := "orders"; stateType := ctor;
                     onStartedBy := []; onWhen := [] |} in
  let w : World InMemoryPersistence.WorkflowStorage :=
    mkWorld newRegistry ∅ 1%positive {[ "order" := [row "1" "X"; row "2" "Y"; row "3" "X"] ]}
      0%nat [] true false [] in
  let m := {| msg_name := Some "Paid"; msg_fields := {[ "orderId" := VStr "X" ]} |} in
  let other := {| msg_name := Some "Paid"; msg_fields := {[ "orderId" := VStr "Z" ]} |} in
  let a := {| correlationId := None; attributes := ∅; stickyAttributes := ∅ |} in
  let step : WhenHandler := fun _ _ _ => Ok (Some {[ "paid" := VBool true ]}) in
  let run msg := WorkflowRegistry.runClosure inMemory (fun n : nat => pretty n)
                   (HandlesFn workflow mm step) msg a w in
  invokedSteps (trace (run m).1)
  = [(m, a, freezeCopy (row "1" "X")); (m, a, freezeCopy (row "3" "X"))]
  /\ invokedSteps (trace (run other).1) = [].
Proof.
  intros ctor row mm workflow w m other a step run.
  destruct (onWhen_handler_invokes_each_state inMemory (fun n : nat => pretty n)
              workflow mm step m a w) as (Heach & _ & _).
  destruct (onWhen_handler_invokes_each_state inMemory (fun n : nat => pretty n)
              workflow mm step other a w) as (_ & Hnone & _).
  split.
  - destruct (Heach [row "1" "X"; row "3" "X"] eq_refl) as [Hinv _]. exact Hinv.
  - unfold run. rewrite Hnone by reflexivity. reflexivity.
Defined.

Lemma started_workflows_get_distinct_ids_witness :
  let ctor := {| className := "Order"; newInstance := {[ "$name" := VStr "order" ]} |} in
  let workflow := {| workflowName := "orders"; stateType := ctor;
                     onStartedBy := []; onWhen := [] |} in
  let u : World InMemoryPersistence.WorkflowStorage := newWorld {[ "order" := [] ]} in
  let m := {| msg_name := Some "Placed"; msg_fields := ∅ |} in
  let a := {| correlationId := None; attributes := ∅; stickyAttributes := ∅ |} in
  let step : WhenHandler := fun _ _ _ => Ok (Some ∅) in
  let uuid := fun n : nat => pretty n in
  let u' := (WorkflowRegistry.runClosure inMemory uuid (StartedByFn workflow step) m a u).1 in
  get (createdState uuid ctor u') "$workflowId" <> get (createdState uuid ctor u) "$workflowId".
Proof.
  intros ctor workflow u m a step uuid u'.
  exact (proj2 (started_workflows_get_distinct_ids inMemory uuid workflow workflow step m a u
                  pretty_nat_inj)).
Defined.

(** ** The workflow registry over the in-memory persistence *)

Lemma workflowsInitialized_inMemory_empty (workflows : list Workflow)
    (s : InMemoryPersistence.WorkflowStorage) (n : string) :
  s !! n = Some [] -> workflowsInitialized inMemory workflows s !! n = Some [].
Proof.
  revert s. induction workflows as [|workflow rest IH]; intros s Hs; simpl; [done|].
  apply IH. unfold InMemoryPersistence.initializeWorkflow. simpl.
  destruct (decide (to_property_key (get (newInstance (stateType workflow)) "$name") = n))
    as [<-|Hne]; [apply lookup_insert_eq | by rewrite lookup_insert_ne].
Qed.

Lemma workflowsInitialized_inMemory (workflows : list Workflow)
    (s : InMemoryPersistence.WorkflowStorage) (workflow : Workflow) :
  In workflow workflows ->
  workflowsInitialized inMemory workflows s !! stateName (stateType workflow) = Some [].
Proof.
  revert s. induction workflows as [|first rest IH]; intros s; simpl; [done|].
  intros [->|Hin]; [|by apply IH].
  apply workflowsInitialized_inMemory_empty.
  unfold InMemoryPersistence.initializeWorkflow, stateName. simpl. apply lookup_insert_eq.
Qed.

(** X20: with the in-memory persistence, a first [initialize] over
    buffered workflows none of which subscribes to a message type whose
    name objects inherit returns and leaves the state type of every
    buffered workflow initialised and empty, so a lookup for it afterwards
    returns the empty list and does not throw
    [WorkflowStateNotInitialized]. *)
Theorem initialize_prepares_storage
    (w : World InMemoryPersistence.WorkflowStorage) (workflow : Workflow)
    (mm : MessageWorkflowMapping) (m : Message) (ctx : MessageAttributes) (ic : option bool) :
  refsBelow w ->
  isInitialized w || isInitializing w = false ->
  Forall namesNotInherited (workflowRegistry w) ->
  In workflow (workflowRegistry w) ->
  let done_ := WorkflowRegistry.initialize inMemory w in
  done_.2 = Ok (Some tt)
  /\ storage done_.1 !! stateName (stateType workflow) = Some []
  /\ InMemoryPersistence.getWorkflowState (stateType workflow) mm m ctx ic (storage done_.1)
     = Ok [].
Proof.
  intros Hbelow Hflags Hnames Hin done_.
  destruct (initialize_inMemory_returns w Hbelow Hflags Hnames) as [w' Hinit].
  assert (Hne : workflowRegistry w <> []) by (intros Hnil; rewrite Hnil in Hin; destruct Hin).
  destruct (initialize_runs inMemory w Hbelow) as (w'' & r & Hrun & _ & _ & Hok & _).
  rewrite Hinit in Hrun. injection Hrun as <- <-.
  destruct (Hok eq_refl) as [_ Hdone].
  destruct (Hdone Hne) as (_ & _ & _ & _ & _ & Hstorage & _).
  unfold done_. rewrite Hinit. simpl.
  assert (Hrows : storage w' !! stateName (stateType workflow) = Some []).
  { rewrite Hstorage. unfold persistenceInitialized. simpl.
    by apply workflowsInitialized_inMemory. }
  split; [done|]. split; [done|].
  unfold InMemoryPersistence.getWorkflowState. destruct (negb _); [done|].
  fold (stateName (stateType workflow)). by rewrite (readProperty_Some _ _ _ Hrows).
Qed.

(** A workflow started by a message type named [constructor] makes
    [initialize] fail in its first registration, before any call of the
    persistence. *)
Example initialize_inherited_name_rejects :
  let ctor := {| className := "Order"; newInstance := {[ "$name" := VStr "order" ]} |} in
  let inheritedName := {| ctor_ref := 1; ctor_name := "constructor" |} in
  let workflow := {| workflowName := "orders"; stateType := ctor;
                     onStartedBy := [(inheritedName, fun _ _ _ => Ok None)];
                     onWhen := [] |} in
  let w : World InMemoryPersistence.WorkflowStorage :=
    registerAll [workflow] (newWorld ∅) in
  (WorkflowRegistry.initialize inMemory w).2 = Throw inheritedNameError
  /\ storage (WorkflowRegistry.initialize inMemory w).1 = ∅
  /\ isInitializing (WorkflowRegistry.initialize inMemory w).1 = true.
Proof. intros. split_and!; vm_compute; reflexivity. Qed.

Lemma initialize_prepares_storage_witness :
  let ctor := {| className := "Order"; newInstance := {[ "$name" := VStr "order" ]} |} in
  let workflow := {| workflowName := "orders"; stateType := ctor;
                     onStartedBy := []; onWhen := [] |} in
  let mm := {| lookup := fun m _ => get (msg_fields m) "orderId"; mapsTo := "orderId" |} in
  let m := {| msg_name := Some "Paid"; msg_fields := {[ "orderId" := VStr "X" ]} |} in
  let ctx := {| correlationId := None; attributes := ∅; stickyAttributes := ∅ |} in
  let w : World InMemoryPersistence.WorkflowStorage :=
    registerAll [workflow] (newWorld ∅) in
  InMemoryPersistence.getWorkflowState ctor mm m ctx None
    (storage (WorkflowRegistry.initialize inMemory w).1) = Ok [].
Proof.
  intros ctor workflow mm m ctx w.
  assert (Hnames : Forall namesNotInherited (workflowRegistry w)).
  { repeat constructor. }
  exact (proj2 (proj2 (initialize_prepares_storage w workflow mm m ctx None
                         (newRegistry_refsBelow _ _ _ _) eq_refl Hnames
                         (or_introl eq_refl)))).
Defined.

(** X21: with the in-memory persistence, a workflow state started by a
    starting handler is found by a later lookup.  When the step's delta
    overrides neither [$name] nor [$status], and the state type is
    initialised, the handler's save succeeds, and [getWorkflowState] under
    the truthy value of the mapped field of the saved state returns a row
    that has every property of the saved state. *)
Theorem started_state_is_found
    (uuid_v4 : nat -> string) (workflow : Workflow) (step : WhenHandler)
    (message : Message) (attrs : MessageAttributes)
    (mm : MessageWorkflowMapping) (later : Message) (ctx : MessageAttributes)
    (ic : option bool) (u : World InMemoryPersistence.WorkflowStorage)
    (delta : props) (rows : list props) :
  let state := createdState uuid_v4 (stateType workflow) u in
  let merged := spread state delta in
  let run := WorkflowRegistry.runClosure inMemory uuid_v4 (StartedByFn workflow step)
               message attrs u in
  step message attrs (freezeCopy state) = Ok (Some delta) ->
  storage u !! stateName (stateType workflow) = Some rows ->
  delta !! "$name" = None ->
  delta !! "$status" = None ->
  lookup mm later ctx = get merged (mapsTo mm) ->
  truthy (lookup mm later ctx) = true ->
  run.2 = Ok tt
  /\ exists found d,
       InMemoryPersistence.getWorkflowState (stateType workflow) mm later ctx ic
         (storage run.1) = Ok found
       /\ In d found /\ merged ⊆ d.
Proof.
  intros state merged run Hstep Hrows Hname Hstatus Hkey Htruthy.
  assert (Hrun : run = _) by apply (startedByFn_eq inMemory uuid_v4).
  simpl in Hrun. fold state in Hrun. rewrite Hstep in Hrun. fold merged in Hrun.
  assert (Hmname : to_property_key (get merged "$name") = stateName (stateType workflow)).
  { unfold merged. rewrite get_spread, Hname. unfold state.
    by rewrite createdState_get. }
  assert (Hmstatus : get merged "$status" = Running).
  { unfold merged. rewrite get_spread, Hstatus. unfold state.
    by rewrite createdState_get. }
  rewrite <- Hmname in Hrows.
  destruct (saveWorkflowState_stores merged (storage u) rows Hrows) as [Hok _].
  rewrite Hmname in Hrows.
  rewrite Hrun. simpl. split; [exact Hok|].
  apply (saveWorkflowState_then_get (stateType workflow) mm later ctx ic merged
           (storage u) rows); auto.
Qed.

Lemma started_state_is_found_witness :
  let ctor := {| className := "Order"; newInstance := {[ "$name" := VStr "order" ]} |} in
  let workflow := {| workflowName := "orders"; stateType := ctor;
                     onStartedBy := []; onWhen := [] |} in
  let step : WhenHandler :=
    fun m _ _ => Ok (Some {[ "orderId" := get (msg_fields m) "orderId" ]}) in
  let mm := {| lookup := fun m _ => get (msg_fields m) "orderId"; mapsTo := "orderId" |} in
  let placed := {| msg_name := Some "Placed"; msg_fields := {[ "orderId" := VStr "X" ]} |} in
  let paid := {| msg_name := Some "Paid"; msg_fields := {[ "orderId" := VStr "X" ]} |} in
  let a := {| correlationId := None; attributes := ∅; stickyAttributes := ∅ |} in
  let uuid := fun n : nat => pretty n in
  let u : World InMemoryPersistence.WorkflowStorage := newWorld {[ "order" := [] ]} in
  let run := WorkflowRegistry.runClosure inMemory uuid (StartedByFn workflow step)
               placed a u in
  exists found d,
    InMemoryPersistence.getWorkflowState ctor mm paid a None (storage run.1) = Ok found
    /\ In d found
    /\ spread (createdState uuid ctor u) {[ "orderId" := VStr "X" ]} ⊆ d.
Proof.
  intros ctor workflow step mm placed paid a uuid u run.
  exact (proj2 (started_state_is_found uuid workflow step placed a mm paid a None u
                  {[ "orderId" := VStr "X" ]} [] eq_refl eq_refl eq_refl eq_refl
                  eq_refl eq_refl)).
Defined.

(** ** Postgres persistence: further properties *)

Section PostgresFacts.
Import PostgresPersistence.

Lemma lowerChar_facts (c : ascii) :
  isUpper (lowerChar c) = false
  /\ lowerChar (lowerChar c) = lowerChar c
  /\ legalCharacter (lowerChar c) = legalCharacter c.
Proof.
  destruct c as [b0 b1 b2 b3 b4 b5 b6 b7].
  destruct b0, b1, b2, b3, b4, b5, b6, b7; vm_compute; done.
Qed.

Lemma toLowerCase_noUpper (s : string) : noUpper (toLowerCase s) = true.
Proof.
  induction s as [|c s IH]; [done|]. simpl.
  destruct (lowerChar_facts c) as (-> & _ & _). done.
Qed.

Lemma toSnakeCase_noUpper_id (s : string) : noUpper s = true -> toSnakeCase s = s.
Proof.
  induction s as [|c s IH]; [done|]. simpl.
  destruct (isUpper c); simpl; [done|]. intros Hs. by rewrite IH.
Qed.

Lemma toLowerCase_filter_lower (s : string) :
  toLowerCase (filterString legalCharacter (toLowerCase s))
  = toLowerCase (filterString legalCharacter s).
Proof.
  induction s as [|c s IH]; [done|]. simpl.
  destruct (lowerChar_facts c) as (_ & Hidem & ->).
  destruct (legalCharacter c); simpl; [|done]. by rewrite Hidem, IH.
Qed.

Lemma filterString_idem (p : ascii -> bool) (s : string) :
  filterString p (filterString p s) = filterString p s.
Proof.
  induction s as [|c s IH]; [done|]. simpl.
  destruct (p c) eqn:Hp; simpl; [|done]. by rewrite Hp, IH.
Qed.

(** X22: the table a state name resolves to is the schema and the name
    with its illegal characters dropped and its letters lowered, each in
    double quotes; the snake-case step never changes it, because no
    capital is left when it runs.  So names that differ only in letter
    case or in illegal characters resolve to the same table. *)
Theorem resolveQualifiedTableName_normal_form (tableName schemaName : string) :
  resolveQualifiedTableName tableName schemaName
  = (quote ++ schemaName ++ quote ++ "." ++ quote
       ++ toLowerCase (filterString legalCharacter tableName) ++ quote)%string
  /\ resolveQualifiedTableName (toLowerCase tableName) schemaName
     = resolveQualifiedTableName tableName schemaName
  /\ resolveQualifiedTableName (filterString legalCharacter tableName) schemaName
     = resolveQualifiedTableName tableName schemaName.
Proof.
  unfold resolveQualifiedTableName.
  rewrite !toSnakeCase_noUpper_id by apply toLowerCase_noUpper.
  split; [done|]. split.
  - by rewrite toLowerCase_filter_lower.
  - by rewrite filterString_idem.
Qed.

Lemma toSnakeCase_noUpper (s : string) : noUpper (toSnakeCase s) = true.
Proof.
  induction s as [|c s IH]; [done|]. simpl.
  destruct (isUpper c) eqn:Hc; simpl.
  - destruct (lowerChar_facts c) as (-> & _ & _). done.
  - by rewrite Hc.
Qed.

(** X23: [toSnakeCase] puts an underscore before every capital letter,
    the first letter included, and lowers it: the result has no capital,
    is longer than the input by the number of its capitals, and equals the
    input exactly when the input has no capital. *)
Theorem toSnakeCase_underscores (s : string) :
  noUpper (toSnakeCase s) = true
  /\ String.length (toSnakeCase s) = (String.length s + countUpper s)%nat
  /\ (toSnakeCase s = s <-> noUpper s = true)
  /\ (forall c rest, s = String c rest -> isUpper c = true ->
        exists tail, toSnakeCase s = String "_"%char tail).
Proof.
  split; [apply toSnakeCase_noUpper|]. split; [|split].
  - induction s as [|c s IH]; [done|]. simpl.
    destruct (isUpper c); simpl; rewrite IH; lia.
  - split; [|apply toSnakeCase_noUpper_id].
    intros Heq. rewrite <- Heq. apply toSnakeCase_noUpper.
  - intros c rest -> Hc. simpl. rewrite Hc. eauto.
Qed.

(** What a successful save has found and done. *)
Lemma saveWorkflowData_ok (serializer : Serializer) (jsonb_in : string -> option props)
    (schema : string) (wd : WorkflowData) (db db' : Database) :
  let id := wd_workflowId wd in
  let v := wd_version wd in
  let tableName := resolveQualifiedTableName (wd_name wd) schema in
  let plain := <["$version" := VNum (v + 1)]> (toPlain serializer (wd_own wd)) in
  saveWorkflowData serializer jsonb_in schema wd db = (db', Ok tt) ->
  exists table u json,
    db !! tableName = Some table
    /\ uuid_in id = Some u
    /\ jsonb_in (serialize serializer plain) = Some json
    /\ inInteger (v + 1) = true
    /\ db' = <[tableName := <[u := {| row_version := v + 1; row_data := json |}]> table]> db
    /\ (v = 0 /\ table !! u = None
        \/ v <> 0 /\ inInteger v = true
           /\ exists row, table !! u = Some row /\ row_version row = v).
Proof.
  intros id v tableName plain.
  unfold saveWorkflowData, upsertWorkflowData.
  fold id v tableName plain.
  destruct (v =? 0) eqn:Hv.
  - apply Z.eqb_eq in Hv. unfold sqlInsert.
    destruct (db !! tableName) as [table|]; [|done].
    destruct (uuid_in id) as [u|]; [|done].
    destruct (inInteger (v + 1)) eqn:Hnew; [|done]. simpl.
    destruct (jsonb_in _) as [json|]; [|done].
    destruct (table !! u) as [row|] eqn:Hrow; [done|].
    intros [= <-]. exists table, u, json. split_and!; try done. by left.
  - apply Z.eqb_neq in Hv. unfold sqlUpdate.
    destruct (db !! tableName) as [table|]; [|done].
    destruct (inInteger (v + 1)) eqn:Hnew; [|done]. simpl.
    destruct (jsonb_in _) as [json|]; [|done].
    destruct (uuid_in id) as [u|]; [|done].
    destruct (inInteger v) eqn:Hold; [|done]. simpl.
    destruct (table !! u) as [row|] eqn:Hrow; [|done].
    destruct (row_version row =? v) eqn:Hversion; [|done]. simpl.
    intros [= <-]. exists table, u, json. split_and!; try done.
    right. split; [done|]. split; [done|]. exists row. split; [done|]. by apply Z.eqb_eq.
Qed.

(** X24: a successful save cannot be repeated.  The state object keeps
    its [$version] (the incremented version goes into a copy), so saving
    the same object again right after a successful save fails and changes
    nothing: with a duplicate-key error from the insert when [$version] is
    0, with [WorkflowDataNotFound] otherwise, because no row has the old
    version any more. *)
Theorem saveWorkflowData_not_repeatable
    (serializer : Serializer) (jsonb_in : string -> option props)
    (schema : string) (wd : WorkflowData) (db db' : Database) :
  saveWorkflowData serializer jsonb_in schema wd db = (db', Ok tt) ->
  saveWorkflowData serializer jsonb_in schema wd db'
  = (db', Throw (if wd_version wd =? 0
                 then DatabaseError "duplicate key value violates unique constraint"
                 else WorkflowDataNotFound (VStr (wd_workflowId wd))
                        (resolveQualifiedTableName (wd_name wd) schema)
                        (wd_version wd))).
Proof.
  intros Hsave.
  destruct (saveWorkflowData_ok _ _ _ _ _ _ Hsave)
    as (table & u & json & Hdb & Hid & Hjson & Hnew & -> & [(Hv & Hrow)|(Hv & Hold & Hrow)]).
  - unfold saveWorkflowData, upsertWorkflowData. rewrite Hv. simpl.
    rewrite Hv in Hjson. simpl in Hjson.
    erewrite sqlInsert_existing; [done | apply lookup_insert_eq | done | done | done |].
    apply lookup_insert_eq.
  - unfold saveWorkflowData, upsertWorkflowData.
    apply Z.eqb_neq in Hv. rewrite Hv.
    erewrite sqlUpdate_no_match; [done | apply lookup_insert_eq | done..|].
    intros row. rewrite lookup_insert_eq. intros [= <-]. simpl. lia.
Qed.

Lemma saveWorkflowData_not_repeatable_witness :
  let table := resolveQualifiedTableName "Order" "wf" in
  let id := "a0eebc99-9c0b-4ef8-bb6d-6bb9bd380a11" in
  let u := 213916071241125512485712096724000442897%N in
  let data (v : Z) : props := {[ "$version" := VNum v ]} in
  let row (v : Z) := {| row_version := v; row_data := data v |} in
  let wd (v : Z) := {| wd_workflowId := id; wd_name := "Order"; wd_version := v;
                       wd_own := data v |} in
  let jsonb_in := readObjects [data 1; data 6] in
  saveWorkflowData plainSerializer jsonb_in "wf" (wd 0) {[ table := {[ u := row 1 ]} ]}
  = ({[ table := {[ u := row 1 ]} ]},
     Throw (DatabaseError "duplicate key value violates unique constraint"))
  /\ saveWorkflowData plainSerializer jsonb_in "wf" (wd 5) {[ table := {[ u := row 6 ]} ]}
     = ({[ table := {[ u := row 6 ]} ]}, Throw (WorkflowDataNotFound (VStr id) table 5)).
Proof.
  intros table id u data row wd jsonb_in. split.
  - apply (saveWorkflowData_not_repeatable plainSerializer jsonb_in "wf" (wd 0)
             {[ table := ∅ ]}).
    vm_compute. reflexivity.
  - apply (saveWorkflowData_not_repeatable plainSerializer jsonb_in "wf" (wd 5)
             {[ table := {[ u := row 5 ]} ]}).
    vm_compute. reflexivity.
Defined.

(** X25: a save touches one row.  On an existing table, whatever the
    outcome, every other table is left as it was and so is every row of
    the table kept under another id than the saved one; the ids of the
    table's rows afterwards are the ids before, or those and the saved id
    when [$version] is 0, the id is new and the save succeeds. *)
Theorem saveWorkflowData_touches_one_row
    (serializer : Serializer) (jsonb_in : string -> option props)
    (schema : string) (wd : WorkflowData) (db : Database) (table : Table) :
  let id := wd_workflowId wd in
  let tableName := resolveQualifiedTableName (wd_name wd) schema in
  let saved := saveWorkflowData serializer jsonb_in schema wd db in
  db !! tableName = Some table ->
  (exists table',
     fst saved !! tableName = Some table'
     /\ (forall u, uuid_in id <> Some u -> table' !! u = table !! u)
     /\ (dom table' = dom table
         \/ wd_version wd = 0 /\ snd saved = Ok tt
            /\ exists u, uuid_in id = Some u /\ table !! u = None
                         /\ dom table' = {[ u ]} ∪ dom table))
  /\ (forall other, other <> tableName -> fst saved !! other = db !! other).
Proof.
  intros id tableName saved Hdb. subst saved.
  unfold saveWorkflowData, upsertWorkflowData. fold id tableName.
  set (plain := <["$version" := _]> _).
  destruct (wd_version wd =? 0) eqn:Hv.
  - apply Z.eqb_eq in Hv. unfold sqlInsert. rewrite Hdb.
    destruct (uuid_in id) as [u|] eqn:Hid; [|split; [exists table; auto|done]].
    destruct (inInteger _); simpl; [|split; [exists table; auto|done]].
    destruct (jsonb_in _) as [json|]; [|split; [exists table; auto|done]].
    destruct (table !! u) as [row|] eqn:Hrow; [split; [exists table; auto|done]|].
    simpl. split.
    + eexists. rewrite lookup_insert_eq. split; [done|]. split.
      * intros u' Hu'. rewrite lookup_insert_ne; [done|]. congruence.
      * right. split; [done|]. split; [done|]. exists u. split; [done|]. split; [done|].
        by rewrite dom_insert_L.
    + intros other Hother. by rewrite lookup_insert_ne.
  - unfold sqlUpdate. rewrite Hdb.
    destruct (inInteger _); simpl; [|split; [exists table; auto|done]].
    destruct (jsonb_in _) as [json|]; [|split; [exists table; auto|done]].
    destruct (uuid_in id) as [u|] eqn:Hid; [|split; [exists table; auto|done]].
    destruct (inInteger _); simpl; [|split; [exists table; auto|done]].
    destruct (table !! u) as [row|] eqn:Hrow; [|simpl; split; [exists table; auto|done]].
    destruct (row_version row =? wd_version wd); simpl; [|split; [exists table; auto|done]].
    split.
    + eexists. rewrite lookup_insert_eq. split; [done|]. split.
      * intros u' Hu'. rewrite lookup_insert_ne; [done|]. congruence.
      * left. apply dom_insert_lookup_L. by exists row.
    + intros other Hother. by rewrite lookup_insert_ne.
Qed.

Lemma saveWorkflowData_touches_one_row_witness :
  let table := resolveQualifiedTableName "Order" "wf" in
  let data (v : Z) : props := {[ "$version" := VNum v ]} in
  let wd := {| wd_workflowId := "a0eebc99-9c0b-4ef8-bb6d-6bb9bd380a11"; wd_name := "Order";
               wd_version := 0; wd_own := data 0 |} in
  let row := {| row_version := 1; row_data := data 1 |} in
  let db : Database := <[ "other" := {[ 7%N := row ]} ]> {[ table := {[ 8%N := row ]} ]} in
  let saved := saveWorkflowData plainSerializer (readObjects [data 1]) "wf" wd db in
  fst saved !! "other" = Some {[ 7%N := row ]}
  /\ exists table', fst saved !! table = Some table' /\ table' !! 8%N = Some row.
Proof.
  intros table data wd row db saved.
  assert (Hdb : db !! resolveQualifiedTableName (wd_name wd) "wf" = Some {[ 8%N := row ]})
    by (vm_compute; reflexivity).
  destruct (saveWorkflowData_touches_one_row plainSerializer (readObjects [data 1]) "wf" wd db
              {[ 8%N := row ]} Hdb) as [(table' & Htable & Hrows & _) Hother].
  split.
  - unfold saved. rewrite Hother by (vm_compute; discriminate). vm_compute. reflexivity.
  - exists table'. split; [exact Htable|]. rewrite Hrows; [reflexivity|].
    vm_compute. discriminate.
Defined.



Lemma filterString_app (p : ascii -> bool) (a b : string) :
  filterString p (a ++ b)%string = (filterString p a ++ filterString p b)%string.
Proof.
  induction a as [|c a IH]; [done|]. simpl.
  destruct (p c); simpl; by rewrite IH.
Qed.

Lemma append_empty_r (s : string) : String.append s EmptyString = s.
Proof.
  induction s as [|c s IH]; [done|].
  change (String c (String.append s EmptyString) = String c s). by f_equal.
Qed.

Lemma append_associative (a b c : string) :
  String.append (String.append a b) c = String.append a (String.append b c).
Proof.
  induction a as [|x a IH]; [done|].
  change (String x (String.append (String.append a b) c)
          = String x (String.append a (String.append b c))).
  by f_equal.
Qed.

Lemma removeQuotes_app (a b : string) :
  removeQuotes (a ++ b)%string = (removeQuotes a ++ removeQuotes b)%string.
Proof. apply filterString_app. Qed.

Lemma legal_lower_not_quote (c : ascii) :
  legalCharacter c = true -> Ascii.eqb (lowerChar c) (ascii_of_nat 34) = false.
Proof.
  destruct c as [b0 b1 b2 b3 b4 b5 b6 b7].
  destruct b0, b1, b2, b3, b4, b5, b6, b7; vm_compute; done.
Qed.

Lemma removeQuotes_normalized (s : string) :
  removeQuotes (toLowerCase (filterString legalCharacter s))
  = toLowerCase (filterString legalCharacter s).
Proof.
  unfold removeQuotes. induction s as [|c s IH]; [done|]. simpl.
  destruct (legalCharacter c) eqn:Hc; [|done]. simpl.
  rewrite legal_lower_not_quote by done. simpl. by rewrite IH.
Qed.

Lemma removeQuotes_plain (s : string) : plainName s = true -> removeQuotes s = s.
Proof.
  unfold removeQuotes. induction s as [|c s IH]; [done|]. simpl.
  intros H. apply andb_true_iff in H as [H Hs]. apply andb_true_iff in H as [Hq _].
  rewrite Hq. by rewrite IH.
Qed.

Lemma replaceFirstDot_plain (s rest : string) :
  plainName s = true ->
  replaceFirstDot (s ++ String "."%char rest)%string = (s ++ String "_"%char rest)%string.
Proof.
  induction s as [|c s IH]; [done|]. simpl.
  intros H. apply andb_true_iff in H as [H Hs]. apply andb_true_iff in H as [_ Hd].
  apply negb_true_iff in Hd. rewrite Hd. by rewrite IH.
Qed.

(** X27: the index name of a resolved table.  For a schema name without
    double quote or dot, the index over [fields] of the table a state
    name resolves to is named schema, table and the fields joined by
    underscores, ending in [_idx], in one pair of double quotes: the
    quotes of the qualified name are removed and the dot between schema
    and table, being the first one, is the one replaced. *)
Theorem resolveIndexName_of_resolved_table
    (tableName schemaName : string) (fields : list string) :
  plainName schemaName = true ->
  resolveIndexName (resolveQualifiedTableName tableName schemaName) fields
  = (quote ++ schemaName ++ "_" ++ toLowerCase (filterString legalCharacter tableName)
       ++ "_" ++ joinFields fields ++ "_idx" ++ quote)%string.
Proof.
  intros Hplain. unfold resolveIndexName, resolveQualifiedTableName.
  rewrite toSnakeCase_noUpper_id by apply toLowerCase_noUpper.
  rewrite !removeQuotes_app.
  rewrite (removeQuotes_plain schemaName) by done. rewrite removeQuotes_normalized.
  change (removeQuotes quote) with EmptyString.
  change (removeQuotes ".") with (String "."%char EmptyString).
  rewrite append_empty_r.
  change (replaceFirstDot _)
    with (replaceFirstDot
            (schemaName ++ String "."%char
               (toLowerCase (filterString legalCharacter tableName)))%string).
  rewrite replaceFirstDot_plain by done.
  rewrite append_associative. reflexivity.
Qed.

Lemma resolveIndexName_of_resolved_table_witness :
  resolveIndexName (resolveQualifiedTableName "Order State!" "workflows") ["id"; "version"]
  = (quote ++ "workflows_orderstate_id_version_idx" ++ quote)%string.
Proof.
  rewrite (resolveIndexName_of_resolved_table "Order State!" "workflows" ["id"; "version"])
    by reflexivity.
  reflexivity.
Defined.

End PostgresFacts.
